(** * Apple purchasing cost simulator

    A shallow embedding of [original-plan/apple-cost-simulator.tsx]:
    the linear congruential generator ([createRNG]), the scenario
    validator ([validateScenario]), the trial loop and the statistics
    of [runFarmTypeSimulation], the histogram of
    [createHistogramData], and the handlers of the form
    ([handleRunSimulation], [updateScenario], [updateFarmType],
    [addFarmType], [deleteFarmType], [duplicateScenario],
    [deleteScenario]) as transitions of the component's state.

    A JavaScript [number] is an IEEE 754 binary64 value; it is modelled
    by Rocq's primitive [float], whose operations are the same
    correctly rounded binary64 operations.  Values that the program
    only ever uses as integers (array lengths, loop counters, ids, the
    fields read with [parseInt]) are kept in [Z] or [nat] and converted
    with [of_Z] where they enter floating-point arithmetic. *)

From Stdlib Require Import ZArith List Bool Lia Floats Sorted Permutation.
From stdpp Require Import gmap strings pretty.

Set Warnings "-inexact-float".
Local Open Scope Z_scope.

(** ** JavaScript numbers *)

Module JS.

(** The number nearest to an integer (ties to even), as a numeric
    literal or an integer-valued property denotes it: the primitive
    conversion where the integer fits a machine word, the rounding of
    the specification everywhere (see [of_Z_spec]). *)
Definition of_Z (z : Z) : float :=
  if (0 <=? z) && (z <? 0x4000000000000000)
  then of_uint63 (Uint63.of_Z z)
  else SF2Prim (binary_normalize prec emax z 0 false).

(** The signed integer mantissa of a finite number, [None] for NaN and
    the infinities: the number is [m * 2 ^ e]. *)
Definition mantissa_exponent (x : float) : option (Z * Z) :=
  match Prim2SF x with
  | S754_zero _ => Some (0, 0)
  | S754_finite s m e => Some (cond_Zopp s (Zpos m), e)
  | _ => None
  end.

(** The largest integer below a finite number. *)
Definition floorZ (x : float) : option Z :=
  match mantissa_exponent x with
  | Some (m, e) => Some (Z.shiftl m e)
  | None => None
  end.

(** The integer part of a finite number (rounding towards zero). *)
Definition truncZ (x : float) : option Z :=
  match mantissa_exponent x with
  | Some (m, e) => Some (Z.sgn m * Z.shiftl (Z.abs m) e)
  | None => None
  end.

(** [Math.floor]: numbers with a non-negative exponent are integers
    already, and so are the zeros, the infinities and NaN. *)
Definition Math_floor (x : float) : float :=
  match Prim2SF x with
  | S754_finite s m e =>
      if 0 <=? e then x else of_Z (Z.shiftl (cond_Zopp s (Zpos m)) e)
  | _ => x
  end.

(** [Math.round]: the integer nearest to [x], halves going up; a result
    of zero keeps the sign of [x]. *)
Definition Math_round (x : float) : float :=
  match Prim2SF x with
  | S754_finite s m e =>
      if 0 <=? e then x
      else
        let n := Z.shiftl (2 * cond_Zopp s (Zpos m) + Z.shiftl 1 (- e)) (e - 1) in
        if n =? 0 then (if s then neg_zero else zero) else of_Z n
  | _ => x
  end.

(** [ToInt32]: NaN and the infinities give 0, any other number is
    truncated and wrapped into [-2^31, 2^31). *)
Definition ToInt32 (x : float) : Z :=
  match truncZ x with
  | Some t =>
      let u := Z.land t 0xFFFFFFFF in
      if u <? 0x80000000 then u else u - 0x100000000
  | None => 0
  end.

(** [a & b] on numbers. *)
Definition bitand (a b : float) : float :=
  of_Z (Z.land (ToInt32 a) (ToInt32 b)).

(** [Math.pow(x, 2)], taken as the correctly rounded square. *)
Definition Math_pow2 (x : float) : float := (x * x)%float.

(** [Math.min] and [Math.max] of two numbers: NaN is contagious and
    [-0] is below [+0]. *)
Definition is_neg_zero (x : float) : bool :=
  match Prim2SF x with S754_zero true => true | _ => false end.

Definition Math_min2 (a b : float) : float :=
  if is_nan a || is_nan b then nan
  else if (b <? a)%float then b
  else if (a <? b)%float then a
  else if is_neg_zero b then b else a.

Definition Math_max2 (a b : float) : float :=
  if is_nan a || is_nan b then nan
  else if (a <? b)%float then b
  else if (b <? a)%float then a
  else if is_neg_zero a then b else a.

(** [Math.min(...xs)] and [Math.max(...xs)]: with no argument they are
    [Infinity] and [-Infinity]. *)
Definition Math_min (xs : list float) : float := fold_left Math_min2 xs infinity.
Definition Math_max (xs : list float) : float := fold_left Math_max2 xs neg_infinity.

(** Truthiness of a number: [0], [-0] and NaN are falsy. *)
Definition truthy (x : float) : bool := negb (is_zero x || is_nan x).

(** [xs[i]] for an integer [i]; reading outside the array gives
    [undefined]. *)
Definition index {A} (xs : list A) (i : Z) : option A :=
  if (i <? 0) || (Z.of_nat (length xs) <=? i) then None
  else nth_error xs (Z.to_nat i).

(** [xs[k]] for a number [k]: only a non-negative integer names an
    element. *)
Definition index_num {A} (xs : list A) (k : float) : option A :=
  match mantissa_exponent k with
  | Some (m, e) =>
      if (0 <=? m) && (Z.shiftl (Z.shiftl m e) (- e) =? m) then index xs (Z.shiftl m e) else None
  | None => None
  end.

(** [undefined] becomes NaN when it meets arithmetic. *)
Definition ToNumber (v : option float) : float :=
  match v with Some x => x | None => nan end.

End JS.

Import JS.

(** ** The generator of [createRNG] *)

(** [state = (state * 1103515245 + 12345) & 0x7fffffff]: the product and
    the sum are binary64 operations (the product exceeds 2^53 and is
    rounded), then [&] truncates to 32 bits. *)
Definition advance (state : float) : float :=
  bitand (state * 1103515245 + 12345)%float 0x7fffffff%float.

(** [createRNG(seed)]: [seed || Math.floor(Math.random() * 1000000)];
    [mathRandom] is the value [Math.random()] would return. *)
Definition createRNG (seed : option float) (mathRandom : float) : float :=
  match seed with
  | Some s => if truthy s then s else Math_floor (mathRandom * 1000000)%float
  | None => Math_floor (mathRandom * 1000000)%float
  end.

(** Each operation advances the shared state once and returns its
    result with the new state. *)
Definition random (state : float) : float * float :=
  let state := advance state in
  ((state / 0x7fffffff)%float, state).

Definition integers (min max : float) (state : float) : float * float :=
  let state := advance state in
  (Math_floor (min + (max - min + 1) * state / 0x7fffffff)%float, state).

Definition uniform (min max : float) (state : float) : float * float :=
  let state := advance state in
  ((min + (max - min) * (state / 0x7fffffff))%float, state).

(** The loop of [choice]: [k] iterations remain, [i] is the index. *)
Fixpoint choice_loop (k : nat) (i : Z) (n : Z) (probs : list float)
    (r cumsum : float) : Z :=
  match k with
  | O => n - 1
  | S k' =>
      let cumsum := (cumsum + ToNumber (index probs i))%float in
      if (r <? cumsum)%float then i
      else choice_loop k' (i + 1) n probs r cumsum
  end.

Definition choice (n : Z) (probs : list float) (state : float) : Z * float :=
  let state := advance state in
  let r := (state / 0x7fffffff)%float in
  (choice_loop (Z.to_nat n) 0 n probs r 0%float, state).

(** ** Scenarios *)

Record FarmType := {
  id : Z;
  name : string;
  sharePercent : float;
  minDiscount : float;
  maxDiscount : float
}.

(** The fields read with [parseInt] hold integers. *)
Record Scenario := {
  lastYearCost : float;
  lastYearFarms : Z;
  minNewFarms : Z;
  maxNewFarms : Z;
  trials : Z;
  farmTypes : list FarmType
}.

Definition defaultFarmTypes : list FarmType :=
  [ {| id := 1; name := "Full price"; sharePercent := 60; minDiscount := 0; maxDiscount := 0 |};
    {| id := 2; name := "Small discount"; sharePercent := 25; minDiscount := 5; maxDiscount := 10 |};
    {| id := 3; name := "Medium discount"; sharePercent := 10; minDiscount := 15; maxDiscount := 25 |};
    {| id := 4; name := "Big discount"; sharePercent := 5; minDiscount := 30; maxDiscount := 40 |} ].

Definition baseCase : Scenario :=
  {| lastYearCost := 1000000; lastYearFarms := 30; minNewFarms := 8;
     maxNewFarms := 15; trials := 10000; farmTypes := defaultFarmTypes |}.

(** ** [validateScenario] *)

(** The messages stored in [newErrors]; [SharesMustSum t] is the
    template [`Shares must sum to 100% (currently ${t.toFixed(1)}%)`]. *)
Inductive Message :=
  | MustBeGreaterThan0     (* "Must be greater than 0" *)
  | MinFarmsExceedMax      (* "Min farms cannot exceed max farms" *)
  | MustBeBetween1And200000 (* "Must be between 1 and 200,000" *)
  | SharesMustSum (totalShare : float)
  | MustBe0To100           (* "Must be 0-100" *)
  | MaxMustBeGeMin.        (* "Max must be >= min" *)

(** [if (c) newErrors[k] = v]. *)
Definition report (c : bool) (k : string) (v : Message)
    (newErrors : gmap string Message) : gmap string Message :=
  if c then <[k := v]> newErrors else newErrors.

Definition totalShare (fts : list FarmType) : float :=
  fold_left (fun sum ft => (sum + sharePercent ft)%float) fts 0%float.

Definition farmTypeKey (idx : nat) (field : string) : string :=
  "farmType_" +:+ pretty idx +:+ "_" +:+ field.

(** The body of the [forEach] over the farm types. *)
Definition checkFarmType (ft : FarmType) (idx : nat)
    (newErrors : gmap string Message) : gmap string Message :=
  let newErrors :=
    report ((sharePercent ft <? 0) || (100 <? sharePercent ft))%float
      (farmTypeKey idx "share") MustBe0To100 newErrors in
  let newErrors :=
    report ((minDiscount ft <? 0) || (100 <? minDiscount ft))%float
      (farmTypeKey idx "minDiscount") MustBe0To100 newErrors in
  let newErrors :=
    report ((maxDiscount ft <? 0) || (100 <? maxDiscount ft))%float
      (farmTypeKey idx "maxDiscount") MustBe0To100 newErrors in
  report (maxDiscount ft <? minDiscount ft)%float
    (farmTypeKey idx "discount") MaxMustBeGeMin newErrors.

Fixpoint forEachFarmType (fts : list FarmType) (idx : nat)
    (newErrors : gmap string Message) : gmap string Message :=
  match fts with
  | [] => newErrors
  | ft :: fts' => forEachFarmType fts' (S idx) (checkFarmType ft idx newErrors)
  end.

(** The error object built by [validateScenario]. *)
Definition newErrors (scenario : Scenario) : gmap string Message :=
  let e : gmap string Message := ∅ in
  let e := report (lastYearCost scenario <=? 0)%float "lastYearCost" MustBeGreaterThan0 e in
  let e := report (lastYearFarms scenario <=? 0) "lastYearFarms" MustBeGreaterThan0 e in
  let e := report (minNewFarms scenario <=? 0) "minNewFarms" MustBeGreaterThan0 e in
  let e := report (maxNewFarms scenario <=? 0) "maxNewFarms" MustBeGreaterThan0 e in
  let e := report (maxNewFarms scenario <? minNewFarms scenario) "minNewFarms" MinFarmsExceedMax e in
  let e := report ((trials scenario <=? 0) || (200000 <? trials scenario))
             "trials" MustBeBetween1And200000 e in
  let total := totalShare (farmTypes scenario) in
  let e := report (0.5 <? abs (total - 100))%float "farmTypes" (SharesMustSum total) e in
  forEachFarmType (farmTypes scenario) 0 e.

(** [Object.keys(newErrors).length === 0]. *)
Definition validateScenario (scenario : Scenario) : bool :=
  bool_decide (size (newErrors scenario) = 0%nat).

(** ** [runFarmTypeSimulation]: the trial loop *)

(** The number of iterations of [for (let j = 0; j < n; j++)]: the
    integers from 0 below [n] (none when [n] is NaN).  The counter is
    exact for counts below 2^53, which is the domain of this model. *)
Definition iterations (n : float) : nat :=
  match mantissa_exponent n with
  | Some (m, e) => Z.to_nat (- Z.shiftl (- m) e)
  | None => O
  end.

(** What the trial loop reads from the scenario, computed before it. *)
Record Setup := {
  avgPriceLastYear : float;
  probs : list float;
  minMult : list float;
  maxMult : list float
}.

Definition setup (scenario : Scenario) : Setup :=
  let shares := map sharePercent (farmTypes scenario) in
  let total := fold_left (fun sum s => (sum + s)%float) shares 0%float in
  {| avgPriceLastYear := (lastYearCost scenario / of_Z (lastYearFarms scenario))%float;
     probs := map (fun s => (s / total)%float) shares;
     minMult := map (fun ft => (1.0 - maxDiscount ft / 100)%float) (farmTypes scenario);
     maxMult := map (fun ft => (1.0 - minDiscount ft / 100)%float) (farmTypes scenario) |}.

(** One farm: its type, then its multiplier. *)
Definition drawMultiplier (scenario : Scenario) (su : Setup) (state : float)
    : float * float :=
  let '(typeIdx, state) :=
    choice (Z.of_nat (length (farmTypes scenario))) (probs su) state in
  uniform (ToNumber (index (minMult su) typeIdx))
          (ToNumber (index (maxMult su) typeIdx)) state.

(** The inner loop over the farms of a trial: [j] iterations remain. *)
Fixpoint farmLoop (j : nat) (scenario : Scenario) (su : Setup)
    (thisYearCostPartial state : float) : float * float :=
  match j with
  | O => (thisYearCostPartial, state)
  | S j' =>
      let '(multiplier, state) := drawMultiplier scenario su state in
      farmLoop j' scenario su
        (thisYearCostPartial + multiplier * avgPriceLastYear su)%float state
  end.

(** The body of the outer loop: one trial, the value it pushes. *)
Definition trial (scenario : Scenario) (su : Setup) (state : float)
    : float * float :=
  let '(nFarms, state) :=
    integers (of_Z (minNewFarms scenario)) (of_Z (maxNewFarms scenario)) state in
  let '(thisYearCostPartial, state) :=
    farmLoop (iterations nFarms) scenario su 0%float state in
  let thisYearScaledCost :=
    (thisYearCostPartial * (of_Z (lastYearFarms scenario) / nFarms))%float in
  ((lastYearCost scenario - thisYearScaledCost)%float, state).

(** The outer loop: [i] iterations remain, [savings] is the array so far. *)
Fixpoint trialLoop (i : nat) (scenario : Scenario) (su : Setup)
    (savings : list float) (state : float) : list float * float :=
  match i with
  | O => (savings, state)
  | S i' =>
      let '(s, state) := trial scenario su state in
      trialLoop i' scenario su (savings ++ [s]) state
  end.

(** The array [savings] after the loop; the generator is created with
    the seed 42. *)
Definition simulateSavings (mathRandom : float) (scenario : Scenario) : list float :=
  let rng := createRNG (Some 42%float) mathRandom in
  fst (trialLoop (Z.to_nat (trials scenario)) scenario (setup scenario) [] rng).

(** ** [runFarmTypeSimulation]: the statistics *)

(** [[...savings].sort((a, b) => a - b)]: a stable sort; an element goes
    before the first one it compares below. *)
Fixpoint insertSorted (x : float) (sorted : list float) : list float :=
  match sorted with
  | [] => [x]
  | y :: sorted' =>
      if (x - y <? 0)%float then x :: sorted else y :: insertSorted x sorted'
  end.

Definition sort (xs : list float) : list float :=
  fold_left (fun sorted x => insertSorted x sorted) xs [].

(** The entries read from [sortedSavings] are [undefined] when the index
    names no element. *)
Record Stats := {
  mean : float;
  median : option float;
  std : float;
  min : float;
  max : float;
  p10 : option float;
  p90 : option float;
  probPositive : float
}.

Definition len (xs : list float) : float := of_Z (Z.of_nat (length xs)).

Definition sum (xs : list float) : float :=
  fold_left (fun a b => (a + b)%float) xs 0%float.

Definition variance (savings : list float) (mean : float) : float :=
  (fold_left (fun sum val => (sum + Math_pow2 (val - mean))%float) savings 0%float
   / (len savings - 1))%float.

Definition statistics (savings : list float) : Stats :=
  let sortedSavings := sort savings in
  let mean := (sum savings / len savings)%float in
  {| mean := mean;
     median := index_num sortedSavings (Math_floor (len sortedSavings / 2)%float);
     std := sqrt (variance savings mean);
     min := Math_min savings;
     max := Math_max savings;
     p10 := index_num sortedSavings (Math_floor (len sortedSavings * 0.1)%float);
     p90 := index_num sortedSavings (Math_floor (len sortedSavings * 0.9)%float);
     probPositive :=
       (len (filter (fun s => (0 <? s)%float) savings) / len savings)%float |}.

Record Result := {
  stats : Stats;
  savings : list float
}.

Definition runFarmTypeSimulation (mathRandom : float) (scenario : Scenario) : Result :=
  let savings := simulateSavings mathRandom scenario in
  {| stats := statistics savings; savings := savings |}.

(** ** [createHistogramData] *)

Definition numBins : nat := 40.

(** [bins[binIndex]++]: a key that is an index of the array increments
    that element; any other key (NaN, a negative number) makes a
    property of its own, which the returned bins never read. *)
Definition increment (bins : list nat) (binIndex : float) : list nat :=
  match mantissa_exponent binIndex with
  | Some (m, e) =>
      if (0 <=? m) && (Z.shiftl (Z.shiftl m e) (- e) =? m)
         && (Z.shiftl m e <? Z.of_nat (length bins))
      then alter S (Z.to_nat (Z.shiftl m e)) bins
      else bins
  | None => bins
  end.

Definition binIndex (min binWidth s : float) : float :=
  Math_min2 (Math_floor ((s - min) / binWidth)%float)
            (of_Z (Z.of_nat numBins) - 1)%float.

Record Bin := { bin_savings : float; count : nat }.

Definition fillBins (min binWidth : float) (savings : list float) : list nat :=
  fold_left (fun bins s => increment bins (binIndex min binWidth s))
            savings (repeat O numBins).

Definition createHistogramData (savings : list float) : list Bin :=
  let min := Math_min savings in
  let max := Math_max savings in
  let binWidth := ((max - min) / of_Z (Z.of_nat numBins))%float in
  let bins := fillBins min binWidth savings in
  imap (fun i c =>
          {| bin_savings := Math_round (min + of_Z (Z.of_nat i) * binWidth)%float;
             count := c |}) bins.

(** ** The draws of a run, for stating what a trial computes *)

(** The multipliers of [j] consecutive farms, in drawing order. *)
Fixpoint multipliers (j : nat) (scenario : Scenario) (su : Setup)
    (state : float) : list float * float :=
  match j with
  | O => ([], state)
  | S j' =>
      let '(multiplier, state) := drawMultiplier scenario su state in
      let '(rest, state) := multipliers j' scenario su state in
      (multiplier :: rest, state)
  end.

(** The generator state when trial [i] starts. *)
Fixpoint stateAt (i : nat) (scenario : Scenario) (su : Setup)
    (state : float) : float :=
  match i with
  | O => state
  | S i' => stateAt i' scenario su (snd (trial scenario su state))
  end.

(** The farm count of trial [i] and the multipliers it draws. *)
Definition nFarmsAt (i : nat) (scenario : Scenario) : float :=
  fst (integers (of_Z (minNewFarms scenario)) (of_Z (maxNewFarms scenario))
         (stateAt i scenario (setup scenario) 42%float)).

Definition multipliersAt (i : nat) (scenario : Scenario) : list float :=
  let '(nFarms, state) :=
    integers (of_Z (minNewFarms scenario)) (of_Z (maxNewFarms scenario))
      (stateAt i scenario (setup scenario) 42%float) in
  fst (multipliers (iterations nFarms) scenario (setup scenario) state).

Definition fiveTrials : Scenario :=
  {| lastYearCost := 1000000; lastYearFarms := 30; minNewFarms := 8;
     maxNewFarms := 15; trials := 5; farmTypes := defaultFarmTypes |}.


(** ** The state sequence of the generator seeded with 42 *)

(** [advance] on integer states. *)
Definition advanceZ (z : Z) : Z :=
  Z.land (ToInt32 (of_Z z * 1103515245 + 12345)%float) (ToInt32 0x7fffffff%float).

(** The first [n] states from [z] on. *)
Fixpoint orbitFrom (n : nat) (z : Z) : list Z :=
  match n with
  | O => []
  | S n' => z :: orbitFrom n' (advanceZ z)
  end.

(** From the seed 42 the generator runs through 15825 states: after
    5359 of them it is on a cycle of length 10466. *)
Definition orbit : list Z := orbitFrom (Z.to_nat 15825) 42.

(** The integers [lo, lo + 1, ...], [n] of them. *)
Definition zrange (lo : Z) (n : nat) : list Z :=
  map (fun i => lo + Z.of_nat i) (seq 0 n).

(** The pairs [(min, max)] with [1 <= min <= max <= bound]. *)
Definition bounds (bound : Z) : list (Z * Z) :=
  flat_map (fun hi => map (fun lo => (lo, hi)) (zrange 1 (Z.to_nat hi)))
           (zrange 1 (Z.to_nat bound)).

(** The number [integers] floors lies in [min, max + 1). *)
Definition drawBounded (min max max1 state : float) : bool :=
  let y := (min + (max - min + 1) * state / 0x7fffffff)%float in
  (min <=? y)%float && (y <? max1)%float.

Definition drawsBoundedOn (states : list float)
    (numbers : list (float * float * float)) : bool :=
  forallb (fun state =>
             forallb (fun '(min, max, max1) => drawBounded min max max1 state) numbers)
          states.

Definition numbersUpTo (bound : Z) : list (float * float * float) :=
  map (fun '(lo, hi) => (of_Z lo, of_Z hi, of_Z (hi + 1))) (bounds bound).


(** The states the engine's generator can be in: those of the sequence
    that starts at the seed 42. *)
Definition reachable (state : float) : Prop :=
  exists k : nat, state = Nat.iter k advance 42%float.


(** ** The checks of the validator, one by one *)

Inductive Check :=
  | LastYearCostPositive
  | LastYearFarmsPositive
  | MinNewFarmsPositive
  | MaxNewFarmsPositive
  | MinAtMostMax
  | TrialsInRange
  | SharesSumTo100
  | ShareInRange (idx : nat)
  | MinDiscountInRange (idx : nat)
  | MaxDiscountInRange (idx : nat)
  | DiscountOrder (idx : nat).

(** A check on a farm type fails when that farm type exists and
    violates it. *)
Definition farmTypeFails (scenario : Scenario) (idx : nat)
    (violates : FarmType -> bool) : bool :=
  match nth_error (farmTypes scenario) idx with
  | Some ft => violates ft
  | None => false
  end.

Definition failed (scenario : Scenario) (c : Check) : bool :=
  match c with
  | LastYearCostPositive => (lastYearCost scenario <=? 0)%float
  | LastYearFarmsPositive => lastYearFarms scenario <=? 0
  | MinNewFarmsPositive => minNewFarms scenario <=? 0
  | MaxNewFarmsPositive => maxNewFarms scenario <=? 0
  | MinAtMostMax => maxNewFarms scenario <? minNewFarms scenario
  | TrialsInRange => (trials scenario <=? 0) || (200000 <? trials scenario)
  | SharesSumTo100 => (0.5 <? abs (totalShare (farmTypes scenario) - 100))%float
  | ShareInRange idx =>
      farmTypeFails scenario idx
        (fun ft => (sharePercent ft <? 0) || (100 <? sharePercent ft))%float
  | MinDiscountInRange idx =>
      farmTypeFails scenario idx
        (fun ft => (minDiscount ft <? 0) || (100 <? minDiscount ft))%float
  | MaxDiscountInRange idx =>
      farmTypeFails scenario idx
        (fun ft => (maxDiscount ft <? 0) || (100 <? maxDiscount ft))%float
  | DiscountOrder idx =>
      farmTypeFails scenario idx (fun ft => (maxDiscount ft <? minDiscount ft)%float)
  end.

(** The key under which a failed check is reported. *)
Definition field (c : Check) : string :=
  match c with
  | LastYearCostPositive => "lastYearCost"
  | LastYearFarmsPositive => "lastYearFarms"
  | MinNewFarmsPositive => "minNewFarms"
  | MaxNewFarmsPositive => "maxNewFarms"
  | MinAtMostMax => "minNewFarms"
  | TrialsInRange => "trials"
  | SharesSumTo100 => "farmTypes"
  | ShareInRange idx => farmTypeKey idx "share"
  | MinDiscountInRange idx => farmTypeKey idx "minDiscount"
  | MaxDiscountInRange idx => farmTypeKey idx "maxDiscount"
  | DiscountOrder idx => farmTypeKey idx "discount"
  end.

(** ** The order of numbers, for reasoning about comparisons *)

(** Every number but NaN has a rank in [Z]: a finite number [m * 2^e]
    has the rank [m * 2^(e + 1074)] (1074 is the least exponent of
    binary64, so this is an integer), the infinities lie beyond every
    finite rank.  Comparing numbers is comparing ranks
    ([ltb_rank], [leb_rank], [eqb_rank] below). *)
Definition big : Z := 2 ^ 2100.

Definition scaled (m : positive) (e : Z) : Z := Zpos m * 2 ^ (e + 1074).
Arguments scaled : simpl never.

Definition SFrank (x : spec_float) : option Z :=
  match x with
  | S754_nan => None
  | S754_infinity s => Some (cond_Zopp s big)
  | S754_zero _ => Some 0
  | S754_finite s m e => Some (cond_Zopp s (scaled m e))
  end.

Definition rank (x : float) : option Z := SFrank (Prim2SF x).

(** Finite numbers: those with a rank strictly between the infinities. *)
Definition finite_rank (x : float) (a : Z) : Prop :=
  rank x = Some a /\ - big < a < big.

(** ** Checking floors by comparisons *)

(** [y] lies in [k, k + 1), so that its floor is [k]. *)
Definition floorIs (y : float) (k : Z) : bool :=
  if k =? 0 then (0 <? y)%float && (y <? 1)%float
  else (of_Z k <=? y)%float && (y <? of_Z (k + 1))%float.

(** [f z] holds for the [n] integers from [z] on. *)
Fixpoint forallFrom (n : nat) (z : Z) (f : Z -> bool) : bool :=
  match n with
  | O => true
  | S n' => if f z then forallFrom n' (z + 1) f else false
  end.

(** The three indices the statistics read, for an array of [n]
    elements. *)
Definition indicesExact (n : Z) : bool :=
  floorIs (of_Z n / 2) (n / 2) &&
  floorIs (of_Z n * 0.1) (n / 10) &&
  floorIs (of_Z n * 0.9) (9 * n / 10).

(** Numbers that are neither NaN nor infinite. *)
Definition isFinite (x : float) : bool :=
  (neg_infinity <? x)%float && (x <? infinity)%float.

(** Ascending order of numbers: every element is at most each later
    one. *)
Definition ascending (xs : list float) : Prop :=
  StronglySorted (fun x y => (x <=? y)%float = true) xs.

(** ** Array indices *)

(** The number [k], used as a property key, names the element [n] of an
    array: it is the non-negative integer [n]. *)
Definition namesIndex (k : float) (n : Z) : Prop :=
  exists m e, mantissa_exponent k = Some (m, e) /\
              0 <= m /\ Z.shiftl m e = n /\ Z.shiftl n (- e) = m.

(** The sum of the counts of the bins. *)
Definition total (bins : list nat) : nat := fold_right Nat.add O bins.

(** Two values an underflow apart: their range divided by 40 is 0. *)
Definition tinyRange : list float := [0; 0x1p-1074]%float.

(** ** Scenarios with one multiplier *)


(** [r] lies in [0, 1). *)
Definition inUnitInterval (r : float) : bool :=
  (0 <=? r)%float && (r <? 1)%float.

(** The quotient [state / 0x7fffffff] of every state listed lies in
    [0, 1). *)
Definition quotientsInUnitInterval (states : list float) : bool :=
  forallb (fun state => inUnitInterval (state / 0x7fffffff)%float) states.

(** The savings of a trial of [n] farms that all have the multiplier
    [m]. *)
Definition savingsWith (m lastYearCost : float) (lastYearFarms n : Z) : float :=
  let avgPriceLastYear := (lastYearCost / of_Z lastYearFarms)%float in
  let thisYearCostPartial :=
    Nat.iter (Z.to_nat n) (fun c => (c + m * avgPriceLastYear)%float) 0%float in
  (lastYearCost - thisYearCostPartial * (of_Z lastYearFarms / of_Z n))%float.

(** Every farm type has the same multiplier range, [m] to [m]. *)
Definition multiplierFixed (m : float) (scenario : Scenario) : Prop :=
  Forall (fun ft => (1.0 - maxDiscount ft / 100)%float = m /\
                    (1.0 - minDiscount ft / 100)%float = m)
         (farmTypes scenario).

(** One farm type at 100% with a discount of exactly 10%, the same farm
    count as last year. *)
Definition exactScenario : Scenario :=
  {| lastYearCost := 1000000; lastYearFarms := 30; minNewFarms := 30;
     maxNewFarms := 30; trials := 1000;
     farmTypes :=
       [ {| id := 1; name := "Fixed discount"; sharePercent := 100;
            minDiscount := 10; maxDiscount := 10 |} ] |}.

(** The savings of every trial of [exactScenario]:
    99999.99999999988, which is [100000 - 2^-33]. *)
Definition exactSavings : float := 0x1.869fffffffff8p+16%float.

(** ** Full price *)


(** The base case with the single farm type "Full price". *)
Definition fullPriceScenario : Scenario :=
  {| lastYearCost := 1000000; lastYearFarms := 30; minNewFarms := 8;
     maxNewFarms := 15; trials := 10000;
     farmTypes :=
       [ {| id := 1; name := "Full price"; sharePercent := 100;
            minDiscount := 0; maxDiscount := 0 |} ] |}.


(** The four checks made on one farm type. *)
Definition farmTypeChecks (ft : FarmType) (idx : nat) : list (bool * string) :=
  [ (((sharePercent ft <? 0) || (100 <? sharePercent ft))%float, farmTypeKey idx "share");
    (((minDiscount ft <? 0) || (100 <? minDiscount ft))%float, farmTypeKey idx "minDiscount");
    (((maxDiscount ft <? 0) || (100 <? maxDiscount ft))%float, farmTypeKey idx "maxDiscount");
    ((maxDiscount ft <? minDiscount ft)%float, farmTypeKey idx "discount") ].


(** ** The cumulative sums of [choice] *)

(** The value of [cumsum] after the first [i] probabilities have been
    added; an entry the array does not have is [undefined], which makes
    the sum NaN. *)
Fixpoint cumsumAfter (i : nat) (probs : list float) : float :=
  match i with
  | O => 0%float
  | S i' => (cumsumAfter i' probs + ToNumber (index probs (Z.of_nat i')))%float
  end.

(** The base case with no trial to run. *)
Definition noTrials : Scenario :=
  {| lastYearCost := 1000000; lastYearFarms := 30; minNewFarms := 8;
     maxNewFarms := 15; trials := 0; farmTypes := defaultFarmTypes |}.

(** ** The share warning of the form *)

(** [shareWarning]: the banner shown, and the run button disabled, when
    the shares of the active scenario are more than 0.5 away from
    100. *)
Definition shareWarning (fts : list FarmType) : bool :=
  (0.5 <? abs (totalShare fts - 100))%float.

(** The base case with a cost that is not a number. *)
Definition nanCost : Scenario :=
  {| lastYearCost := nan; lastYearFarms := 30; minNewFarms := 8;
     maxNewFarms := 15; trials := 10000; farmTypes := defaultFarmTypes |}.

(** ** The state of the application *)

(** [{ ...result, histogramData }], stored as [results] of a
    scenario. *)
Record Results := {
  result : Result;
  histogramData : list Bin
}.

(** A scenario of the list: [id] and [name] (here [sid] and [sname]),
    the fields the simulation reads, and [results], [null] until a run
    has succeeded. *)
Record SavedScenario := {
  sid : Z;
  sname : string;
  inputs : Scenario;
  results : option Results
}.

(** The state hooks of the component, and the messages shown with
    [alert] so far (latest first). *)
Record App := {
  scenarios : list SavedScenario;
  activeScenarioId : Z;
  errors : gmap string Message;
  isRunning : bool;
  compareMode : bool;
  alerts : list string
}.

Definition initialApp : App :=
  {| scenarios := [ {| sid := 1; sname := "Base Case"; inputs := baseCase; results := None |} ];
     activeScenarioId := 1; errors := ∅; isRunning := false; compareMode := false;
     alerts := [] |}.

(** [scenarios.find(s => s.id === activeScenarioId)]; [None] is
    [undefined]. *)
Definition activeScenario (app : App) : option SavedScenario :=
  find (fun s => sid s =? activeScenarioId app) (scenarios app).

Definition setScenarios (l : list SavedScenario) (app : App) : App :=
  {| scenarios := l; activeScenarioId := activeScenarioId app; errors := errors app;
     isRunning := isRunning app; compareMode := compareMode app; alerts := alerts app |}.

Definition setActiveScenarioId (i : Z) (app : App) : App :=
  {| scenarios := scenarios app; activeScenarioId := i; errors := errors app;
     isRunning := isRunning app; compareMode := compareMode app; alerts := alerts app |}.

Definition setErrors (e : gmap string Message) (app : App) : App :=
  {| scenarios := scenarios app; activeScenarioId := activeScenarioId app; errors := e;
     isRunning := isRunning app; compareMode := compareMode app; alerts := alerts app |}.

Definition setIsRunning (b : bool) (app : App) : App :=
  {| scenarios := scenarios app; activeScenarioId := activeScenarioId app;
     errors := errors app; isRunning := b; compareMode := compareMode app;
     alerts := alerts app |}.

Definition setCompareMode (b : bool) (app : App) : App :=
  {| scenarios := scenarios app; activeScenarioId := activeScenarioId app;
     errors := errors app; isRunning := isRunning app; compareMode := b;
     alerts := alerts app |}.

Definition alert (message : string) (app : App) : App :=
  {| scenarios := scenarios app; activeScenarioId := activeScenarioId app;
     errors := errors app; isRunning := isRunning app; compareMode := compareMode app;
     alerts := message :: alerts app |}.

(** The objects the form passes to [updateScenario]: each names the
    properties it replaces. *)
Record Updates := {
  set_name : option string;
  set_lastYearCost : option float;
  set_lastYearFarms : option Z;
  set_minNewFarms : option Z;
  set_maxNewFarms : option Z;
  set_trials : option Z;
  set_farmTypes : option (list FarmType)
}.

Definition noUpdates : Updates :=
  {| set_name := None; set_lastYearCost := None; set_lastYearFarms := None;
     set_minNewFarms := None; set_maxNewFarms := None; set_trials := None;
     set_farmTypes := None |}.

Definition farmTypesUpdate (fts : list FarmType) : Updates :=
  {| set_name := None; set_lastYearCost := None; set_lastYearFarms := None;
     set_minNewFarms := None; set_maxNewFarms := None; set_trials := None;
     set_farmTypes := Some fts |}.

(** [{ ...s, ...updates }]. *)
Definition spread (s : SavedScenario) (updates : Updates) : SavedScenario :=
  {| sid := sid s;
     sname := default (sname s) (set_name updates);
     inputs :=
       {| lastYearCost := default (lastYearCost (inputs s)) (set_lastYearCost updates);
          lastYearFarms := default (lastYearFarms (inputs s)) (set_lastYearFarms updates);
          minNewFarms := default (minNewFarms (inputs s)) (set_minNewFarms updates);
          maxNewFarms := default (maxNewFarms (inputs s)) (set_maxNewFarms updates);
          trials := default (trials (inputs s)) (set_trials updates);
          farmTypes := default (farmTypes (inputs s)) (set_farmTypes updates) |};
     results := results s |}.

Definition updateScenario (updates : Updates) (app : App) : App :=
  setScenarios
    (map (fun s => if sid s =? activeScenarioId app then spread s updates else s)
         (scenarios app))
    app.

(** The property [updateFarmType] replaces, with its new value. *)
Inductive FieldValue :=
  | NameValue (value : string)
  | SharePercentValue (value : float)
  | MinDiscountValue (value : float)
  | MaxDiscountValue (value : float).

(** [{ ...ft, [field]: value }]. *)
Definition setField (ft : FarmType) (fv : FieldValue) : FarmType :=
  match fv with
  | NameValue v =>
      {| id := id ft; name := v; sharePercent := sharePercent ft;
         minDiscount := minDiscount ft; maxDiscount := maxDiscount ft |}
  | SharePercentValue v =>
      {| id := id ft; name := name ft; sharePercent := v;
         minDiscount := minDiscount ft; maxDiscount := maxDiscount ft |}
  | MinDiscountValue v =>
      {| id := id ft; name := name ft; sharePercent := sharePercent ft;
         minDiscount := v; maxDiscount := maxDiscount ft |}
  | MaxDiscountValue v =>
      {| id := id ft; name := name ft; sharePercent := sharePercent ft;
         minDiscount := minDiscount ft; maxDiscount := v |}
  end.

(** A handler that reads a property of [activeScenario] throws when
    there is no active scenario: [None]. *)
Definition updateFarmType (typeId : Z) (fv : FieldValue) (app : App) : option App :=
  match activeScenario app with
  | None => None
  | Some a =>
      let updatedTypes :=
        map (fun ft => if id ft =? typeId then setField ft fv else ft)
            (farmTypes (inputs a)) in
      Some (updateScenario (farmTypesUpdate updatedTypes) app)
  end.

(** [Math.max(...ids)] on integer ids; with no id it is [-Infinity],
    which is no integer: [None]. *)
Definition maxId (ids : list Z) : option Z :=
  match ids with
  | [] => None
  | i :: ids' => Some (fold_left Z.max ids' i)
  end.

Definition newType (newId : Z) : FarmType :=
  {| id := newId; name := "New type"; sharePercent := 0; minDiscount := 0;
     maxDiscount := 0 |}.

(** [addFarmType]: [None] also when the scenario has no farm type,
    where the new id would be [-Infinity + 1]. *)
Definition addFarmType (app : App) : option App :=
  match activeScenario app with
  | None => None
  | Some a =>
      match maxId (map id (farmTypes (inputs a))) with
      | None => None
      | Some m =>
          Some (updateScenario
                  (farmTypesUpdate (farmTypes (inputs a) ++ [newType (m + 1)])) app)
      end
  end.

(** [deleteFarmType]: the last farm type is kept, with an alert. *)
Definition deleteFarmType (typeId : Z) (app : App) : option App :=
  match activeScenario app with
  | None => None
  | Some a =>
      if (length (farmTypes (inputs a)) <=? 1)%nat
      then Some (alert "Must have at least one farm type" app)
      else Some (updateScenario
                   (farmTypesUpdate
                      (filter (fun ft => negb (id ft =? typeId)) (farmTypes (inputs a))))
                   app)
  end.

(** [duplicateScenario]: the copy gets the next id, is appended and
    becomes the active scenario; reading [activeScenario.name] throws
    when there is no active scenario. *)
Definition duplicateScenario (app : App) : option App :=
  match maxId (map sid (scenarios app)), activeScenario app with
  | Some m, Some a =>
      let newId := m + 1 in
      let newScenario :=
        {| sid := newId;
           sname := sname a +:+ " (copy)";
           inputs :=
             {| lastYearCost := lastYearCost (inputs a);
                lastYearFarms := lastYearFarms (inputs a);
                minNewFarms := minNewFarms (inputs a);
                maxNewFarms := maxNewFarms (inputs a);
                trials := trials (inputs a);
                farmTypes := map (fun ft => ft) (farmTypes (inputs a)) |};
           results := None |} in
      Some (setActiveScenarioId newId
              (setScenarios (scenarios app ++ [newScenario]) app))
  | _, _ => None
  end.

(** [deleteScenario]: the last scenario is kept, with an alert; when
    the active scenario is deleted, the first remaining one becomes
    active ([.id] of [undefined] throws when there is none). *)
Definition deleteScenario (scenarioId : Z) (app : App) : option App :=
  if (length (scenarios app) <=? 1)%nat
  then Some (alert "Must have at least one scenario" app)
  else
    let remaining := filter (fun s => negb (sid s =? scenarioId)) (scenarios app) in
    if activeScenarioId app =? scenarioId
    then
      match find (fun s => negb (sid s =? scenarioId)) (scenarios app) with
      | Some s => Some (setActiveScenarioId (sid s) (setScenarios remaining app))
      | None => None
      end
    else Some (setScenarios remaining app).

(** [handleRunSimulation], when the delayed callback has run: the
    errors are those of the validator; a scenario that fails is not
    simulated; otherwise the results are stored in every scenario
    with the active id. *)
Definition handleRunSimulation (mathRandom : float) (app : App) : option App :=
  match activeScenario app with
  | None => None
  | Some a =>
      let app := setErrors (newErrors (inputs a)) app in
      if negb (validateScenario (inputs a)) then Some app
      else
        let result := runFarmTypeSimulation mathRandom (inputs a) in
        let histogramData := createHistogramData (savings result) in
        Some (setIsRunning false
                (setScenarios
                   (map (fun s =>
                           if sid s =? activeScenarioId app
                           then {| sid := sid s; sname := sname s; inputs := inputs s;
                                   results := Some {| result := result;
                                                      histogramData := histogramData |} |}
                           else s)
                        (scenarios app))
                   app))
  end.

(** ** The events of the form *)

Inductive Event :=
  | SelectTab (tab : nat)
  | EditName (value : string)
  | EditLastYearCost (value : float)
  | EditLastYearFarms (value : Z)
  | EditMinNewFarms (value : Z)
  | EditMaxNewFarms (value : Z)
  | EditTrials (value : Z)
  | EditFarmType (typeId : Z) (fv : FieldValue)
  | AddFarmType
  | DeleteFarmType (typeId : Z)
  | DuplicateScenario
  | DeleteScenario (scenarioId : Z)
  | ToggleCompare
  | RunSimulation.

(** The handler each control calls; [SelectTab] is the click on the
    tab at that position. *)
Definition handle (mathRandom : float) (ev : Event) (app : App) : option App :=
  match ev with
  | SelectTab tab =>
      match nth_error (scenarios app) tab with
      | Some s => Some (setActiveScenarioId (sid s) app)
      | None => Some app
      end
  | EditName v =>
      Some (updateScenario
              {| set_name := Some v; set_lastYearCost := None; set_lastYearFarms := None;
                 set_minNewFarms := None; set_maxNewFarms := None; set_trials := None;
                 set_farmTypes := None |} app)
  | EditLastYearCost v =>
      Some (updateScenario
              {| set_name := None; set_lastYearCost := Some v; set_lastYearFarms := None;
                 set_minNewFarms := None; set_maxNewFarms := None; set_trials := None;
                 set_farmTypes := None |} app)
  | EditLastYearFarms v =>
      Some (updateScenario
              {| set_name := None; set_lastYearCost := None; set_lastYearFarms := Some v;
                 set_minNewFarms := None; set_maxNewFarms := None; set_trials := None;
                 set_farmTypes := None |} app)
  | EditMinNewFarms v =>
      Some (updateScenario
              {| set_name := None; set_lastYearCost := None; set_lastYearFarms := None;
                 set_minNewFarms := Some v; set_maxNewFarms := None; set_trials := None;
                 set_farmTypes := None |} app)
  | EditMaxNewFarms v =>
      Some (updateScenario
              {| set_name := None; set_lastYearCost := None; set_lastYearFarms := None;
                 set_minNewFarms := None; set_maxNewFarms := Some v; set_trials := None;
                 set_farmTypes := None |} app)
  | EditTrials v =>
      Some (updateScenario
              {| set_name := None; set_lastYearCost := None; set_lastYearFarms := None;
                 set_minNewFarms := None; set_maxNewFarms := None; set_trials := Some v;
                 set_farmTypes := None |} app)
  | EditFarmType typeId fv => updateFarmType typeId fv app
  | AddFarmType => addFarmType app
  | DeleteFarmType typeId => deleteFarmType typeId app
  | DuplicateScenario => duplicateScenario app
  | DeleteScenario scenarioId => deleteScenario scenarioId app
  | ToggleCompare => Some (setCompareMode (negb (compareMode app)) app)
  | RunSimulation => handleRunSimulation mathRandom app
  end.


(** What the handlers rely on: the ids of the scenarios are distinct,
    the active id is one of them, and every scenario has at least one
    farm type, with distinct ids. *)
Definition wellFormedScenario (s : SavedScenario) : Prop :=
  farmTypes (inputs s) <> [] /\ NoDup (map id (farmTypes (inputs s))).

Definition wellFormed (app : App) : Prop :=
  NoDup (map sid (scenarios app)) /\
  activeScenarioId app ∈ map sid (scenarios app) /\
  Forall wellFormedScenario (scenarios app).

(** [{ ...scenario, trials: value }], on the fields the simulation
    reads. *)
Definition setTrials (value : Z) (scenario : Scenario) : Scenario :=
  {| lastYearCost := lastYearCost scenario; lastYearFarms := lastYearFarms scenario;
     minNewFarms := minNewFarms scenario; maxNewFarms := maxNewFarms scenario;
     trials := value; farmTypes := farmTypes scenario |}.

(** * Properties *)

(** ** Sample runs *)

Example advance_42 : advance 42 = 1250496027%float.
Proof. vm_compute. reflexivity. Qed.

Example baseCase_valid : validateScenario baseCase = true.
Proof. vm_compute. reflexivity. Qed.

Example fiveTrials_savings :
  simulateSavings 0 fiveTrials =
  [65801.0388313022; 57742.48321435519; 59734.882707584184;
   25475.261207736214; 44551.093231877196]%float.
Proof. vm_compute. reflexivity. Qed.


(** ** Binary64 facts *)

Lemma digits2_pos_bounds m :
  2 ^ (Zpos (digits2_pos m) - 1) <= Zpos m < 2 ^ Zpos (digits2_pos m).
Proof.
  induction m as [m IH|m IH|]; cbn [digits2_pos].
  - rewrite Pos2Z.inj_succ.
    replace (Z.succ (Zpos (digits2_pos m)) - 1) with (Z.succ (Zpos (digits2_pos m) - 1)) by lia.
    rewrite !Z.pow_succ_r by lia. lia.
  - rewrite Pos2Z.inj_succ.
    replace (Z.succ (Zpos (digits2_pos m)) - 1) with (Z.succ (Zpos (digits2_pos m) - 1)) by lia.
    rewrite !Z.pow_succ_r by lia. lia.
  - simpl. lia.
Qed.

Lemma fexp_eq e : fexp prec emax e = Z.max (e - 53) (-1074).
Proof. reflexivity. Qed.

(** What validity says about a finite number. *)
Lemma valid_finite s m e :
  valid_binary (S754_finite s m e) = true ->
  -1074 <= e <= 971 /\ Zpos m < 2 ^ 53 /\ (-1074 < e -> 2 ^ 52 <= Zpos m).
Proof.
  cbn [valid_binary]. unfold bounded, canonical_mantissa.
  rewrite fexp_eq. intros H. apply andb_true_iff in H as [H1 H2].
  apply Z.eqb_eq in H1. apply Z.leb_le in H2.
  change (emax - prec) with 971 in H2.
  pose proof (digits2_pos_bounds m) as [Hlo Hhi].
  assert (Hd : Zpos (digits2_pos m) <= 53) by lia.
  split; [lia|]. split.
  - eapply Z.lt_le_trans; [exact Hhi|]. apply Z.pow_le_mono_r; lia.
  - intros He. assert (Zpos (digits2_pos m) = 53) as E by lia.
    rewrite E in Hlo. exact Hlo.
Qed.

Lemma rank_finite_bounds m e :
  -1074 <= e <= 971 -> Zpos m < 2 ^ 53 ->
  0 < scaled m e < big.
Proof.
  unfold scaled. intros He Hm. assert (0 < 2 ^ (e + 1074)) by (apply Z.pow_pos_nonneg; lia).
  split; [lia|]. unfold big.
  apply Z.lt_le_trans with (2 ^ 53 * 2 ^ (e + 1074)).
  - apply Z.mul_lt_mono_pos_r; lia.
  - rewrite <- Z.pow_add_r; [|lia|lia]. apply Z.pow_le_mono_r; lia.
Qed.

Lemma rank_lt_of_exponent m1 e1 m2 e2 :
  -1074 <= e1 -> e1 < e2 -> Zpos m1 < 2 ^ 53 -> 2 ^ 52 <= Zpos m2 ->
  scaled m1 e1 < scaled m2 e2.
Proof.
  unfold scaled. intros H1 H12 Hm1 Hm2.
  replace (e2 + 1074) with ((e2 - e1 - 1) + 1 + (e1 + 1074)) by lia.
  rewrite (Z.pow_add_r 2 (e2 - e1 - 1 + 1) (e1 + 1074)) by lia.
  rewrite (Z.pow_add_r 2 (e2 - e1 - 1) 1) by lia.
  assert (0 < 2 ^ (e1 + 1074)) by (apply Z.pow_pos_nonneg; lia).
  assert (1 <= 2 ^ (e2 - e1 - 1)) by (apply (Z.pow_le_mono_r 2 0); lia).
  change (2 ^ 1) with 2. change (2 ^ 53) with (2 ^ 52 * 2) in Hm1.
  assert (0 < 2 ^ 52) by reflexivity.
  set (K := 2 ^ 52) in *. set (P := 2 ^ (e1 + 1074)) in *.
  set (A := 2 ^ (e2 - e1 - 1)) in *.
  apply Z.lt_le_trans with (K * 2 * P); [apply Z.mul_lt_mono_pos_r; lia|].
  rewrite Z.mul_assoc. apply Z.mul_le_mono_nonneg_r; [lia|].
  rewrite Z.mul_assoc. apply Z.mul_le_mono_nonneg_r; [lia|].
  apply Z.le_trans with (Z.pos m2 * 1); [lia|].
  apply Z.mul_le_mono_nonneg_l; lia.
Qed.

Lemma scaled_compare m1 m2 e :
  -1074 <= e -> (scaled m1 e ?= scaled m2 e) = (m1 ?= m2)%positive.
Proof.
  intros He. unfold scaled.
  assert (0 < 2 ^ (e + 1074)) as HP by (apply Z.pow_pos_nonneg; lia).
  destruct (Pos.compare_spec m1 m2) as [E|L|G].
  - subst. apply Z.compare_refl.
  - apply Z.compare_lt_iff, Z.mul_lt_mono_pos_r; [exact HP|]. now apply Pos2Z.pos_lt_pos.
  - apply Z.compare_gt_iff, Z.mul_lt_mono_pos_r; [exact HP|]. now apply Pos2Z.pos_lt_pos.
Qed.

(** Comparison of numbers is comparison of their ranks. *)
Lemma SFcompare_rank x y a b :
  valid_binary x = true -> valid_binary y = true ->
  SFrank x = Some a -> SFrank y = Some b ->
  SFcompare x y = Some (a ?= b).
Proof.
  intros Vx Vy Hx Hy.
  destruct x as [sx|sx| |sx mx ex]; try discriminate;
  destruct y as [sy|sy| |sy my ey]; try discriminate;
  cbn [SFrank] in Hx, Hy; injection Hx as <-; injection Hy as <-;
  try (apply valid_finite in Vx as (Hex & Hmx & Hnx);
       pose proof (rank_finite_bounds mx ex Hex Hmx));
  try (apply valid_finite in Vy as (Hey & Hmy & Hny);
       pose proof (rank_finite_bounds my ey Hey Hmy));
  assert (0 < big) by reflexivity;
  cbn [SFcompare].
  all: try (destruct sx; destruct sy; cbn [cond_Zopp]; f_equal; symmetry;
            first [ apply Z.compare_eq_iff; lia
                  | apply Z.compare_lt_iff; lia
                  | apply Z.compare_gt_iff; lia ]; fail).
  (* both finite *)
  f_equal. destruct sx, sy; cbn [cond_Zopp].
  - rewrite Z.compare_opp.
    destruct (Z.compare_spec ex ey) as [E|L|G].
    + subst ey. rewrite scaled_compare by lia.
      rewrite Pos.compare_cont_spec.
      destruct (mx ?= my)%positive eqn:E; cbn [Pos.switch_Eq CompOpp];
        rewrite Pos.compare_antisym, E; reflexivity.
    + symmetry. apply Z.compare_gt_iff.
      apply rank_lt_of_exponent; lia.
    + symmetry. apply Z.compare_lt_iff.
      apply rank_lt_of_exponent; lia.
  - symmetry. apply Z.compare_lt_iff. lia.
  - symmetry. apply Z.compare_gt_iff. lia.
  - destruct (Z.compare_spec ex ey) as [E|L|G].
    + subst ey. rewrite scaled_compare by lia.
      rewrite Pos.compare_cont_spec. now destruct (mx ?= my)%positive.
    + symmetry. apply Z.compare_lt_iff.
      apply rank_lt_of_exponent; lia.
    + symmetry. apply Z.compare_gt_iff.
      apply rank_lt_of_exponent; lia.
Qed.

(** *** Comparisons of primitive numbers *)

Lemma rank_compare x y a b :
  rank x = Some a -> rank y = Some b ->
  SFcompare (Prim2SF x) (Prim2SF y) = Some (a ?= b).
Proof. apply SFcompare_rank; apply Prim2SF_valid. Qed.

Lemma SFcompare_nan_l x y : SFrank x = None -> SFcompare x y = None.
Proof. destruct x; try discriminate. reflexivity. Qed.

Lemma SFcompare_nan_r x y : SFrank y = None -> SFcompare x y = None.
Proof. destruct y; try discriminate. destruct x; reflexivity. Qed.

Lemma ltb_rank x y :
  (x <? y)%float =
  match rank x, rank y with Some a, Some b => a <? b | _, _ => false end.
Proof.
  rewrite FloatAxioms.ltb_spec. unfold SFltb.
  destruct (rank x) as [a|] eqn:Hx; [destruct (rank y) as [b|] eqn:Hy|].
  - rewrite (rank_compare x y a b Hx Hy). unfold Z.ltb. now destruct (a ?= b).
  - now rewrite SFcompare_nan_r.
  - now rewrite SFcompare_nan_l.
Qed.

Lemma leb_rank x y :
  (x <=? y)%float =
  match rank x, rank y with Some a, Some b => a <=? b | _, _ => false end.
Proof.
  rewrite FloatAxioms.leb_spec. unfold SFleb.
  destruct (rank x) as [a|] eqn:Hx; [destruct (rank y) as [b|] eqn:Hy|].
  - rewrite (rank_compare x y a b Hx Hy). unfold Z.leb. now destruct (a ?= b).
  - now rewrite SFcompare_nan_r.
  - now rewrite SFcompare_nan_l.
Qed.

Lemma eqb_rank x y :
  (x =? y)%float =
  match rank x, rank y with Some a, Some b => a =? b | _, _ => false end.
Proof.
  rewrite FloatAxioms.eqb_spec. unfold SFeqb.
  destruct (rank x) as [a|] eqn:Hx; [destruct (rank y) as [b|] eqn:Hy|].
  - rewrite (rank_compare x y a b Hx Hy).
    destruct (Z.compare_spec a b); destruct (Z.eqb_spec a b); (reflexivity || lia).
  - now rewrite SFcompare_nan_r.
  - now rewrite SFcompare_nan_l.
Qed.

(** *** Numbers that are small integers *)

Lemma shr_zero mrs e : shr mrs e 0 = (mrs, e).
Proof. reflexivity. Qed.

(** A canonical mantissa is not rounded. *)
Lemma binary_round_aux_canonical sx m e :
  canonical_mantissa prec emax m e = true -> e <= 971 ->
  binary_round_aux prec emax sx (Zpos m) e loc_Exact = S754_finite sx m e.
Proof.
  intros Hc He. unfold canonical_mantissa in Hc. apply Z.eqb_eq in Hc.
  unfold binary_round_aux, shr_fexp. cbn [Zdigits2 shr_record_of_loc].
  rewrite Hc, Z.sub_diag, shr_zero.
  cbn [shr_m loc_of_shr_record round_nearest_even Zdigits2 shr_record_of_loc].
  rewrite Hc, Z.sub_diag, shr_zero. cbn [shr_m].
  change (emax - prec) with 971. now apply Z.leb_le in He as ->.
Qed.

Lemma iter_xO_value m p : Zpos (Pos.iter xO m p) = Zpos m * 2 ^ Zpos p.
Proof.
  induction p as [|p IH] using Pos.peano_ind.
  - cbn [Pos.iter]. change (2 ^ 1) with 2. lia.
  - rewrite Pos.iter_succ, Pos2Z.inj_xO, IH, Pos2Z.inj_succ, Z.pow_succ_r by lia. lia.
Qed.

Lemma iter_xO_digits m p :
  Zpos (digits2_pos (Pos.iter xO m p)) = Zpos (digits2_pos m) + Zpos p.
Proof.
  induction p as [|p IH] using Pos.peano_ind.
  - cbn [Pos.iter digits2_pos]. lia.
  - rewrite Pos.iter_succ. cbn [digits2_pos]. rewrite !Pos2Z.inj_succ, IH. lia.
Qed.

(** The number of a positive integer below 2^53: the integer itself,
    its mantissa shifted to 53 digits. *)
Lemma binary_normalize_small n :
  Zpos n < 2 ^ 53 ->
  exists m e,
    binary_normalize prec emax (Zpos n) 0 false = S754_finite false m e /\
    valid_binary (S754_finite false m e) = true /\
    scaled m e = Zpos n * 2 ^ 1074 /\ e <= 0 /\
    Zpos m = Zpos n * 2 ^ (- e).
Proof.
  intros Hn. pose proof (digits2_pos_bounds n) as [Hlo Hhi].
  assert (Hd : Zpos (digits2_pos n) <= 53).
  { destruct (Z_le_gt_dec (Zpos (digits2_pos n)) 53) as [L|G]; [exact L|exfalso].
    assert (2 ^ 53 <= 2 ^ (Zpos (digits2_pos n) - 1)) by (apply Z.pow_le_mono_r; lia). lia. }
  cbn [binary_normalize]. unfold binary_round. rewrite fexp_eq.
  rewrite Z.max_l by lia. unfold shl_align.
  replace (Zpos (digits2_pos n) + 0 - 53 - 0) with (Zpos (digits2_pos n) - 53) by lia.
  destruct (Zpos (digits2_pos n) - 53) as [|p|p] eqn:E; [| lia |].
  - exists n, 0. assert (Hc : canonical_mantissa prec emax n 0 = true).
    { unfold canonical_mantissa. rewrite fexp_eq. apply Z.eqb_eq. lia. }
    rewrite binary_round_aux_canonical by (assumption || lia).
    split; [reflexivity|]. split; [|split; [|split]].
    + cbn [valid_binary]. unfold bounded. now rewrite Hc.
    + unfold scaled. reflexivity.
    + lia.
    + change (2 ^ (- 0)) with 1. lia.
  - exists (Pos.iter xO n p), (Zpos (digits2_pos n) + 0 - 53).
    assert (Hc : canonical_mantissa prec emax (Pos.iter xO n p)
                   (Zpos (digits2_pos n) + 0 - 53) = true).
    { unfold canonical_mantissa. rewrite fexp_eq, iter_xO_digits. apply Z.eqb_eq. lia. }
    rewrite binary_round_aux_canonical by (assumption || lia).
    split; [reflexivity|]. split; [|split; [|split]].
    + cbn [valid_binary]. unfold bounded. rewrite Hc. apply Z.leb_le.
      change (emax - prec) with 971. lia.
    + unfold scaled. rewrite iter_xO_value.
      replace (Zpos (digits2_pos n) + 0 - 53 + 1074) with (1074 - Zpos p) by lia.
      rewrite <- Z.mul_assoc, <- Z.pow_add_r by lia. f_equal. f_equal. lia.
    + lia.
    + rewrite iter_xO_value. f_equal. f_equal. lia.
Qed.

Lemma of_Z_spec z : of_Z z = SF2Prim (binary_normalize prec emax z 0 false).
Proof.
  unfold of_Z. destruct ((0 <=? z) && (z <? 0x4000000000000000)) eqn:E; [|reflexivity].
  apply andb_true_iff in E as [E1 E2]. apply Z.leb_le in E1. apply Z.ltb_lt in E2.
  rewrite <- (SF2Prim_Prim2SF (of_uint63 (Uint63.of_Z z))).
  rewrite of_uint63_spec, Uint63.of_Z_spec, Z.mod_small; [reflexivity|].
  change Uint63.wB with 0x8000000000000000. lia.
Qed.

Lemma Prim2SF_of_Z_pos n :
  Zpos n < 2 ^ 53 ->
  exists m e,
    Prim2SF (of_Z (Zpos n)) = S754_finite false m e /\
    scaled m e = Zpos n * 2 ^ 1074 /\ e <= 0 /\ Zpos m = Zpos n * 2 ^ (- e).
Proof.
  intros Hn. destruct (binary_normalize_small n Hn) as (m & e & Hb & Hv & Hs & He & Hm).
  exists m, e. rewrite of_Z_spec, Hb, Prim2SF_SF2Prim by exact Hv. auto.
Qed.

Lemma rank_of_Z n : 0 <= n < 2 ^ 53 -> rank (of_Z n) = Some (n * 2 ^ 1074).
Proof.
  intros Hn. destruct n as [|n|n]; [reflexivity| |lia].
  destruct (Prim2SF_of_Z_pos n) as (m & e & HP & Hs & _); [lia|].
  unfold rank. rewrite HP. cbn [SFrank cond_Zopp]. now rewrite Hs.
Qed.

(** Two numbers of the same non-zero rank are the same number. *)
Lemma SFrank_inj x y a :
  valid_binary x = true -> valid_binary y = true ->
  SFrank x = Some a -> SFrank y = Some a -> a <> 0 -> x = y.
Proof.
  intros Vx Vy Hx Hy Ha.
  pose proof (SFcompare_rank x y a a Vx Vy Hx Hy) as Hc.
  rewrite Z.compare_refl in Hc.
  destruct x as [sx|sx| |sx mx ex]; try discriminate;
  destruct y as [sy|sy| |sy my ey]; try discriminate;
  cbn [SFrank] in Hx, Hy; cbn [SFcompare] in Hc; try congruence.
  - destruct sx, sy; try discriminate; reflexivity.
  - destruct sx; discriminate.
  - destruct sy; discriminate.
  - destruct sx, sy; try discriminate.
    + destruct (Z.compare_spec ex ey); try discriminate. subst ey.
      rewrite Pos.compare_cont_spec in Hc.
      destruct (Pos.compare_spec mx my); try discriminate. now subst.
    + destruct (Z.compare_spec ex ey); try discriminate. subst ey.
      rewrite Pos.compare_cont_spec in Hc.
      destruct (Pos.compare_spec mx my); try discriminate. now subst.
Qed.

Lemma rank_inj x y a : rank x = Some a -> rank y = Some a -> a <> 0 -> x = y.
Proof.
  intros Hx Hy Ha. apply Prim2SF_inj.
  eapply SFrank_inj; eauto using Prim2SF_valid.
Qed.

Lemma pow2_pos k : 0 <= k -> 0 < 2 ^ k.
Proof. intros. apply Z.pow_pos_nonneg; lia. Qed.

Lemma big_bound : 2 ^ 53 * 2 ^ 1074 < big.
Proof. reflexivity. Qed.

Lemma rank_of_Z_small n : 0 <= n < 2 ^ 53 -> 0 <= n * 2 ^ 1074 < big.
Proof.
  intros Hn. pose proof big_bound. assert (0 < 2 ^ 1074) by reflexivity.
  set (K := 2 ^ 1074) in *. set (T := 2 ^ 53) in *.
  split; [apply Z.mul_nonneg_nonneg; lia|].
  eapply Z.lt_trans; [|eassumption]. apply Z.mul_lt_mono_pos_r; lia.
Qed.

(** The floor of a number between two small positive integers. *)
Lemma Math_floor_between y lo hi :
  1 <= lo <= hi -> hi + 1 < 2 ^ 53 ->
  (of_Z lo <=? y)%float = true -> (y <? of_Z (hi + 1))%float = true ->
  exists n, lo <= n <= hi /\ Math_floor y = of_Z n.
Proof.
  intros Hlo Hhi Hle Hlt.
  rewrite leb_rank, rank_of_Z in Hle by lia.
  rewrite ltb_rank, rank_of_Z in Hlt by lia.
  destruct (rank y) as [r|] eqn:Hr; [|discriminate].
  apply Z.leb_le in Hle. apply Z.ltb_lt in Hlt.
  pose proof (rank_of_Z_small (hi + 1) ltac:(lia)) as [_ Hrb].
  assert (HK : 0 < 2 ^ 1074) by reflexivity.
  assert (Hr0 : 0 < r).
  { eapply Z.lt_le_trans; [|exact Hle]. apply Z.mul_pos_pos; lia. }
  unfold rank in Hr. unfold Math_floor.
  destruct (Prim2SF y) as [s|s| |s m e] eqn:HP; cbn [SFrank] in Hr;
    try discriminate; injection Hr as Hr.
  - lia.
  - destruct s; cbn [cond_Zopp] in Hr; lia.
  - pose proof (Prim2SF_valid y) as Hv. rewrite HP in Hv.
    apply valid_finite in Hv as (He & Hm & Hn).
    pose proof (rank_finite_bounds m e He Hm) as Hsc.
    destruct s; cbn [cond_Zopp] in Hr; [lia|]. cbn [cond_Zopp].
    unfold scaled in Hr.
    assert (HP1 : 0 < 2 ^ (e + 1074)) by (apply pow2_pos; lia).
    destruct (Z.leb_spec 0 e) as [He0|He0].
    + (* an integer already: the exponent is 0 *)
      assert (HK2 : 2 ^ (e + 1074) = 2 ^ e * 2 ^ 1074) by (apply Z.pow_add_r; lia).
      rewrite HK2 in Hr. clear HP1 HK2 Hsc Hrb.
      assert (Hme : Zpos m * 2 ^ e < hi + 1).
      { apply (Z.mul_lt_mono_pos_r (2 ^ 1074)); [exact HK|]. rewrite <- Z.mul_assoc. lia. }
      assert (Hlm : lo <= Zpos m * 2 ^ e).
      { apply (Z.mul_le_mono_pos_r _ _ (2 ^ 1074)); [exact HK|]. rewrite <- Z.mul_assoc. lia. }
      assert (e = 0) as ->.
      { destruct (Z.eq_dec e 0) as [|Hne]; [assumption|exfalso].
        assert (2 ^ 52 <= Zpos m) by (apply Hn; lia).
        assert (2 ^ 1 <= 2 ^ e) by (apply Z.pow_le_mono_r; lia).
        change (2 ^ 1) with 2 in *.
        change (2 ^ 53) with (2 ^ 52 * 2) in Hhi.
        assert (0 < 2 ^ 52) by reflexivity.
        set (T := 2 ^ 52) in *. set (E := 2 ^ e) in *.
        assert (T * 2 <= Zpos m * E) by (apply Z.mul_le_mono_nonneg; lia). lia. }
      change (2 ^ 0) with 1 in *. rewrite Z.mul_1_r in Hme, Hlm.
      rewrite Z.mul_1_l in Hr.
      exists (Zpos m). split; [lia|].
      apply (rank_inj _ _ r); [unfold rank; rewrite HP; cbn [SFrank cond_Zopp]|..].
      * unfold scaled. change (0 + 1074) with 1074. now rewrite Hr.
      * rewrite rank_of_Z by lia. now rewrite Hr.
      * lia.
    + exists (Z.shiftl (Zpos m) e). split; [|reflexivity].
      rewrite Z.shiftl_div_pow2 by lia.
      assert (HP2 : 0 < 2 ^ (- e)) by (apply pow2_pos; lia).
      assert (HK2 : 2 ^ 1074 = 2 ^ (- e) * 2 ^ (e + 1074)).
      { rewrite <- Z.pow_add_r by lia. f_equal. lia. }
      rewrite HK2 in Hle, Hlt. clear HK HK2 Hsc Hrb.
      rewrite Z.mul_assoc in Hle, Hlt. rewrite <- Hr in Hle, Hlt.
      apply Z.mul_le_mono_pos_r in Hle; [|exact HP1].
      apply Z.mul_lt_mono_pos_r in Hlt; [|exact HP1].
      split.
      * apply Z.div_le_lower_bound; lia.
      * apply Z.lt_succ_r. apply Z.div_lt_upper_bound; lia.
Qed.

(** *** Rounding keeps the sign *)

Lemma shr_1_m mrs : 0 <= shr_m mrs -> shr_m (shr_1 mrs) = shr_m mrs / 2.
Proof.
  destruct mrs as [m r s]. cbn [shr_m]. intros Hm.
  destruct m as [|p|p]; [reflexivity| |lia].
  destruct p as [p|p|]; cbn [shr_1 shr_m].
  - rewrite Pos2Z.inj_xI. apply Z.div_unique with 1; lia.
  - rewrite Pos2Z.inj_xO. apply Z.div_unique with 0; lia.
  - reflexivity.
Qed.

Lemma pow2_xO p : 2 ^ Zpos p~0 = 2 ^ Zpos p * 2 ^ Zpos p.
Proof.
  replace (Zpos p~0) with (Zpos p + Zpos p) by lia. apply Z.pow_add_r; lia.
Qed.

Lemma pow2_xI p : 2 ^ Zpos p~1 = 2 * (2 ^ Zpos p * 2 ^ Zpos p).
Proof.
  replace (Zpos p~1) with (1 + (Zpos p + Zpos p)) by lia.
  rewrite Z.pow_add_r by lia. rewrite (Z.pow_add_r 2 (Zpos p)) by lia. reflexivity.
Qed.

Lemma iter_shr_1_m p mrs :
  0 <= shr_m mrs -> shr_m (SpecFloat.iter_pos shr_1 p mrs) = shr_m mrs / 2 ^ Zpos p.
Proof.
  revert mrs. induction p as [p IH|p IH|]; intros mrs Hm; cbn [SpecFloat.iter_pos].
  - assert (H1 : 0 <= shr_m (shr_1 mrs)).
    { rewrite shr_1_m by exact Hm. apply Z.div_pos; lia. }
    assert (H2 : 0 <= shr_m (SpecFloat.iter_pos shr_1 p (shr_1 mrs))).
    { rewrite IH by exact H1. apply Z.div_pos; [exact H1|]. apply Z.pow_pos_nonneg; lia. }
    rewrite IH by exact H2. rewrite IH by exact H1. rewrite shr_1_m by exact Hm.
    rewrite !Z.div_div by (try apply Z.pow_pos_nonneg; lia).
    f_equal. rewrite pow2_xI. lia.
  - assert (H2 : 0 <= shr_m (SpecFloat.iter_pos shr_1 p mrs)).
    { rewrite IH by exact Hm. apply Z.div_pos; [exact Hm|]. apply Z.pow_pos_nonneg; lia. }
    rewrite IH by exact H2. rewrite IH by exact Hm.
    rewrite !Z.div_div by (try apply Z.pow_pos_nonneg; lia).
    f_equal. rewrite pow2_xO. lia.
  - rewrite shr_1_m by exact Hm. reflexivity.
Qed.

Lemma shr_m_record m l : shr_m (shr_record_of_loc m l) = m.
Proof. destruct l as [|[]]; reflexivity. Qed.

(** The mantissa after [shr_fexp]. *)
Lemma shr_fexp_m m e l :
  0 <= m ->
  shr_m (fst (shr_fexp prec emax m e l)) =
  m / 2 ^ Z.max 0 (fexp prec emax (Zdigits2 m + e) - e).
Proof.
  intros Hm. unfold shr_fexp, shr.
  destruct (fexp prec emax (Zdigits2 m + e) - e) as [|p|p]; cbn [fst].
  - rewrite shr_m_record. change (2 ^ Z.max 0 0) with 1. now rewrite Z.div_1_r.
  - rewrite iter_shr_1_m by (rewrite shr_m_record; exact Hm).
    rewrite shr_m_record. reflexivity.
  - rewrite shr_m_record. change (2 ^ Z.max 0 (Z.neg p)) with 1. now rewrite Z.div_1_r.
Qed.

Lemma round_nearest_even_le m l : m <= round_nearest_even m l.
Proof.
  destruct l as [|[]]; cbn [round_nearest_even]; try lia.
  destruct (Z.even m); lia.
Qed.

(** Rounding a non-negative mantissa gives a number of the given sign,
    never NaN. *)
Lemma binary_round_aux_sign s m e l :
  0 <= m ->
  binary_round_aux prec emax s m e l = S754_zero s \/
  binary_round_aux prec emax s m e l = S754_infinity s \/
  exists m' e', binary_round_aux prec emax s m e l = S754_finite s m' e'.
Proof.
  intros Hm. unfold binary_round_aux.
  pose proof (shr_fexp_m m e l Hm) as H1.
  destruct (shr_fexp prec emax m e l) as [mrs' e'] eqn:E1. cbn [fst] in H1.
  assert (Hm' : 0 <= shr_m mrs').
  { rewrite H1. apply Z.div_pos; [exact Hm|]. apply Z.pow_pos_nonneg; lia. }
  pose proof (round_nearest_even_le (shr_m mrs') (loc_of_shr_record mrs')) as Hr.
  set (m2 := round_nearest_even (shr_m mrs') (loc_of_shr_record mrs')) in *.
  pose proof (shr_fexp_m m2 e' loc_Exact ltac:(lia)) as H2.
  destruct (shr_fexp prec emax m2 e' loc_Exact) as [mrs'' e''] eqn:E2. cbn [fst] in H2.
  assert (Hm'' : 0 <= shr_m mrs'').
  { rewrite H2. apply Z.div_pos; [lia|]. apply Z.pow_pos_nonneg; lia. }
  destruct (shr_m mrs'') as [|p|p]; [now left| |lia].
  destruct (e'' <=? emax - prec); [right; right; eauto|right; now left].
Qed.

Lemma shr_fexp_e m e l :
  e <= snd (shr_fexp prec emax m e l).
Proof.
  unfold shr_fexp, shr.
  destruct (fexp prec emax (Zdigits2 m + e) - e) as [|p|p]; cbn [snd]; lia.
Qed.

(** The shift of [shr_fexp] leaves at least one digit of a positive
    mantissa whose exponent is not below the least one. *)
Lemma shr_fexp_pos m e l :
  0 < m -> -1074 <= e -> 0 < shr_m (fst (shr_fexp prec emax m e l)).
Proof.
  intros Hm He. rewrite shr_fexp_m by lia.
  destruct m as [|p|p]; try lia. cbn [Zdigits2]. rewrite fexp_eq.
  pose proof (digits2_pos_bounds p) as [Hlo Hhi].
  set (d := Zpos (digits2_pos p)) in *.
  assert (Hd : 1 <= d) by (unfold d; lia).
  assert (Hn : Z.max 0 (Z.max (d + e - 53) (-1074) - e) <= d - 1) by lia.
  set (n := Z.max 0 (Z.max (d + e - 53) (-1074) - e)) in *.
  assert (Hn0 : 0 <= n) by (unfold n; lia).
  assert (H2n : 0 < 2 ^ n) by (apply Z.pow_pos_nonneg; lia).
  assert (2 ^ n <= 2 ^ (d - 1)) by (apply Z.pow_le_mono_r; lia).
  apply Z.div_str_pos. lia.
Qed.

(** Rounding a positive mantissa never gives zero when the exponent is
    not below the least one. *)
Lemma binary_round_aux_nonzero s m e l :
  0 < m -> -1074 <= e ->
  binary_round_aux prec emax s m e l = S754_infinity s \/
  exists m' e', binary_round_aux prec emax s m e l = S754_finite s m' e'.
Proof.
  intros Hm He. unfold binary_round_aux.
  pose proof (shr_fexp_pos m e l Hm He) as H1.
  pose proof (shr_fexp_e m e l) as He1.
  destruct (shr_fexp prec emax m e l) as [mrs' e'] eqn:E1. cbn [fst snd] in H1, He1.
  pose proof (round_nearest_even_le (shr_m mrs') (loc_of_shr_record mrs')) as Hr.
  set (m2 := round_nearest_even (shr_m mrs') (loc_of_shr_record mrs')) in *.
  pose proof (shr_fexp_pos m2 e' loc_Exact ltac:(lia) ltac:(lia)) as H2.
  destruct (shr_fexp prec emax m2 e' loc_Exact) as [mrs'' e''] eqn:E2. cbn [fst] in H2.
  destruct (shr_m mrs'') as [|p|p]; try lia.
  destruct (e'' <=? emax - prec); [right; eauto|now left].
Qed.

Lemma shl_align_value m e e' :
  e' <= e ->
  Zpos (fst (shl_align m e e')) = Zpos m * 2 ^ (e - e') /\ snd (shl_align m e e') = e'.
Proof.
  intros He. unfold shl_align.
  destruct (e' - e) as [|p|p] eqn:E; cbn [fst snd]; try lia.
  - replace (e - e') with 0 by lia. split; lia.
  - rewrite iter_xO_value. split; [|reflexivity]. f_equal. f_equal. lia.
Qed.

Lemma shl_align_exponent m e e' :
  Z.min e e' <= snd (shl_align m e e') <= e.
Proof.
  unfold shl_align. destruct (e' - e) as [|p|p] eqn:E; cbn [snd]; lia.
Qed.

(** A non-zero integer times a power of two, at an exponent not below
    the least one, is a non-zero number of its sign. *)
Lemma binary_normalize_sign d e :
  -1074 <= e ->
  match d with
  | 0 => binary_normalize prec emax d e false = S754_zero false
  | _ =>
      binary_normalize prec emax d e false = S754_infinity (d <? 0) \/
      exists m' e', binary_normalize prec emax d e false = S754_finite (d <? 0) m' e'
  end.
Proof.
  intros He. destruct d as [|p|p]; [reflexivity| |]; cbn [binary_normalize];
    unfold binary_round;
    pose proof (shl_align_exponent p e (fexp prec emax (Zpos (digits2_pos p) + e))) as Hs;
    rewrite fexp_eq in *;
    destruct (shl_align p e (Z.max (Zpos (digits2_pos p) + e - 53) (-1074))) as [mz ez];
    cbn [snd] in Hs;
    apply binary_round_aux_nonzero; lia.
Qed.

(** *** The sign of a difference *)

Lemma cond_Zopp_mul s a b : cond_Zopp s a * b = cond_Zopp s (a * b).
Proof. destruct s; cbn [cond_Zopp]; lia. Qed.

Lemma scaled_aligned m e e' :
  -1074 <= e' <= e ->
  scaled m e = Zpos (fst (shl_align m e e')) * 2 ^ (e' + 1074).
Proof.
  intros He. destruct (shl_align_value m e e') as [Hv _]; [lia|].
  rewrite Hv. unfold scaled. rewrite <- Z.mul_assoc, <- Z.pow_add_r by lia.
  f_equal. f_equal. lia.
Qed.

Lemma scaled_pos m e : -1074 <= e -> 0 < scaled m e.
Proof.
  intros He. unfold scaled. apply Z.mul_pos_pos; [lia|]. apply Z.pow_pos_nonneg; lia.
Qed.

Lemma sgn_cond_Zopp s v : 0 < v -> Z.sgn (cond_Zopp s v) = if s then -1 else 1.
Proof. intros Hv. destruct s; cbn [cond_Zopp]; lia. Qed.

Lemma SFsub_sign x y a b :
  valid_binary x = true -> valid_binary y = true ->
  valid_binary (SFsub prec emax x y) = true ->
  SFrank x = Some a -> SFrank y = Some b ->
  - big < a < big -> - big < b < big ->
  exists r, SFrank (SFsub prec emax x y) = Some r /\ Z.sgn r = Z.sgn (a - b).
Proof.
  intros Vx Vy Vr Hx Hy Ha Hb.
  destruct x as [sx|sx| |sx mx ex]; try discriminate;
  destruct y as [sy|sy| |sy my ey]; try discriminate;
  cbn [SFrank] in Hx, Hy; injection Hx as <-; injection Hy as <-;
  try (destruct sx; cbn [cond_Zopp] in Ha; lia);
  try (destruct sy; cbn [cond_Zopp] in Hb; lia).
  - exists 0. split; [|reflexivity]. cbn [SFsub]. now destruct sx, sy.
  - cbn [SFsub SFrank]. eexists. split; [reflexivity|].
    apply valid_finite in Vy as (Hey & _). pose proof (scaled_pos my ey ltac:(lia)).
    destruct sy; cbn [negb cond_Zopp]; lia.
  - cbn [SFsub SFrank]. eexists. split; [reflexivity|]. f_equal. lia.
  - apply valid_finite in Vx as (Hex & _). apply valid_finite in Vy as (Hey & _).
    cbn [SFsub] in *.
    set (ez := Z.min ex ey) in *.
    set (X := cond_Zopp sx (Zpos (fst (shl_align mx ex ez)))) in *.
    set (Y := cond_Zopp sy (Zpos (fst (shl_align my ey ez)))) in *.
    assert (HP : 0 < 2 ^ (ez + 1074)) by (apply Z.pow_pos_nonneg; lia).
    assert (HX : cond_Zopp sx (scaled mx ex) = X * 2 ^ (ez + 1074)).
    { unfold X. rewrite cond_Zopp_mul. f_equal. apply scaled_aligned. lia. }
    assert (HY : cond_Zopp sy (scaled my ey) = Y * 2 ^ (ez + 1074)).
    { unfold Y. rewrite cond_Zopp_mul. f_equal. apply scaled_aligned. lia. }
    rewrite HX, HY, <- Z.mul_sub_distr_r, Z.sgn_mul, (Z.sgn_pos (2 ^ _)), Z.mul_1_r by exact HP.
    pose proof (binary_normalize_sign (X - Y) ez ltac:(lia)) as Hn.
    destruct (X - Y) as [|p|p] eqn:ED.
    + rewrite Hn. now exists 0.
    + destruct Hn as [Hn|(m' & e' & Hn)]; rewrite Hn in *; cbn [SFrank Z.ltb Z.compare].
      * exists big. split; [reflexivity|]. reflexivity.
      * eexists. split; [reflexivity|]. apply valid_finite in Vr as (He' & _).
        cbn [cond_Zopp]. apply Z.sgn_pos, scaled_pos. lia.
    + destruct Hn as [Hn|(m' & e' & Hn)]; rewrite Hn in *; cbn [SFrank Z.ltb Z.compare].
      * exists (- big). split; [reflexivity|]. reflexivity.
      * eexists. split; [reflexivity|]. apply valid_finite in Vr as (He' & _).
        cbn [cond_Zopp]. apply Z.sgn_neg. pose proof (scaled_pos m' e' ltac:(lia)). lia.
Qed.

Lemma sub_sign x y a b :
  finite_rank x a -> finite_rank y b ->
  exists r, rank (x - y)%float = Some r /\ Z.sgn r = Z.sgn (a - b).
Proof.
  intros [Hx Ha] [Hy Hb]. unfold rank. rewrite sub_spec.
  apply SFsub_sign; try assumption; try apply Prim2SF_valid.
  unfold SF64sub in *. rewrite <- sub_spec. apply Prim2SF_valid.
Qed.

(** *** The sign of a quotient *)

Lemma scaled_nonneg m e : 0 <= scaled m e.
Proof. unfold scaled. apply Z.mul_nonneg_nonneg; [lia|]. apply Z.pow_nonneg. lia. Qed.

Lemma SFdiv_core_nonneg mx ex my ey :
  0 <= fst (fst (SFdiv_core_binary prec emax (Zpos mx) ex (Zpos my) ey)).
Proof.
  unfold SFdiv_core_binary.
  set (s := ex - ey - _).
  set (m' := match s with Z.pos _ => Z.shiftl (Zpos mx) s | 0 => Zpos mx | Z.neg _ => 0 end).
  assert (Hm' : 0 <= m').
  { unfold m'. destruct s; try lia. apply Z.shiftl_nonneg. lia. }
  pose proof (Z.div_pos m' (Zpos my) Hm' ltac:(lia)) as Hq.
  unfold Z.div in Hq. destruct (Z.div_eucl m' (Zpos my)) as [q r]. exact Hq.
Qed.

Lemma SFdiv_nonneg x y a b :
  SFrank x = Some a -> SFrank y = Some b -> 0 <= a -> 0 < b < big ->
  valid_binary x = true -> valid_binary y = true ->
  exists r, SFrank (SFdiv prec emax x y) = Some r /\ 0 <= r.
Proof.
  intros Hx Hy Ha Hb Vx Vy.
  destruct y as [sy|sy| |sy my ey]; try discriminate;
    cbn [SFrank] in Hy; injection Hy as <-; try lia.
  { destruct sy; cbn [cond_Zopp] in Hb; lia. }
  apply valid_finite in Vy as (Hey & _). pose proof (scaled_pos my ey ltac:(lia)).
  destruct sy; cbn [cond_Zopp] in Hb; [lia|].
  destruct x as [sx|sx| |sx mx ex]; try discriminate;
    cbn [SFrank] in Hx; injection Hx as <-.
  - exists 0. split; [reflexivity|lia].
  - assert (0 < big) by reflexivity.
    destruct sx; cbn [cond_Zopp] in Ha; [lia|].
    exists big. split; [reflexivity|lia].
  - apply valid_finite in Vx as (Hex & _). pose proof (scaled_pos mx ex ltac:(lia)).
    destruct sx; cbn [cond_Zopp] in Ha; [lia|].
    cbn [SFdiv xorb].
    pose proof (SFdiv_core_nonneg mx ex my ey) as Hq.
    destruct (SFdiv_core_binary prec emax (Zpos mx) ex (Zpos my) ey) as [[mz ez] lz].
    cbn [fst] in Hq.
    destruct (binary_round_aux_sign false mz ez lz Hq) as [E|[E|(m' & e' & E)]];
      rewrite E; cbn [SFrank cond_Zopp].
    + exists 0. split; [reflexivity|lia].
    + exists big. split; [reflexivity|]. assert (0 < big) by reflexivity. lia.
    + eexists. split; [reflexivity|]. apply scaled_nonneg.
Qed.

Lemma div_nonneg x y a b :
  rank x = Some a -> rank y = Some b -> 0 <= a -> 0 < b < big ->
  exists r, rank (x / y)%float = Some r /\ 0 <= r.
Proof.
  intros Hx Hy Ha Hb. unfold rank. rewrite div_spec.
  eapply SFdiv_nonneg; eauto using Prim2SF_valid.
Qed.

(** *** Zeros and NaN *)

Lemma rank_zero_inv x : rank x = Some 0 -> exists s, Prim2SF x = S754_zero s.
Proof.
  unfold rank. pose proof (Prim2SF_valid x) as Hv.
  destruct (Prim2SF x) as [s|s| |s m e]; cbn [SFrank]; intros H; try discriminate.
  - now exists s.
  - injection H as H. assert (0 < big) by reflexivity. destruct s; cbn [cond_Zopp] in H; lia.
  - injection H as H. apply valid_finite in Hv as (He & _).
    pose proof (scaled_pos m e ltac:(lia)). destruct s; cbn [cond_Zopp] in H; lia.
Qed.

Lemma rank_nan_inv x : rank x = None -> x = nan.
Proof.
  unfold rank. intros H. apply Prim2SF_inj.
  destruct (Prim2SF x); try discriminate. reflexivity.
Qed.

Lemma rank_nan : rank nan = None.
Proof. reflexivity. Qed.

Lemma zero_div_zero x y : rank x = Some 0 -> rank y = Some 0 -> (x / y)%float = nan.
Proof.
  intros Hx Hy. apply rank_nan_inv. unfold rank. rewrite div_spec.
  apply rank_zero_inv in Hx as [sx ->]. apply rank_zero_inv in Hy as [sy ->]. reflexivity.
Qed.

Lemma is_nan_rank x : is_nan x = match rank x with Some _ => false | None => true end.
Proof.
  unfold is_nan. rewrite eqb_rank. destruct (rank x) as [a|]; [|reflexivity].
  now rewrite Z.eqb_refl.
Qed.

(** ** The validator accepts only when no check fired *)

Lemma report_empty c k v (e : gmap string Message) :
  report c k v e = ∅ -> c = false /\ e = ∅.
Proof.
  destruct c; simpl; intros H; [|tauto].
  exfalso. exact (insert_non_empty e k v H).
Qed.

Lemma checkFarmType_empty ft idx (e : gmap string Message) :
  checkFarmType ft idx e = ∅ -> e = ∅.
Proof.
  unfold checkFarmType. intros H.
  repeat (apply report_empty in H; destruct H as [_ H]). exact H.
Qed.

Lemma forEachFarmType_empty fts idx (e : gmap string Message) :
  forEachFarmType fts idx e = ∅ -> e = ∅.
Proof.
  revert idx e. induction fts as [|ft fts IH]; simpl; intros idx e H; [exact H|].
  apply IH in H. eapply checkFarmType_empty, H.
Qed.

Lemma validateScenario_empty scenario :
  validateScenario scenario = true -> newErrors scenario = ∅.
Proof.
  unfold validateScenario. intros H. apply bool_decide_eq_true in H.
  now apply map_size_empty_iff.
Qed.


Lemma valid_farms scenario :
  validateScenario scenario = true ->
  0 < minNewFarms scenario <= maxNewFarms scenario.
Proof.
  intros H. apply validateScenario_empty in H. unfold newErrors in H.
  apply forEachFarmType_empty in H.
  do 2 (apply report_empty in H as [_ H]).
  apply report_empty in H as [Hle H].
  apply report_empty in H as [_ H].
  apply report_empty in H as [Hmin _]. lia.
Qed.

(** ** The trial loop *)

Lemma farmLoop_multipliers j scenario su partial state :
  farmLoop j scenario su partial state =
  (fold_left (fun acc multiplier => (acc + multiplier * avgPriceLastYear su)%float)
     (fst (multipliers j scenario su state)) partial,
   snd (multipliers j scenario su state)).
Proof.
  revert partial state.
  induction j as [|j IH]; intros partial state; cbn [farmLoop multipliers]; [reflexivity|].
  destruct (drawMultiplier scenario su state) as [m st1].
  rewrite IH. destruct (multipliers j scenario su st1) as [rest st2]. reflexivity.
Qed.

Lemma multipliers_length j scenario su state :
  length (fst (multipliers j scenario su state)) = j.
Proof.
  revert state. induction j as [|j IH]; intros state; cbn [multipliers]; [reflexivity|].
  destruct (drawMultiplier scenario su state) as [m st1].
  specialize (IH st1). destruct (multipliers j scenario su st1) as [rest st2].
  cbn [fst length] in *. now rewrite IH.
Qed.

Lemma trialLoop_length i scenario su savings state :
  length (fst (trialLoop i scenario su savings state)) = (length savings + i)%nat.
Proof.
  revert savings state.
  induction i as [|i IH]; intros savings state; cbn [trialLoop fst]; [lia|].
  destruct (trial scenario su state) as [s st1].
  rewrite IH, length_app. cbn [length]. lia.
Qed.

Lemma trialLoop_prefix i scenario su savings state k :
  (k < length savings)%nat ->
  nth_error (fst (trialLoop i scenario su savings state)) k = nth_error savings k.
Proof.
  revert savings state.
  induction i as [|i IH]; intros savings state Hk; cbn [trialLoop fst]; [reflexivity|].
  destruct (trial scenario su state) as [s st1].
  rewrite IH by (rewrite length_app; cbn [length]; lia).
  now apply nth_error_app1.
Qed.

Lemma trialLoop_nth i scenario su savings state k :
  (k < i)%nat ->
  nth_error (fst (trialLoop i scenario su savings state)) (length savings + k) =
  Some (fst (trial scenario su (stateAt k scenario su state))).
Proof.
  revert savings state k. induction i as [|i IH]; intros savings state k Hk; [lia|].
  cbn [trialLoop]. destruct (trial scenario su state) as [s st1] eqn:Ht.
  destruct k as [|k].
  - rewrite trialLoop_prefix by (rewrite length_app; cbn [length]; lia).
    rewrite Nat.add_0_r, nth_error_app2, Nat.sub_diag by lia.
    cbn [nth_error stateAt]. now rewrite Ht.
  - specialize (IH (savings ++ [s]) st1 k ltac:(lia)).
    rewrite length_app in IH. cbn [length] in IH.
    replace (length savings + S k)%nat with (length savings + 1 + k)%nat by lia.
    rewrite IH. cbn [stateAt]. now rewrite Ht.
Qed.

Lemma createRNG_42 mathRandom : createRNG (Some 42%float) mathRandom = 42%float.
Proof. reflexivity. Qed.




(** C2. Two runs on the same scenario give identical results: the
    generator is created afresh with the seed 42 in each run, so nothing
    but the scenario (in particular no value of [Math.random]) reaches
    the output. *)
Theorem simulation_deterministic (mathRandom1 mathRandom2 : float) (scenario : Scenario) :
  savings (runFarmTypeSimulation mathRandom1 scenario) =
  savings (runFarmTypeSimulation mathRandom2 scenario) /\
  runFarmTypeSimulation mathRandom1 scenario =
  runFarmTypeSimulation mathRandom2 scenario.
Proof.
  unfold runFarmTypeSimulation, simulateSavings.
  rewrite !createRNG_42. split; reflexivity.
Qed.

(** ** Every state of the run is on the orbit *)

Lemma advance_of_Z z : advance (of_Z z) = of_Z (advanceZ z).
Proof. reflexivity. Qed.


Lemma orbitFrom_In n a z :
  In z (orbitFrom n a) <-> exists k, (k < n)%nat /\ z = Nat.iter k advanceZ a.
Proof.
  revert a. induction n as [|n IH]; intros a; cbn [orbitFrom].
  - split; [intros []|intros (k & Hk & _); lia].
  - cbn [In]. rewrite IH. split.
    + intros [<-|(k & Hk & ->)].
      * exists O. split; [lia|reflexivity].
      * exists (S k). split; [lia|]. symmetry. apply Nat.iter_succ_r.
    + intros (k & Hk & ->). destruct k as [|k]; [now left|right].
      exists k. split; [lia|]. apply Nat.iter_succ_r.
Qed.

Lemma orbitFrom_nth n a k :
  (k < n)%nat -> nth k (orbitFrom n a) 0 = Nat.iter k advanceZ a.
Proof.
  revert a k. induction n as [|n IH]; intros a k Hk; [lia|].
  destruct k as [|k]; [reflexivity|].
  cbn [orbitFrom nth]. rewrite IH by lia. symmetry. apply Nat.iter_succ_r.
Qed.

Lemma orbit_wraps : advanceZ (nth (Z.to_nat 15824) orbit 0) = nth (Z.to_nat 5359) orbit 0.
Proof.
  apply Z.eqb_eq.
  change ((let l := orbit in
           advanceZ (nth (Z.to_nat 15824) l 0) =? nth (Z.to_nat 5359) l 0) = true).
  vm_compute. reflexivity.
Qed.

Lemma orbit_closed k : In (Nat.iter k advanceZ 42) orbit.
Proof.
  unfold orbit. induction k as [|k IH].
  - apply orbitFrom_In. exists O. split; [lia|reflexivity].
  - apply orbitFrom_In in IH as (j & Hj & Heq).
    change (Nat.iter (S k) advanceZ 42) with (advanceZ (Nat.iter k advanceZ 42)).
    rewrite Heq. apply orbitFrom_In.
    destruct (Nat.eq_dec j (Z.to_nat 15824)) as [E|NE].
    + exists (Z.to_nat 5359). split; [lia|]. subst j.
      rewrite <- !(orbitFrom_nth (Z.to_nat 15825)) by lia.
      apply orbit_wraps.
    + exists (S j). split; [lia|reflexivity].
Qed.

Lemma iter_advance k : Nat.iter k advance 42%float = of_Z (Nat.iter k advanceZ 42).
Proof.
  induction k as [|k IH]; [reflexivity|].
  change (Nat.iter (S k) advance 42%float) with (advance (Nat.iter k advance 42%float)).
  rewrite IH. apply advance_of_Z.
Qed.

(** ** The range of [integers] *)

Lemma zrange_In lo n z : In z (zrange lo n) <-> lo <= z < lo + Z.of_nat n.
Proof.
  unfold zrange. rewrite in_map_iff. split.
  - intros (i & <- & Hi). apply in_seq in Hi. lia.
  - intros Hz. exists (Z.to_nat (z - lo)). split; [lia|]. apply in_seq. lia.
Qed.

Lemma bounds_In bound lo hi : 1 <= lo <= hi -> hi <= bound -> In (lo, hi) (bounds bound).
Proof.
  intros Hlo Hhi. unfold bounds. apply in_flat_map. exists hi. split.
  - apply zrange_In. lia.
  - apply in_map_iff. exists lo. split; [reflexivity|]. apply zrange_In. lia.
Qed.

Lemma draws_bounded_64 : drawsBoundedOn (map of_Z orbit) (numbersUpTo 64) = true.
Proof. vm_compute. reflexivity. Qed.

(** Every draw of the run is made in a reachable state. *)
Lemma reachable_advance state : reachable state -> reachable (advance state).
Proof. intros [k ->]. now exists (S k). Qed.

Lemma reachable_seed : reachable 42%float.
Proof. now exists O. Qed.

Lemma drawMultiplier_state scenario su state :
  snd (drawMultiplier scenario su state) = advance (advance state).
Proof. reflexivity. Qed.

Lemma farmLoop_reachable j scenario su partial state :
  reachable state -> reachable (snd (farmLoop j scenario su partial state)).
Proof.
  revert partial state. induction j as [|j IH]; intros partial state Hr; [exact Hr|].
  cbn [farmLoop]. pose proof (drawMultiplier_state scenario su state) as Hs.
  destruct (drawMultiplier scenario su state) as [m st1]. cbn [snd] in Hs. subst st1.
  apply IH. now do 2 apply reachable_advance.
Qed.

Lemma trial_reachable scenario su state :
  reachable state -> reachable (snd (trial scenario su state)).
Proof.
  intros Hr. unfold trial, integers.
  pose proof (farmLoop_reachable
    (iterations (Math_floor (of_Z (minNewFarms scenario) +
       (of_Z (maxNewFarms scenario) - of_Z (minNewFarms scenario) + 1)
       * advance state / 2147483647)%float))
    scenario su 0%float (advance state) (reachable_advance _ Hr)) as H.
  destruct (farmLoop _ _ _ _ _) as [p st2]. exact H.
Qed.

Lemma stateAt_reachable i scenario su state :
  reachable state -> reachable (stateAt i scenario su state).
Proof.
  revert state. induction i as [|i IH]; intros state Hr; [exact Hr|].
  cbn [stateAt]. apply IH. now apply trial_reachable.
Qed.

Lemma reachable_orbit state :
  reachable state -> exists z, In z orbit /\ state = of_Z z.
Proof.
  intros [k ->]. exists (Nat.iter k advanceZ 42). split.
  - apply orbit_closed.
  - apply iter_advance.
Qed.

Lemma forallb_In {A} (f : A -> bool) (l : list A) x :
  forallb f l = true -> In x l -> f x = true.
Proof. intros H. now apply forallb_forall. Qed.

Lemma drawsBoundedOn_In states numbers state min max max1 :
  drawsBoundedOn states numbers = true ->
  In state states -> In (min, max, max1) numbers ->
  drawBounded min max max1 state = true.
Proof.
  unfold drawsBoundedOn. intros H Hs Hn.
  apply (forallb_In _ _ _ H) in Hs.
  apply (forallb_In _ _ _ Hs) in Hn. exact Hn.
Qed.

Lemma numbersUpTo_In bound lo hi :
  1 <= lo <= hi -> hi <= bound ->
  In (of_Z lo, of_Z hi, of_Z (hi + 1)) (numbersUpTo bound).
Proof.
  intros Hlo Hhi. unfold numbersUpTo. apply in_map_iff.
  exists (lo, hi). split; [reflexivity|]. now apply bounds_In.
Qed.

Lemma integers_bounded lo hi state :
  1 <= lo <= hi -> hi <= 64 -> reachable state ->
  exists n, lo <= n <= hi /\ fst (integers (of_Z lo) (of_Z hi) state) = of_Z n.
Proof.
  intros Hlo Hhi Hr.
  destruct (reachable_orbit _ (reachable_advance _ Hr)) as (z & Hz & Hs).
  pose proof (drawsBoundedOn_In _ _ (of_Z z) _ _ _ draws_bounded_64
                (in_map of_Z _ _ Hz) (numbersUpTo_In 64 lo hi Hlo Hhi)) as H.
  unfold drawBounded in H. apply andb_true_iff in H as [H1 H2].
  unfold integers. cbn [fst]. rewrite Hs.
  apply Math_floor_between; [lia| |exact H1|exact H2].
  change (2 ^ 53) with 9007199254740992. lia.
Qed.




(** ** The validator reports every failed check *)

Lemma report_fired k v (e : gmap string Message) :
  is_Some (report true k v e !! k).
Proof. cbn [report]. rewrite lookup_insert_eq. eauto. Qed.

Lemma report_keeps c k' v (e : gmap string Message) k :
  is_Some (e !! k) -> is_Some (report c k' v e !! k).
Proof.
  intros H. destruct c; cbn [report]; [|exact H].
  apply lookup_insert_is_Some'. now right.
Qed.

Lemma report_origin c k' v (e : gmap string Message) k :
  is_Some (report c k' v e !! k) -> (c = true /\ k = k') \/ is_Some (e !! k).
Proof.
  destruct c; cbn [report]; [|now right].
  intros H. apply lookup_insert_is_Some' in H as [->|H]; [now left|now right].
Qed.

Lemma checkFarmType_keeps ft idx (e : gmap string Message) k :
  is_Some (e !! k) -> is_Some (checkFarmType ft idx e !! k).
Proof. intros H. unfold checkFarmType. now do 4 apply report_keeps. Qed.

Lemma forEachFarmType_keeps fts idx (e : gmap string Message) k :
  is_Some (e !! k) -> is_Some (forEachFarmType fts idx e !! k).
Proof.
  revert idx e. induction fts as [|ft fts IH]; intros idx e H; [exact H|].
  cbn [forEachFarmType]. now apply IH, checkFarmType_keeps.
Qed.

Lemma checkFarmType_fired ft idx (e : gmap string Message) k :
  In (true, k) (farmTypeChecks ft idx) -> is_Some (checkFarmType ft idx e !! k).
Proof.
  unfold farmTypeChecks, checkFarmType. cbn [In].
  intros [H|[H|[H|[H|[]]]]]; injection H as Hc Hk; rewrite <- Hk; clear Hk.
  - do 3 apply report_keeps. rewrite Hc. apply report_fired.
  - do 2 apply report_keeps. rewrite Hc. apply report_fired.
  - apply report_keeps. rewrite Hc. apply report_fired.
  - rewrite Hc. apply report_fired.
Qed.

Lemma checkFarmType_origin ft idx (e : gmap string Message) k :
  is_Some (checkFarmType ft idx e !! k) ->
  In (true, k) (farmTypeChecks ft idx) \/ is_Some (e !! k).
Proof.
  unfold farmTypeChecks, checkFarmType. cbn [In]. intros H.
  apply report_origin in H as [[Hc ->]|H]; [rewrite Hc; tauto|].
  apply report_origin in H as [[Hc ->]|H]; [rewrite Hc; tauto|].
  apply report_origin in H as [[Hc ->]|H]; [rewrite Hc; tauto|].
  apply report_origin in H as [[Hc ->]|H]; [rewrite Hc; tauto|].
  now right.
Qed.

Lemma forEachFarmType_fired fts idx (e : gmap string Message) p ft k :
  nth_error fts p = Some ft -> In (true, k) (farmTypeChecks ft (idx + p)) ->
  is_Some (forEachFarmType fts idx e !! k).
Proof.
  revert idx e p. induction fts as [|ft' fts IH]; intros idx e p Hnth Hin.
  - destruct p; discriminate.
  - cbn [forEachFarmType]. destruct p as [|p].
    + injection Hnth as ->. rewrite Nat.add_0_r in Hin.
      apply forEachFarmType_keeps. now apply checkFarmType_fired.
    + apply (IH (S idx) _ p); [exact Hnth|].
      now replace (S idx + p)%nat with (idx + S p)%nat by lia.
Qed.

Lemma forEachFarmType_origin fts idx (e : gmap string Message) k :
  is_Some (forEachFarmType fts idx e !! k) ->
  (exists p ft, nth_error fts p = Some ft /\ In (true, k) (farmTypeChecks ft (idx + p))) \/
  is_Some (e !! k).
Proof.
  revert idx e. induction fts as [|ft fts IH]; intros idx e H; [now right|].
  cbn [forEachFarmType] in H. apply IH in H as [(p & ft' & Hnth & Hin)|H].
  - left. exists (S p), ft'. split; [exact Hnth|].
    now replace (idx + S p)%nat with (S idx + p)%nat by lia.
  - apply checkFarmType_origin in H as [H|H]; [|now right].
    left. exists O, ft. split; [reflexivity|]. now rewrite Nat.add_0_r.
Qed.

Lemma failed_farmType scenario idx violates :
  farmTypeFails scenario idx violates = true ->
  exists ft, nth_error (farmTypes scenario) idx = Some ft /\ violates ft = true.
Proof.
  unfold farmTypeFails. destruct (nth_error _ idx) as [ft|]; [|discriminate].
  intros H. now exists ft.
Qed.

Lemma every_failed_check_reported scenario c :
  failed scenario c = true -> is_Some (newErrors scenario !! field c).
Proof.
  intros H. unfold newErrors.
  destruct c; cbn [failed field] in *;
    try (apply failed_farmType in H as (ft & Hnth & Hv);
         eapply (forEachFarmType_fired _ O _ _ ft); [exact Hnth|];
         unfold farmTypeChecks; rewrite Nat.add_0_l; cbn [In]; rewrite Hv; tauto);
    apply forEachFarmType_keeps; rewrite ?H.
  - do 6 apply report_keeps. apply report_fired.
  - do 5 apply report_keeps. apply report_fired.
  - do 4 apply report_keeps. apply report_fired.
  - do 3 apply report_keeps. apply report_fired.
  - do 2 apply report_keeps. apply report_fired.
  - apply report_keeps. apply report_fired.
  - apply report_fired.
Qed.

Lemma every_report_is_a_failed_check scenario k :
  is_Some (newErrors scenario !! k) ->
  exists c, failed scenario c = true /\ field c = k.
Proof.
  unfold newErrors. intros H.
  apply forEachFarmType_origin in H as [(p & ft & Hnth & Hin)|H].
  - unfold farmTypeChecks in Hin. cbn [In] in Hin. rewrite Nat.add_0_l in Hin.
    destruct Hin as [Hin|[Hin|[Hin|[Hin|[]]]]]; injection Hin as Hc Hk.
    + exists (ShareInRange p). cbn [failed field]. unfold farmTypeFails.
      now rewrite Hnth.
    + exists (MinDiscountInRange p). cbn [failed field]. unfold farmTypeFails.
      now rewrite Hnth.
    + exists (MaxDiscountInRange p). cbn [failed field]. unfold farmTypeFails.
      now rewrite Hnth.
    + exists (DiscountOrder p). cbn [failed field]. unfold farmTypeFails.
      now rewrite Hnth.
  - apply report_origin in H as [[Hc ->]|H]; [now exists SharesSumTo100|].
    apply report_origin in H as [[Hc ->]|H]; [now exists TrialsInRange|].
    apply report_origin in H as [[Hc ->]|H]; [now exists MinAtMostMax|].
    apply report_origin in H as [[Hc ->]|H]; [now exists MaxNewFarmsPositive|].
    apply report_origin in H as [[Hc ->]|H]; [now exists MinNewFarmsPositive|].
    apply report_origin in H as [[Hc ->]|H]; [now exists LastYearFarmsPositive|].
    apply report_origin in H as [[Hc ->]|H]; [now exists LastYearCostPositive|].
    rewrite lookup_empty in H. now destruct H.
Qed.




(** ** Floors and indices *)

Lemma forallFrom_spec n z f k :
  forallFrom n z f = true -> z <= k < z + Z.of_nat n -> f k = true.
Proof.
  revert z. induction n as [|n IH]; intros z H Hk; [lia|].
  cbn [forallFrom] in H. destruct (f z) eqn:Hz; [|discriminate].
  destruct (Z.eq_dec k z) as [->|Hne]; [exact Hz|].
  apply (IH (z + 1)); [exact H|lia].
Qed.

Lemma Math_floor_below_one y :
  (0 <? y)%float = true -> (y <? 1)%float = true -> Math_floor y = of_Z 0.
Proof.
  intros H0 H1. rewrite ltb_rank in H0, H1.
  change (rank 0%float) with (Some 0) in H0.
  change (rank 1%float) with (Some (2 ^ 1074)) in H1.
  destruct (rank y) as [r|] eqn:Hr; [|discriminate].
  apply Z.ltb_lt in H0, H1. unfold rank in Hr. unfold Math_floor.
  pose proof (Prim2SF_valid y) as Hv.
  destruct (Prim2SF y) as [s|s| |s m e]; cbn [SFrank] in Hr; try discriminate;
    injection Hr as Hr.
  - lia.
  - assert (2 ^ 1074 < big) by reflexivity. destruct s; cbn [cond_Zopp] in Hr; lia.
  - apply valid_finite in Hv as (He & Hm & Hn).
    pose proof (scaled_pos m e ltac:(lia)) as Hs.
    destruct s; cbn [cond_Zopp] in Hr; [lia|]. cbn [cond_Zopp]. subst r.
    unfold scaled in H1.
    assert (HP : 0 < 2 ^ (e + 1074)) by (apply pow2_pos; lia).
    destruct (Z.leb_spec 0 e) as [He0|He0].
    + exfalso. assert (2 ^ 1074 <= 2 ^ (e + 1074)) by (apply Z.pow_le_mono_r; lia).
      assert (2 ^ (e + 1074) <= Zpos m * 2 ^ (e + 1074)).
      { rewrite <- (Z.mul_1_l (2 ^ (e + 1074))) at 1. apply Z.mul_le_mono_nonneg_r; lia. }
      lia.
    + f_equal. rewrite Z.shiftl_div_pow2 by lia.
      apply Z.div_small. split; [lia|].
      assert (HK2 : 2 ^ 1074 = 2 ^ (- e) * 2 ^ (e + 1074)).
      { rewrite <- Z.pow_add_r by lia. f_equal. lia. }
      rewrite HK2 in H1. now apply Z.mul_lt_mono_pos_r in H1.
Qed.

Lemma Math_floor_floorIs y k :
  0 <= k -> k + 1 < 2 ^ 53 -> floorIs y k = true -> Math_floor y = of_Z k.
Proof.
  intros Hk Hb. unfold floorIs. destruct (Z.eqb_spec k 0) as [->|Hne]; intros H;
    apply andb_true_iff in H as [H1 H2].
  - now apply Math_floor_below_one.
  - destruct (Math_floor_between y k k ltac:(lia) Hb H1 H2) as (n & Hn & ->).
    f_equal. lia.
Qed.

(** The mantissa and exponent of a small non-negative integer. *)
Lemma mantissa_exponent_of_Z n :
  0 <= n < 2 ^ 53 ->
  exists m e, mantissa_exponent (of_Z n) = Some (m, e) /\
              0 <= m /\ Z.shiftl m e = n /\ Z.shiftl n (- e) = m.
Proof.
  intros Hn. destruct n as [|n|n]; [| |lia].
  - exists 0, 0. repeat split; reflexivity || lia.
  - destruct (Prim2SF_of_Z_pos n) as (m & e & HP & _ & He & Hm); [lia|].
    exists (Zpos m), e. unfold mantissa_exponent. rewrite HP. cbn [cond_Zopp].
    split; [reflexivity|]. split; [lia|].
    assert (0 < 2 ^ (- e)) by (apply pow2_pos; lia).
    split.
    + destruct (Z.eq_dec e 0) as [->|Hne];
        [rewrite Z.shiftl_0_r; change (2 ^ (- 0)) with 1 in Hm; lia|].
      rewrite Z.shiftl_div_pow2, Hm by lia. apply Z.div_mul. lia.
    + rewrite Z.shiftl_mul_pow2 by lia. lia.
Qed.

Lemma index_num_of_Z {A} (xs : list A) n :
  0 <= n < 2 ^ 53 -> index_num xs (of_Z n) = index xs n.
Proof.
  intros Hn. destruct (mantissa_exponent_of_Z n Hn) as (m & e & Hme & Hm & H1 & H2).
  unfold index_num. rewrite Hme, H1, H2.
  apply Z.leb_le in Hm as ->. now rewrite Z.eqb_refl.
Qed.

Lemma index_nth_error {A} (xs : list A) n :
  0 <= n < Z.of_nat (length xs) -> index xs n = nth_error xs (Z.to_nat n).
Proof.
  intros Hn. unfold index.
  destruct (Z.ltb_spec n 0); [lia|]. destruct (Z.leb_spec (Z.of_nat (length xs)) n); [lia|].
  reflexivity.
Qed.

Lemma indices_exact_table :
  forallFrom (Z.to_nat 200000) 1 indicesExact = true.
Proof. vm_compute. reflexivity. Qed.

Lemma indices_exact n : 1 <= n <= 200000 -> indicesExact n = true.
Proof.
  intros Hn. apply (forallFrom_spec _ _ _ n indices_exact_table). lia.
Qed.

(** ** The sorted copy *)

Lemma rank_infinity : rank infinity = Some big.
Proof. reflexivity. Qed.

Lemma rank_neg_infinity : rank neg_infinity = Some (- big).
Proof. reflexivity. Qed.

Lemma rank_zero : rank 0%float = Some 0.
Proof. reflexivity. Qed.

Lemma isFinite_rank x : isFinite x = true -> exists a, finite_rank x a.
Proof.
  unfold isFinite. rewrite !ltb_rank, rank_infinity, rank_neg_infinity.
  destruct (rank x) as [a|] eqn:Ha; [|discriminate].
  intros H. apply andb_true_iff in H as [H1 H2].
  apply Z.ltb_lt in H1, H2. exists a. split; [exact Ha|lia].
Qed.

(** On finite numbers the comparator [a - b] orders as [<] does. *)
Lemma comparator_lt x y :
  isFinite x = true -> isFinite y = true ->
  (x - y <? 0)%float = (x <? y)%float.
Proof.
  intros Hx Hy. apply isFinite_rank in Hx as [a Ha]. apply isFinite_rank in Hy as [b Hb].
  destruct (sub_sign x y a b Ha Hb) as (r & Hr & Hs).
  rewrite !ltb_rank, Hr, rank_zero. destruct Ha as [-> _]. destruct Hb as [-> _].
  destruct (Z.ltb_spec r 0), (Z.ltb_spec a b); try reflexivity; lia.
Qed.

Lemma insertSorted_perm x xs : Permutation (insertSorted x xs) (x :: xs).
Proof.
  induction xs as [|y xs IH]; cbn [insertSorted]; [reflexivity|].
  destruct (x - y <? 0)%float; [reflexivity|].
  rewrite IH. apply perm_swap.
Qed.

Lemma sort_from_perm xs sorted :
  Permutation (fold_left (fun sorted x => insertSorted x sorted) xs sorted) (sorted ++ xs).
Proof.
  revert sorted. induction xs as [|x xs IH]; intros sorted; cbn [fold_left].
  - now rewrite app_nil_r.
  - rewrite IH, insertSorted_perm. cbn [app].
    now rewrite Permutation_middle.
Qed.

Lemma sort_perm xs : Permutation (sort xs) xs.
Proof. unfold sort. now rewrite sort_from_perm. Qed.

Lemma sort_length xs : length (sort xs) = length xs.
Proof. apply Permutation_length, sort_perm. Qed.

Lemma leb_of_ltb x y :
  isFinite x = true -> isFinite y = true -> (x <? y)%float = false -> (y <=? x)%float = true.
Proof.
  intros Hx Hy. apply isFinite_rank in Hx as (a & Ha & _).
  apply isFinite_rank in Hy as (b & Hb & _).
  rewrite ltb_rank, leb_rank, Ha, Hb.
  intros H. apply Z.ltb_ge in H. now apply Z.leb_le.
Qed.

Lemma leb_trans x y z :
  (x <=? y)%float = true -> (y <=? z)%float = true -> (x <=? z)%float = true.
Proof.
  rewrite !leb_rank.
  destruct (rank x) as [a|], (rank y) as [b|], (rank z) as [c|]; try discriminate.
  intros H1 H2. apply Z.leb_le in H1, H2. apply Z.leb_le. lia.
Qed.

Lemma ltb_leb x y : (x <? y)%float = true -> (x <=? y)%float = true.
Proof.
  rewrite ltb_rank, leb_rank.
  destruct (rank x) as [a|], (rank y) as [b|]; try discriminate.
  intros H. apply Z.ltb_lt in H. apply Z.leb_le. lia.
Qed.

Lemma insertSorted_ascending x xs :
  isFinite x = true -> Forall (fun y => isFinite y = true) xs ->
  ascending xs -> ascending (insertSorted x xs).
Proof.
  intros Hx. induction xs as [|y xs IH]; intros Hfin Hs; cbn [insertSorted].
  - constructor; constructor.
  - apply Forall_cons_iff in Hfin as [Hfy Hfin].
    apply StronglySorted_inv in Hs as [Hs Hy].
    destruct (x - y <? 0)%float eqn:Hc.
    + rewrite comparator_lt in Hc by assumption. apply ltb_leb in Hc.
      constructor; [now constructor|].
      constructor; [exact Hc|].
      apply Forall_forall. intros z Hz. rewrite Forall_forall in Hy.
      eapply leb_trans; [exact Hc|]. now apply Hy.
    + rewrite comparator_lt in Hc by assumption.
      apply leb_of_ltb in Hc; [|assumption|assumption].
      constructor; [now apply IH|].
      rewrite (insertSorted_perm x xs). now constructor.
Qed.

Lemma sort_from_finite xs sorted :
  Forall (fun y => isFinite y = true) xs -> Forall (fun y => isFinite y = true) sorted ->
  ascending sorted ->
  ascending (fold_left (fun sorted x => insertSorted x sorted) xs sorted).
Proof.
  revert sorted. induction xs as [|x xs IH]; intros sorted Hxs Hsf Hs; [exact Hs|].
  apply Forall_cons_iff in Hxs as [Hx Hxs]. cbn [fold_left]. apply IH; [exact Hxs| |].
  - rewrite (insertSorted_perm x sorted). now constructor.
  - now apply insertSorted_ascending.
Qed.

Lemma sort_ascending xs :
  Forall (fun y => isFinite y = true) xs -> ascending (sort xs).
Proof.
  intros H. apply sort_from_finite; [exact H|constructor|constructor].
Qed.

Lemma nth_error_is_Some {A} (xs : list A) n :
  (n < length xs)%nat -> is_Some (nth_error xs n).
Proof.
  intros H. apply nth_error_Some in H. destruct (nth_error xs n); [eauto|congruence].
Qed.

(** C5. The order statistics are read by exact index from a sorted
    copy of the savings (a permutation of them, ascending when all are
    finite): the median is the element at index [floor(n / 2)], so the
    upper median for even [n]; [p10] and [p90] are the elements at
    [floor(n * 0.1)] and [floor(n * 0.9)].  For arrays of up to 200000
    elements, the largest a valid scenario produces, these indices are
    the integers [n / 2], [n / 10] and [9 n / 10].  For
    [10, 20, 30, 40] the median is 30, not 25. *)
Theorem order_statistics_by_index (savings : list float) :
  let n := Z.of_nat (length savings) in
  let sortedSavings := sort savings in
  Permutation sortedSavings savings /\
  (Forall (fun s => isFinite s = true) savings -> ascending sortedSavings) /\
  median (statistics savings) = index_num sortedSavings (Math_floor (of_Z n / 2)%float) /\
  p10 (statistics savings) = index_num sortedSavings (Math_floor (of_Z n * 0.1)%float) /\
  p90 (statistics savings) = index_num sortedSavings (Math_floor (of_Z n * 0.9)%float) /\
  (1 <= n <= 200000 ->
   median (statistics savings) = nth_error sortedSavings (Z.to_nat (n / 2)) /\
   p10 (statistics savings) = nth_error sortedSavings (Z.to_nat (n / 10)) /\
   p90 (statistics savings) = nth_error sortedSavings (Z.to_nat (9 * n / 10)) /\
   is_Some (median (statistics savings)) /\
   is_Some (p10 (statistics savings)) /\
   is_Some (p90 (statistics savings))) /\
  median (statistics [10; 20; 30; 40]%float) = Some 30%float.
Proof.
  cbn zeta. split; [apply sort_perm|]. split; [apply sort_ascending|].
  unfold statistics, len. cbn [median p10 p90]. rewrite sort_length.
  split; [reflexivity|]. split; [reflexivity|]. split; [reflexivity|].
  split; [|vm_compute; reflexivity].
  intros Hn. pose proof (indices_exact _ Hn) as H. unfold indicesExact in H.
  apply andb_true_iff in H as [H H90]. apply andb_true_iff in H as [H50 H10].
  assert (Hb : 2 ^ 53 = 9007199254740992) by reflexivity.
  assert (Z.of_nat (length savings) / 2 < Z.of_nat (length savings))
    by (apply Z.div_lt_upper_bound; lia).
  assert (0 <= Z.of_nat (length savings) / 2) by (apply Z.div_pos; lia).
  assert (Z.of_nat (length savings) / 10 < Z.of_nat (length savings))
    by (apply Z.div_lt_upper_bound; lia).
  assert (0 <= Z.of_nat (length savings) / 10) by (apply Z.div_pos; lia).
  assert (9 * Z.of_nat (length savings) / 10 < Z.of_nat (length savings))
    by (apply Z.div_lt_upper_bound; lia).
  assert (0 <= 9 * Z.of_nat (length savings) / 10) by (apply Z.div_pos; lia).
  rewrite (Math_floor_floorIs _ (Z.of_nat (length savings) / 2)) by (assumption || lia).
  rewrite (Math_floor_floorIs _ (Z.of_nat (length savings) / 10)) by (assumption || lia).
  rewrite (Math_floor_floorIs _ (9 * Z.of_nat (length savings) / 10)) by (assumption || lia).
  rewrite !index_num_of_Z by lia.
  rewrite !index_nth_error by (rewrite sort_length; lia).
  repeat split; try reflexivity;
    apply nth_error_is_Some; rewrite sort_length; lia.
Qed.

Lemma order_statistics_by_index_witness :
  ascending (sort [10; 20; 30; 40]%float) /\
  median (statistics [10; 20; 30; 40]%float) =
    nth_error (sort [10; 20; 30; 40]%float) 2.
Proof.
  destruct (order_statistics_by_index [10; 20; 30; 40]%float)
    as (_ & Hasc & _ & _ & _ & Hidx & _).
  split.
  - apply Hasc. repeat constructor.
  - destruct Hidx as (Hmed & _); [cbn; lia|exact Hmed].
Defined.

(** ** Minimum and maximum *)

Lemma Math_min2_nan_l a b : rank a = None -> Math_min2 a b = nan.
Proof. intros H. unfold Math_min2. now rewrite is_nan_rank, H. Qed.

Lemma Math_min2_nan_r a b : rank b = None -> Math_min2 a b = nan.
Proof.
  intros H. unfold Math_min2. rewrite (is_nan_rank b), H. now rewrite orb_true_r.
Qed.

Lemma Math_min2_rank a b ra rb :
  rank a = Some ra -> rank b = Some rb -> rank (Math_min2 a b) = Some (Z.min ra rb).
Proof.
  intros Ha Hb. unfold Math_min2. rewrite !is_nan_rank, Ha, Hb. cbn [orb].
  rewrite !ltb_rank, Ha, Hb.
  destruct (Z.ltb_spec rb ra); [rewrite Hb; f_equal; lia|].
  destruct (Z.ltb_spec ra rb); [rewrite Ha; f_equal; lia|].
  destruct (is_neg_zero b); [rewrite Hb|rewrite Ha]; f_equal; lia.
Qed.

Lemma Math_max2_nan_l a b : rank a = None -> Math_max2 a b = nan.
Proof. intros H. unfold Math_max2. now rewrite is_nan_rank, H. Qed.

Lemma Math_max2_nan_r a b : rank b = None -> Math_max2 a b = nan.
Proof.
  intros H. unfold Math_max2. rewrite (is_nan_rank b), H. now rewrite orb_true_r.
Qed.

Lemma Math_max2_rank a b ra rb :
  rank a = Some ra -> rank b = Some rb -> rank (Math_max2 a b) = Some (Z.max ra rb).
Proof.
  intros Ha Hb. unfold Math_max2. rewrite !is_nan_rank, Ha, Hb. cbn [orb].
  rewrite !ltb_rank, Ha, Hb.
  destruct (Z.ltb_spec ra rb); [rewrite Hb; f_equal; lia|].
  destruct (Z.ltb_spec rb ra); [rewrite Ha; f_equal; lia|].
  destruct (is_neg_zero a); [rewrite Hb|rewrite Ha]; f_equal; lia.
Qed.

Lemma fold_min_nan xs : fold_left Math_min2 xs nan = nan.
Proof. induction xs as [|x xs IH]; [reflexivity|]. cbn [fold_left]. exact IH. Qed.

Lemma fold_max_nan xs : fold_left Math_max2 xs nan = nan.
Proof. induction xs as [|x xs IH]; [reflexivity|]. cbn [fold_left]. exact IH. Qed.

(** When the minimum is a number, it is below the start value and
    below every element, and every element is a number. *)
Lemma fold_min_rank xs acc m :
  rank (fold_left Math_min2 xs acc) = Some m ->
  (exists ra, rank acc = Some ra /\ m <= ra) /\
  (forall x, In x xs -> exists r, rank x = Some r /\ m <= r).
Proof.
  revert acc. induction xs as [|x xs IH]; intros acc H; cbn [fold_left] in H.
  - split; [exists m; split; [exact H|lia]|intros x []].
  - destruct (rank acc) as [ra|] eqn:Ha;
      [|rewrite Math_min2_nan_l, fold_min_nan in H by exact Ha; discriminate].
    destruct (rank x) as [rx|] eqn:Hx;
      [|rewrite Math_min2_nan_r, fold_min_nan in H by exact Hx; discriminate].
    apply IH in H as [(r' & Hr' & Hm) Hall].
    rewrite (Math_min2_rank _ _ _ _ Ha Hx) in Hr'. injection Hr' as <-.
    split; [exists ra; split; [reflexivity|lia]|].
    intros y [<-|Hy]; [exists rx; split; [exact Hx|lia]|now apply Hall].
Qed.

Lemma fold_max_rank xs acc m :
  rank (fold_left Math_max2 xs acc) = Some m ->
  (exists ra, rank acc = Some ra /\ ra <= m) /\
  (forall x, In x xs -> exists r, rank x = Some r /\ r <= m).
Proof.
  revert acc. induction xs as [|x xs IH]; intros acc H; cbn [fold_left] in H.
  - split; [exists m; split; [exact H|lia]|intros x []].
  - destruct (rank acc) as [ra|] eqn:Ha;
      [|rewrite Math_max2_nan_l, fold_max_nan in H by exact Ha; discriminate].
    destruct (rank x) as [rx|] eqn:Hx;
      [|rewrite Math_max2_nan_r, fold_max_nan in H by exact Hx; discriminate].
    apply IH in H as [(r' & Hr' & Hm) Hall].
    rewrite (Math_max2_rank _ _ _ _ Ha Hx) in Hr'. injection Hr' as <-.
    split; [exists ra; split; [reflexivity|lia]|].
    intros y [<-|Hy]; [exists rx; split; [exact Hx|lia]|now apply Hall].
Qed.

(** ** Finite results have finite operands *)

Lemma SFrank_finite_value x :
  valid_binary x = true ->
  match x with
  | S754_zero _ | S754_finite _ _ _ => exists a, SFrank x = Some a /\ - big < a < big
  | _ => True
  end.
Proof.
  intros Hv. assert (0 < big) by reflexivity. destruct x as [s|s| |s m e]; try exact I.
  - exists 0. split; [reflexivity|lia].
  - apply valid_finite in Hv as (He & Hm & _).
    pose proof (rank_finite_bounds m e He Hm).
    eexists. split; [reflexivity|]. destruct s; cbn [cond_Zopp]; lia.
Qed.

Lemma sub_finite_inv x y r :
  rank (x - y)%float = Some r -> - big < r < big ->
  (exists a, finite_rank x a) /\ (exists b, finite_rank y b).
Proof.
  unfold finite_rank, rank. rewrite sub_spec. unfold SF64sub.
  pose proof (SFrank_finite_value _ (Prim2SF_valid x)) as Hx.
  pose proof (SFrank_finite_value _ (Prim2SF_valid y)) as Hy.
  destruct (Prim2SF x) as [sx|sx| |sx mx ex]; destruct (Prim2SF y) as [sy|sy| |sy my ey];
    cbn [SFsub]; intros H Hr; try discriminate; try (split; assumption);
    exfalso.
  all: try (destruct sx; cbn [SFrank cond_Zopp] in H; injection H as H; lia).
  all: try (destruct sy; cbn [SFrank cond_Zopp negb] in H; injection H as H; lia).
  destruct sx, sy; cbn [SFrank cond_Zopp] in H; try discriminate; injection H as H; lia.
Qed.

Lemma div_finite_inv x y b r :
  rank y = Some b -> 0 < b < big ->
  rank (x / y)%float = Some r -> - big < r < big ->
  exists a, finite_rank x a.
Proof.
  unfold finite_rank, rank. rewrite div_spec. unfold SF64div.
  pose proof (SFrank_finite_value _ (Prim2SF_valid x)) as Hx.
  pose proof (Prim2SF_valid y) as Vy.
  destruct (Prim2SF y) as [sy|sy| |sy my ey]; cbn [SFrank]; intros Hb Hbb;
    try discriminate; injection Hb as <-; try lia.
  { destruct sy; cbn [cond_Zopp] in Hbb; lia. }
  destruct (Prim2SF x) as [sx|sx| |sx mx ex]; cbn [SFdiv]; intros H Hr;
    try discriminate; try assumption.
  exfalso. destruct (xorb sx sy); cbn [SFrank cond_Zopp] in H; injection H as H; lia.
Qed.

(** ** The bin of a value *)

Lemma namesIndex_of_Z n : 0 <= n < 2 ^ 53 -> namesIndex (of_Z n) n.
Proof.
  intros Hn. destruct (mantissa_exponent_of_Z n Hn) as (m & e & H & H0 & H1 & H2).
  exists m, e. auto.
Qed.

Lemma namesIndex_zero x : rank x = Some 0 -> namesIndex x 0.
Proof.
  intros H. apply rank_zero_inv in H as [s H].
  exists 0, 0. unfold mantissa_exponent. rewrite H. repeat split; reflexivity || lia.
Qed.

(** The floor of a non-negative number is a small integer, or it is
    beyond every bin. *)
Lemma Math_floor_nonneg q rq :
  rank q = Some rq -> 0 <= rq ->
  (exists n, 0 <= n < 2 ^ 53 /\ namesIndex (Math_floor q) n /\
             rank (Math_floor q) = Some (n * 2 ^ 1074)) \/
  (exists r, rank (Math_floor q) = Some r /\ 2 ^ 52 * 2 ^ 1074 <= r).
Proof.
  intros Hq Hr. pose proof (Prim2SF_valid q) as Hv.
  pose proof Hq as Hq'. unfold rank in Hq. unfold Math_floor.
  destruct (Prim2SF q) as [s|s| |s m e] eqn:HP; cbn [SFrank] in Hq; try discriminate;
    injection Hq as Hq.
  - left. exists 0. split; [split; [lia|reflexivity]|]. subst rq.
    split; [now apply namesIndex_zero|exact Hq'].
  - right. exists rq. split; [exact Hq'|].
    assert (2 ^ 52 * 2 ^ 1074 < big) by reflexivity.
    destruct s; cbn [cond_Zopp] in Hq; lia.
  - apply valid_finite in Hv as (He & Hm & Hn).
    pose proof (scaled_pos m e ltac:(lia)) as Hs.
    destruct s; cbn [cond_Zopp] in Hq; [lia|]. cbn [cond_Zopp].
    destruct (Z.leb_spec 0 e) as [He0|He0].
    + right. exists rq. split; [exact Hq'|]. subst rq. unfold scaled.
      assert (2 ^ 1074 <= 2 ^ (e + 1074)) by (apply Z.pow_le_mono_r; lia).
      apply Z.mul_le_mono_nonneg; lia.
    + left. set (n := Z.shiftl (Zpos m) e).
      assert (Hnb : 0 <= n < 2 ^ 53).
      { unfold n. rewrite Z.shiftl_div_pow2 by lia.
        assert (0 < 2 ^ (- e)) by (apply pow2_pos; lia). split.
        - apply Z.div_pos; lia.
        - apply Z.div_lt_upper_bound; [lia|].
          assert (2 ^ 53 * 1 <= 2 ^ (- e) * 2 ^ 53); [|lia].
          rewrite (Z.mul_comm (2 ^ (- e))). apply Z.mul_le_mono_nonneg_l; lia. }
      exists n. split; [exact Hnb|]. split; [now apply namesIndex_of_Z|now apply rank_of_Z].
Qed.

(** The last bin, as the code computes it: [numBins - 1]. *)
Lemma last_bin : (of_Z (Z.of_nat numBins) - 1)%float = of_Z 39.
Proof. reflexivity. Qed.

Lemma rank_39 : rank (of_Z 39) = Some (39 * 2 ^ 1074).
Proof. apply rank_of_Z. split; [lia|reflexivity]. Qed.

(** Clamped to the last bin, the floor of a non-negative number names
    one of the 40 bins. *)
Lemma binIndex_named min binWidth s rq :
  rank ((s - min) / binWidth)%float = Some rq -> 0 <= rq ->
  exists n, 0 <= n <= 39 /\ namesIndex (binIndex min binWidth s) n.
Proof.
  intros Hq Hr. unfold binIndex. rewrite last_bin.
  assert (HK : 0 < 2 ^ 1074) by reflexivity.
  destruct (Math_floor_nonneg _ _ Hq Hr) as [(n & Hn & Hname & Hrank)|(r & Hrank & Hbig)].
  - unfold Math_min2. rewrite !is_nan_rank, Hrank, rank_39. cbn [orb].
    rewrite !ltb_rank, Hrank, rank_39.
    destruct (Z.ltb_spec (39 * 2 ^ 1074) (n * 2 ^ 1074)) as [H1|H1].
    + exists 39. split; [lia|]. apply namesIndex_of_Z. split; [lia|reflexivity].
    + apply Z.mul_le_mono_pos_r in H1; [|exact HK].
      exists n. split; [lia|].
      destruct (Z.ltb_spec (n * 2 ^ 1074) (39 * 2 ^ 1074)) as [H2|H2]; [exact Hname|].
      apply Z.mul_le_mono_pos_r in H2; [|exact HK].
      destruct (is_neg_zero (of_Z 39)); [|exact Hname].
      replace n with 39 by lia. apply namesIndex_of_Z. split; [lia|reflexivity].
  - unfold Math_min2. rewrite !is_nan_rank, Hrank, rank_39. cbn [orb].
    rewrite !ltb_rank, Hrank, rank_39.
    assert (39 * 2 ^ 1074 < 2 ^ 52 * 2 ^ 1074) by (apply Z.mul_lt_mono_pos_r; [exact HK|reflexivity]).
    destruct (Z.ltb_spec (39 * 2 ^ 1074) r); [|lia].
    exists 39. split; [lia|]. apply namesIndex_of_Z. split; [lia|reflexivity].
Qed.

(** ** Counting into the bins *)

Lemma total_alter bins i :
  (i < length bins)%nat -> total (alter S i bins) = S (total bins).
Proof.
  revert i. induction bins as [|b bins IH]; intros i Hi; [cbn in Hi; lia|].
  destruct i as [|i]; cbn [alter list_alter total fold_right].
  - reflexivity.
  - fold (total (alter S i bins)). fold (total bins).
    rewrite IH by (cbn [length] in Hi; lia). lia.
Qed.

Lemma increment_named bins k n :
  namesIndex k n -> n < Z.of_nat (length bins) ->
  length (increment bins k) = length bins /\
  total (increment bins k) = S (total bins).
Proof.
  intros (m & e & Hme & Hm & H1 & H2) Hn. unfold increment. rewrite Hme, H1, H2.
  apply Z.leb_le in Hm as Hm'. rewrite Hm', Z.eqb_refl. cbn [andb].
  apply Z.ltb_lt in Hn as Hn'. rewrite Hn'.
  assert (0 <= n) by (subst n; apply Z.shiftl_nonneg; lia).
  split; [apply length_alter|apply total_alter; lia].
Qed.

Lemma increment_nan bins : increment bins nan = bins.
Proof. reflexivity. Qed.

Lemma fill_counts_all min binWidth savings bins :
  length bins = numBins ->
  (forall s, In s savings ->
     exists n, 0 <= n <= 39 /\ namesIndex (binIndex min binWidth s) n) ->
  let filled := fold_left (fun bins s => increment bins (binIndex min binWidth s))
                  savings bins in
  length filled = numBins /\ total filled = (total bins + length savings)%nat.
Proof.
  revert bins. induction savings as [|s savings IH]; intros bins Hlen Hall; cbn zeta.
  - cbn [fold_left length]. split; [exact Hlen|lia].
  - cbn [fold_left length].
    destruct (Hall s (or_introl eq_refl)) as (n & Hn & Hname).
    destruct (increment_named bins _ n Hname) as [Hl Ht].
    { rewrite Hlen. unfold numBins. lia. }
    destruct (IH (increment bins (binIndex min binWidth s))) as [Hl' Ht'].
    + now rewrite Hl.
    + intros s' Hs'. apply Hall. now right.
    + split; [exact Hl'|]. rewrite Ht', Ht. lia.
Qed.

Lemma map_count_imap (g : nat -> float) bins :
  map count (imap (fun i c => {| bin_savings := g i; count := c |}) bins) = bins.
Proof.
  revert g. induction bins as [|b bins IH]; intros g; [reflexivity|].
  cbn [imap map count]. f_equal. apply (IH (fun i => g (S i))).
Qed.

Lemma histogram_counts savings :
  map count (createHistogramData savings) =
  fillBins (Math_min savings)
    ((Math_max savings - Math_min savings) / of_Z (Z.of_nat numBins))%float savings.
Proof.
  unfold createHistogramData. cbv zeta.
  apply (map_count_imap (fun i =>
    Math_round (Math_min savings + of_Z (Z.of_nat i) *
      ((Math_max savings - Math_min savings) / of_Z (Z.of_nat numBins)))%float)).
Qed.

Lemma rank_numBins : rank (of_Z (Z.of_nat numBins)) = Some (40 * 2 ^ 1074).
Proof. change (Z.of_nat numBins) with 40. apply rank_of_Z. split; [lia|reflexivity]. Qed.

Lemma total_repeat_zero n : total (repeat O n) = O.
Proof. induction n as [|n IH]; [reflexivity|]. cbn [repeat total fold_right]. exact IH. Qed.

(** Two values one underflow apart pass [min < max], yet the width is 0
    and the smaller one is counted in no bin. *)
Lemma tiny_range_loses_a_value :
  (Math_min tinyRange <? Math_max tinyRange)%float = true /\
  ((Math_max tinyRange - Math_min tinyRange) / of_Z (Z.of_nat numBins))%float = 0%float /\
  total (map count (createHistogramData tinyRange)) = 1%nat /\
  length tinyRange = 2%nat.
Proof. vm_compute. repeat split; reflexivity. Qed.

(** C6 (amended). When [min < max] and the width [(max - min) / 40] is a
    positive finite number, the histogram has exactly 40 bins, every
    value is counted in the bin [min(floor((v - min) / width), 39)],
    which is one of the bins 0..39, and the counts add up to the number
    of values. *)
Theorem histogram_covers_every_value (savings : list float) :
  let min := Math_min savings in
  let max := Math_max savings in
  let binWidth := ((max - min) / of_Z (Z.of_nat numBins))%float in
  (min <? max)%float = true ->
  (0 <? binWidth)%float = true -> (binWidth <? infinity)%float = true ->
  length (createHistogramData savings) = 40%nat /\
  map count (createHistogramData savings) =
    fold_left (fun bins s => increment bins (binIndex min binWidth s))
      savings (repeat O 40) /\
  (forall s, In s savings ->
     exists n, 0 <= n <= 39 /\ namesIndex (binIndex min binWidth s) n) /\
  total (map count (createHistogramData savings)) = length savings.
Proof.
  cbv zeta. intros Hlt Hw0 Hwi.
  set (min := Math_min savings) in *. set (max := Math_max savings) in *.
  set (binWidth := ((max - min) / of_Z (Z.of_nat numBins))%float) in *.
  rewrite ltb_rank in Hlt, Hw0, Hwi. rewrite rank_zero in Hw0. rewrite rank_infinity in Hwi.
  destruct (rank min) as [m|] eqn:Hm; [|discriminate].
  destruct (rank max) as [M|] eqn:HM; [|discriminate].
  destruct (rank binWidth) as [rw|] eqn:Hrw; [|discriminate].
  apply Z.ltb_lt in Hlt, Hw0, Hwi.
  assert (Hb : 0 < big) by reflexivity.
  assert (HK : 0 < 2 ^ 1074) by reflexivity.
  assert (H40 : 0 < 40 * 2 ^ 1074 < big).
  { split; [lia|]. pose proof (rank_of_Z_small 40 ltac:(split; [lia|reflexivity])). lia. }
  destruct (div_finite_inv _ _ _ _ rank_numBins H40 Hrw ltac:(lia)) as (d & Hd & Hdb).
  destruct (sub_finite_inv _ _ _ Hd Hdb) as [(M' & HM' & HMb) (m' & Hm' & Hmb)].
  rewrite HM in HM'. injection HM' as <-. rewrite Hm in Hm'. injection Hm' as <-.
  assert (Hall : forall s, In s savings ->
            exists n, 0 <= n <= 39 /\ namesIndex (binIndex min binWidth s) n).
  { intros s Hs.
    destruct (fold_min_rank _ _ _ Hm) as [_ Hmin]. destruct (Hmin s Hs) as (rs & Hrs & Hle).
    destruct (fold_max_rank _ _ _ HM) as [_ Hmax]. destruct (Hmax s Hs) as (rs' & Hrs' & Hge).
    rewrite Hrs in Hrs'. injection Hrs' as <-.
    destruct (sub_sign s min rs m) as (r1 & Hr1 & Hs1);
      [split; [exact Hrs|lia]|split; [exact Hm|lia]|].
    destruct (div_nonneg _ _ r1 rw Hr1 Hrw) as (rq & Hrq & Hq0); [lia|lia|].
    exact (binIndex_named _ _ _ _ Hrq Hq0). }
  destruct (fill_counts_all min binWidth savings (repeat O 40)) as [Hlen Htot];
    [apply repeat_length|exact Hall|].
  pose proof (histogram_counts savings) as Hc. fold min max binWidth in Hc.
  unfold fillBins in Hc. change (repeat O numBins) with (repeat O 40) in Hc.
  split; [|split; [exact Hc|split; [exact Hall|]]].
  - rewrite <- (length_map count), Hc. exact Hlen.
  - rewrite Hc, Htot, total_repeat_zero. reflexivity.
Qed.

Lemma histogram_covers_every_value_witness :
  length (createHistogramData [0; 10; 20; 40]%float) = 40%nat /\
  total (map count (createHistogramData [0; 10; 20; 40]%float)) = 4%nat.
Proof.
  pose proof (histogram_covers_every_value [0; 10; 20; 40]%float) as H.
  cbn zeta in H.
  destruct H as (Hlen & _ & _ & Htotal); [reflexivity|reflexivity|reflexivity|].
  split; assumption.
Defined.

(** ** Identical savings *)

Lemma Math_min2_same v : rank v <> None -> Math_min2 v v = v.
Proof.
  intros Hv. unfold Math_min2. rewrite is_nan_rank, ltb_rank.
  destruct (rank v) as [a|]; [|congruence]. cbn [orb].
  rewrite Z.ltb_irrefl. now destruct (is_neg_zero v).
Qed.

Lemma Math_max2_same v : rank v <> None -> Math_max2 v v = v.
Proof.
  intros Hv. unfold Math_max2. rewrite is_nan_rank, ltb_rank.
  destruct (rank v) as [a|]; [|congruence]. cbn [orb].
  rewrite Z.ltb_irrefl. now destruct (is_neg_zero v).
Qed.

Lemma Math_min2_infinity v : isFinite v = true -> Math_min2 infinity v = v.
Proof.
  intros Hv. apply isFinite_rank in Hv as (a & Ha & Hb).
  unfold Math_min2. rewrite !is_nan_rank, rank_infinity, Ha. cbn [orb].
  rewrite ltb_rank, Ha, rank_infinity.
  destruct (Z.ltb_spec a big); [reflexivity|lia].
Qed.

Lemma Math_max2_neg_infinity v : isFinite v = true -> Math_max2 neg_infinity v = v.
Proof.
  intros Hv. apply isFinite_rank in Hv as (a & Ha & Hb).
  unfold Math_max2. rewrite !is_nan_rank, rank_neg_infinity, Ha. cbn [orb].
  rewrite ltb_rank, Ha, rank_neg_infinity.
  destruct (Z.ltb_spec (- big) a); [reflexivity|lia].
Qed.

Lemma fold_repeat_same (f : float -> float -> float) v n :
  f v v = v -> fold_left f (repeat v n) v = v.
Proof.
  intros Hf. induction n as [|n IH]; [reflexivity|].
  cbn [repeat fold_left]. now rewrite Hf.
Qed.

Lemma Math_min_repeat v n : isFinite v = true -> (0 < n)%nat -> Math_min (repeat v n) = v.
Proof.
  intros Hv Hn. destruct n as [|n]; [lia|]. unfold Math_min. cbn [repeat fold_left].
  rewrite Math_min2_infinity by exact Hv. apply fold_repeat_same, Math_min2_same.
  apply isFinite_rank in Hv as (a & Ha & _). congruence.
Qed.

Lemma Math_max_repeat v n : isFinite v = true -> (0 < n)%nat -> Math_max (repeat v n) = v.
Proof.
  intros Hv Hn. destruct n as [|n]; [lia|]. unfold Math_max. cbn [repeat fold_left].
  rewrite Math_max2_neg_infinity by exact Hv. apply fold_repeat_same, Math_max2_same.
  apply isFinite_rank in Hv as (a & Ha & _). congruence.
Qed.

Lemma sub_same v : isFinite v = true -> rank (v - v)%float = Some 0.
Proof.
  intros Hv. apply isFinite_rank in Hv as (a & Ha).
  destruct (sub_sign v v a a Ha Ha) as (r & Hr & Hs).
  rewrite Hr. f_equal. rewrite Z.sub_diag in Hs. cbn in Hs. lia.
Qed.

Lemma zero_div_finite x y b :
  rank x = Some 0 -> rank y = Some b -> 0 < b < big -> rank (x / y)%float = Some 0.
Proof.
  intros Hx Hy Hb. apply rank_zero_inv in Hx as [sx Hx].
  unfold rank in *. rewrite div_spec, Hx. unfold SF64div.
  pose proof (Prim2SF_valid y) as Vy.
  destruct (Prim2SF y) as [sy|sy| |sy my ey]; cbn [SFrank] in Hy; try discriminate;
    injection Hy as <-; try lia; [|reflexivity].
  destruct sy; cbn [cond_Zopp] in Hb; lia.
Qed.

Lemma binIndex_degenerate v w : rank (v - v)%float = Some 0 -> rank w = Some 0 ->
  binIndex v w v = nan.
Proof.
  intros Hd Hw. unfold binIndex. rewrite (zero_div_zero _ _ Hd Hw). reflexivity.
Qed.

Lemma fold_increment_nan (f : float -> float) xs bins :
  (forall s, In s xs -> f s = nan) ->
  fold_left (fun bins s => increment bins (f s)) xs bins = bins.
Proof.
  revert bins. induction xs as [|x xs IH]; intros bins H; [reflexivity|].
  cbn [fold_left]. rewrite (H x (or_introl eq_refl)), increment_nan.
  apply IH. intros s Hs. apply H. now right.
Qed.

(** C7. The code has no special case for identical savings: the width
    is 0, every index is [floor(0 / 0)], which is NaN, and no value is
    counted: the 40 bins are returned with every count 0. *)
Theorem identical_savings_fill_no_bin (v : float) (n : nat) :
  isFinite v = true -> (0 < n)%nat ->
  map count (createHistogramData (repeat v n)) = repeat O 40 /\
  total (map count (createHistogramData (repeat v n))) = O.
Proof.
  intros Hv Hn. rewrite histogram_counts.
  rewrite Math_min_repeat, Math_max_repeat by assumption.
  assert (H40 : 0 < 40 * 2 ^ 1074 < big).
  { assert (0 < 2 ^ 1074) by reflexivity. split; [lia|].
    pose proof (rank_of_Z_small 40 ltac:(split; [lia|reflexivity])). lia. }
  pose proof (sub_same v Hv) as Hd.
  pose proof (zero_div_finite _ _ _ Hd rank_numBins H40) as Hw.
  unfold fillBins. rewrite fold_increment_nan.
  - split; [reflexivity|apply (total_repeat_zero 40)].
  - intros s Hs. apply repeat_spec in Hs as ->. now apply binIndex_degenerate.
Qed.

Lemma identical_savings_fill_no_bin_witness :
  map count (createHistogramData (repeat 100000%float 3)) = repeat O 40.
Proof.
  apply (identical_savings_fill_no_bin 100000%float 3); [vm_compute; reflexivity|lia].
Defined.
(** ** Dividing by one *)





(** ** One trial: the variance divides by zero *)










(** ** The quotient of [random], [uniform] and [choice] *)

Lemma quotients_in_unit_interval : quotientsInUnitInterval (map of_Z orbit) = true.
Proof. vm_compute. reflexivity. Qed.

Lemma quotientsInUnitInterval_In states state :
  quotientsInUnitInterval states = true -> In state states ->
  inUnitInterval (state / 0x7fffffff)%float = true.
Proof.
  unfold quotientsInUnitInterval. intros H Hs.
  exact (forallb_In _ _ _ H Hs).
Qed.

Lemma quotient_unit_interval state :
  reachable state -> inUnitInterval (advance state / 0x7fffffff)%float = true.
Proof.
  intros Hr. destruct (reachable_orbit _ (reachable_advance _ Hr)) as (z & Hz & ->).
  exact (quotientsInUnitInterval_In _ _ quotients_in_unit_interval (in_map of_Z _ _ Hz)).
Qed.

Lemma rank_one : rank 1%float = Some (2 ^ 1074).
Proof. reflexivity. Qed.

Lemma unit_interval_rank r :
  inUnitInterval r = true -> exists a, rank r = Some a /\ 0 <= a < 2 ^ 1074.
Proof.
  unfold inUnitInterval. rewrite leb_rank, ltb_rank, rank_zero, rank_one.
  destruct (rank r) as [a|]; [|discriminate]. intros H.
  apply andb_true_iff in H as [H1 H2]. apply Z.leb_le in H1. apply Z.ltb_lt in H2.
  now exists a.
Qed.

(** [choice] returns an index of the array when there is one. *)
Lemma choice_loop_range k i n probs r cumsum :
  0 <= i -> i + Z.of_nat k = n -> 1 <= n ->
  0 <= choice_loop k i n probs r cumsum < n.
Proof.
  revert i cumsum. induction k as [|k IH]; intros i cumsum Hi Hk Hn; cbn [choice_loop].
  - lia.
  - destruct (_ <? _)%float; [lia|]. apply IH; lia.
Qed.

Lemma choice_range n probs state :
  1 <= n -> 0 <= fst (choice n probs state) < n.
Proof.
  intros Hn. unfold choice. cbn [fst]. apply choice_loop_range; lia.
Qed.

Lemma choice_state n probs state : snd (choice n probs state) = advance state.
Proof. reflexivity. Qed.

(** ** A range of one multiplier *)

Lemma finite_nonzero x :
  isFinite x = true -> rank x <> Some 0 ->
  exists s m e, Prim2SF x = S754_finite s m e.
Proof.
  unfold isFinite. rewrite !ltb_rank, rank_infinity, rank_neg_infinity.
  unfold rank. destruct (Prim2SF x) as [s|s| |s m e]; cbn [SFrank]; intros H Hz.
  - congruence.
  - destruct s; cbn [cond_Zopp] in H; rewrite ?Z.ltb_irrefl, ?andb_false_r in H;
      discriminate.
  - discriminate.
  - now exists s, m, e.
Qed.

Lemma uniform_fixed m state :
  isFinite m = true -> rank m <> Some 0 -> reachable state ->
  fst (uniform m m state) = m.
Proof.
  intros Hf Hz Hr. unfold uniform. cbn [fst].
  destruct (unit_interval_rank _ (quotient_unit_interval _ Hr)) as (a & Ha & Hbd).
  set (r := (advance state / 2147483647)%float) in *.
  pose proof (sub_same m Hf) as Hd. apply rank_zero_inv in Hd as [sd Hd].
  destruct (finite_nonzero m Hf Hz) as (s & mm & e & Hm).
  apply Prim2SF_inj. rewrite add_spec, mul_spec, Hd, Hm.
  unfold rank in Ha. pose proof (Prim2SF_valid r) as Hv.
  destruct (Prim2SF r) as [sr|sr| |sr mr er]; cbn [SFrank] in Ha; try discriminate.
  - reflexivity.
  - injection Ha as <-. assert (2 ^ 1074 < big) by reflexivity.
    destruct sr; cbn [cond_Zopp] in Hbd; lia.
  - reflexivity.
Qed.

Lemma index_map_fixed {A} (g : A -> float) (xs : list A) m i :
  Forall (fun x => g x = m) xs -> 0 <= i < Z.of_nat (length xs) ->
  index (map g xs) i = Some m.
Proof.
  intros Hall Hi. rewrite index_nth_error by (rewrite length_map; lia).
  rewrite nth_error_map.
  destruct (nth_error xs (Z.to_nat i)) as [x|] eqn:Hx.
  - cbn. f_equal. rewrite List.Forall_forall in Hall. apply Hall.
    now apply nth_error_In in Hx.
  - apply nth_error_None in Hx. lia.
Qed.

Lemma fold_left_repeat {A B} (f : A -> B -> A) (b : B) j a :
  fold_left f (repeat b j) a = Nat.iter j (fun a => f a b) a.
Proof.
  revert a. induction j as [|j IH]; intros a; [reflexivity|].
  cbn [repeat fold_left]. rewrite IH. symmetry.
  exact (Nat.iter_succ_r j (fun a => f a b) a).
Qed.

Lemma iterations_of_Z n : 0 <= n < 2 ^ 53 -> iterations (of_Z n) = Z.to_nat n.
Proof.
  intros Hn. destruct (mantissa_exponent_of_Z n Hn) as (m & e & Hme & Hm & H1 & H2).
  unfold iterations. rewrite Hme. f_equal.
  destruct (Z.le_gt_cases 0 e) as [He|He].
  - rewrite Z.shiftl_mul_pow2 in * by lia. lia.
  - rewrite Z.shiftl_mul_pow2 in H2 by lia.
    rewrite Z.shiftl_div_pow2 by lia. subst m.
    rewrite <- Z.mul_opp_l, Z.div_mul; [lia|].
    apply Z.pow_nonzero; lia.
Qed.

Lemma integers_state lo hi state : snd (integers lo hi state) = advance state.
Proof. reflexivity. Qed.

Section FixedMultiplier.

Variable m : float.
Variable scenario : Scenario.
Hypothesis m_finite : isFinite m = true.
Hypothesis m_nonzero : rank m <> Some 0.
Hypothesis some_type : farmTypes scenario <> [].
Hypothesis fixed : multiplierFixed m scenario.

Lemma drawMultiplier_fixed state :
  reachable state -> fst (drawMultiplier scenario (setup scenario) state) = m.
Proof.
  intros Hr. unfold drawMultiplier.
  pose proof (choice_range (Z.of_nat (length (farmTypes scenario)))
                (probs (setup scenario)) state) as Hc.
  pose proof (choice_state (Z.of_nat (length (farmTypes scenario)))
                (probs (setup scenario)) state) as Hs.
  destruct (choice _ _ _) as [typeIdx st1]. cbn [fst snd] in Hc, Hs. subst st1.
  assert (Hlen : 1 <= Z.of_nat (length (farmTypes scenario))).
  { destruct (farmTypes scenario); [now contradiction some_type|cbn [length]; lia]. }
  specialize (Hc Hlen). unfold setup. cbn [minMult maxMult].
  pose proof fixed as Hfix. unfold multiplierFixed in Hfix.
  rewrite List.Forall_forall in Hfix.
  rewrite !(index_map_fixed _ _ m) by
    (try exact Hc; apply List.Forall_forall; intros ft Hft; now apply Hfix).
  cbn [ToNumber]. apply uniform_fixed; [exact m_finite|exact m_nonzero|].
  now apply reachable_advance.
Qed.

Lemma multipliers_fixed j state :
  reachable state ->
  fst (multipliers j scenario (setup scenario) state) = repeat m j.
Proof.
  revert state. induction j as [|j IH]; intros state Hr; [reflexivity|].
  cbn [multipliers]. pose proof (drawMultiplier_fixed state Hr) as Hm.
  pose proof (drawMultiplier_state scenario (setup scenario) state) as Hs.
  destruct (drawMultiplier scenario (setup scenario) state) as [m1 st1].
  cbn [fst snd] in Hm, Hs. subst m1 st1.
  specialize (IH (advance (advance state))
                 (reachable_advance _ (reachable_advance _ Hr))).
  destruct (multipliers j scenario (setup scenario) _) as [rest st2].
  cbn [fst] in *. now rewrite IH.
Qed.

Hypothesis valid : validateScenario scenario = true.
Hypothesis few_farms : maxNewFarms scenario <= 64.

Lemma trial_fixed state :
  reachable state ->
  exists n, minNewFarms scenario <= n <= maxNewFarms scenario /\
    fst (integers (of_Z (minNewFarms scenario)) (of_Z (maxNewFarms scenario)) state) = of_Z n /\
    fst (trial scenario (setup scenario) state) =
    savingsWith m (lastYearCost scenario) (lastYearFarms scenario) n.
Proof.
  intros Hr. pose proof (valid_farms _ valid) as Hfarms.
  destruct (integers_bounded (minNewFarms scenario) (maxNewFarms scenario) state)
    as (n & Hn & Hint); [lia|exact few_farms|exact Hr|].
  exists n. split; [exact Hn|]. split; [exact Hint|].
  unfold trial.
  pose proof (integers_state (of_Z (minNewFarms scenario))
                (of_Z (maxNewFarms scenario)) state) as Hst.
  destruct (integers _ _ _) as [nFarms st1]. cbn [fst snd] in Hint, Hst. subst nFarms st1.
  rewrite farmLoop_multipliers, multipliers_fixed by now apply reachable_advance.
  rewrite iterations_of_Z by (change (2 ^ 53) with 9007199254740992; lia).
  rewrite fold_left_repeat. reflexivity.
Qed.

Lemma savings_fixed mathRandom i :
  Z.of_nat i < trials scenario ->
  exists n, minNewFarms scenario <= n <= maxNewFarms scenario /\
    nFarmsAt i scenario = of_Z n /\
    multipliersAt i scenario = repeat m (Z.to_nat n) /\
    nth_error (simulateSavings mathRandom scenario) i =
    Some (savingsWith m (lastYearCost scenario) (lastYearFarms scenario) n).
Proof.
  intros Hi. unfold simulateSavings. rewrite createRNG_42.
  pose proof (trialLoop_nth (Z.to_nat (trials scenario)) scenario
                (setup scenario) [] 42%float i ltac:(lia)) as Hnth.
  cbn [length Nat.add] in Hnth. rewrite Hnth.
  pose proof (stateAt_reachable i scenario (setup scenario) 42%float reachable_seed) as Hr.
  destruct (trial_fixed _ Hr) as (n & Hn & Hint & Ht).
  exists n. split; [exact Hn|]. split; [exact Hint|]. split; [|now rewrite Ht].
  unfold multipliersAt.
  pose proof (integers_state (of_Z (minNewFarms scenario))
                (of_Z (maxNewFarms scenario))
                (stateAt i scenario (setup scenario) 42%float)) as Hst.
  destruct (integers _ _ _) as [nFarms st1]. cbn [fst snd] in Hint, Hst. subst nFarms st1.
  rewrite multipliers_fixed by now apply reachable_advance.
  rewrite iterations_of_Z; [reflexivity|].
  pose proof (valid_farms _ valid). change (2 ^ 53) with 9007199254740992. lia.
Qed.

End FixedMultiplier.
(** ** A discount of exactly 10% *)

Lemma exact_fixed : multiplierFixed 0.9 exactScenario.
Proof. repeat constructor. Qed.

Lemma exact_savings mathRandom :
  simulateSavings mathRandom exactScenario = repeat exactSavings 1000.
Proof.
  apply nth_error_ext. intros i.
  destruct (Nat.lt_ge_cases i 1000) as [Hi|Hi].
  - destruct (savings_fixed 0.9 exactScenario) with (mathRandom := mathRandom) (i := i)
      as (n & Hn & _ & _ & Hs);
      [reflexivity|discriminate|discriminate|exact exact_fixed|reflexivity
      |cbn; lia|cbn; lia|].
    cbn [minNewFarms maxNewFarms exactScenario] in Hn.
    assert (n = 30) as -> by lia.
    rewrite Hs, nth_error_repeat by exact Hi. f_equal.
  - transitivity (@None float); [|symmetry]; apply nth_error_None.
    + unfold simulateSavings. rewrite trialLoop_length. cbn [length].
      change (Z.to_nat (trials exactScenario)) with 1000%nat. lia.
    + rewrite repeat_length. exact Hi.
Qed.

Lemma exact_draws i :
  (i < 1000)%nat ->
  nFarmsAt i exactScenario = 30%float /\
  multipliersAt i exactScenario = repeat 0.9%float 30.
Proof.
  intros Hi.
  destruct (savings_fixed 0.9 exactScenario) with (mathRandom := 0%float) (i := i)
    as (n & Hn & Hf & Hm & _);
    [reflexivity|discriminate|discriminate|exact exact_fixed|reflexivity
    |cbn; lia|cbn; lia|].
  cbn [minNewFarms maxNewFarms exactScenario] in Hn.
  assert (n = 30) as -> by lia. split; [exact Hf|exact Hm].
Qed.

(** The savings of the scenario are not 100000, and their standard
    deviation is not 0. *)
Lemma exact_scenario_is_inexact :
  let result := runFarmTypeSimulation 0 exactScenario in
  nth_error (savings result) 0 = Some exactSavings /\
  (exactSavings =? 100000)%float = false /\
  (mean (stats result) =? 100000)%float = false /\
  (std (stats result) =? 0)%float = false.
Proof.
  cbn zeta. unfold runFarmTypeSimulation. rewrite exact_savings.
  cbn [savings stats]. vm_compute. repeat split; reflexivity.
Qed.

(** C8 (amended). In the scenario with one farm type at 100% and a
    discount of exactly 10%, every trial has 30 farms and every
    multiplier is the number 0.9; every savings value is the same
    number, [100000 - 2^-33] (99999.99999999988), because
    [lastYearCost / 30] and the sum of the 30 costs are rounded.  The
    median, p10, p90, min and max are that number, the mean is
    99999.99999999999, the standard deviation is about 1.02e-10 and
    [probPositive] is 1. *)
Theorem fixed_discount_statistics (mathRandom : float) :
  let result := runFarmTypeSimulation mathRandom exactScenario in
  validateScenario exactScenario = true /\
  (forall i : nat, (i < 1000)%nat ->
     nFarmsAt i exactScenario = 30%float /\
     multipliersAt i exactScenario = repeat 0.9%float 30) /\
  savings result = repeat exactSavings 1000 /\
  (100000 - exactSavings)%float = 0x1p-33%float /\
  median (stats result) = Some exactSavings /\
  p10 (stats result) = Some exactSavings /\
  p90 (stats result) = Some exactSavings /\
  min (stats result) = exactSavings /\
  max (stats result) = exactSavings /\
  mean (stats result) = 0x1.869ffffffffffp+16%float /\
  std (stats result) = 0x1.c03963154ea1bp-34%float /\
  probPositive (stats result) = 1%float.
Proof.
  cbn zeta. split; [vm_compute; reflexivity|]. split; [exact exact_draws|].
  unfold runFarmTypeSimulation. rewrite exact_savings. cbn [savings stats].
  split; [reflexivity|]. vm_compute. repeat split; reflexivity.
Qed.
(** ** Farm types at full price *)

Lemma valid_shares scenario :
  validateScenario scenario = true ->
  (0.5 <? abs (totalShare (farmTypes scenario) - 100))%float = false.
Proof.
  intros H. apply validateScenario_empty in H. unfold newErrors in H.
  apply forEachFarmType_empty in H.
  now apply report_empty in H as [Hs _].
Qed.

Lemma valid_some_type scenario :
  validateScenario scenario = true -> farmTypes scenario <> [].
Proof.
  intros H E. apply valid_shares in H. rewrite E in H. discriminate.
Qed.







(** * Further properties of the generator *)

(** Whatever the state was (a fraction, a number beyond 2^31, NaN), the
    state after an operation is an integer from 0 to 2^31 - 1, and all
    four operations move the state in the same way. *)
Theorem state_stays_31_bit (state min max : float) (n : Z) (probs : list float) :
  exists z : Z,
    0 <= z <= 2147483647 /\
    snd (random state) = of_Z z /\
    snd (integers min max state) = of_Z z /\
    snd (uniform min max state) = of_Z z /\
    snd (choice n probs state) = of_Z z.
Proof.
  exists (Z.land (ToInt32 (state * 1103515245 + 12345)%float) (Z.ones 31)).
  split; [|repeat split; reflexivity].
  rewrite Z.land_ones by lia.
  pose proof (Z.mod_pos_bound (ToInt32 (state * 1103515245 + 12345)%float) (2 ^ 31)
                ltac:(lia)). lia.
Qed.

(** Every number [random()] returns in a run of the engine's generator
    (seed 42) lies in [0, 1): it is never 1. *)
Theorem random_in_unit_interval (state : float) :
  reachable state ->
  (0 <=? fst (random state))%float = true /\ (fst (random state) <? 1)%float = true.
Proof.
  intros Hr. pose proof (quotient_unit_interval state Hr) as H.
  unfold inUnitInterval in H. apply andb_true_iff in H. exact H.
Qed.

Lemma random_in_unit_interval_witness :
  (0 <=? fst (random 42))%float = true /\ (fst (random 42) <? 1)%float = true.
Proof. apply random_in_unit_interval, reachable_seed. Defined.

Lemma choice_loop_first k i n probs r :
  i + Z.of_nat k = n -> 0 <= i ->
  let idx := choice_loop k i n probs r (cumsumAfter (Z.to_nat i) probs) in
  (forall j, i <= j < idx -> (r <? cumsumAfter (S (Z.to_nat j)) probs)%float = false) /\
  ((r <? cumsumAfter (S (Z.to_nat idx)) probs)%float = true \/ idx = n - 1).
Proof.
  revert i. induction k as [|k IH]; intros i Hk Hi; cbn [choice_loop]; cbn zeta.
  - split; [intros j Hj; lia|now right].
  - replace (cumsumAfter (Z.to_nat i) probs + ToNumber (index probs i))%float
      with (cumsumAfter (S (Z.to_nat i)) probs)
      by (cbn [cumsumAfter]; now rewrite Z2Nat.id).
    destruct (r <? cumsumAfter (S (Z.to_nat i)) probs)%float eqn:E.
    + split; [intros j Hj; lia|now left].
    + replace (S (Z.to_nat i)) with (Z.to_nat (i + 1)) in * by lia.
      specialize (IH (i + 1) ltac:(lia) ltac:(lia)). cbn zeta in IH.
      destruct IH as [IH1 IH2]. split; [|exact IH2].
      intros j Hj. destruct (Z.eq_dec j i) as [->|Hne].
      * replace (S (Z.to_nat i)) with (Z.to_nat (i + 1)) by lia. exact E.
      * apply IH1. lia.
Qed.

(** [choice(n, probs)] returns an index from 0 to [n - 1] when
    [n >= 1], whatever [probs] holds (and [n - 1] when [n <= 0]); the
    index is the first one whose cumulative probability exceeds the
    number drawn, or the last index when none does. *)
Theorem choice_first_exceeding (n : Z) (probs : list float) (state : float) :
  let r := fst (random state) in
  let idx := fst (choice n probs state) in
  (1 <= n -> 0 <= idx <= n - 1) /\
  (n <= 0 -> idx = n - 1) /\
  (forall j, 0 <= j < idx -> (r <? cumsumAfter (S (Z.to_nat j)) probs)%float = false) /\
  ((r <? cumsumAfter (S (Z.to_nat idx)) probs)%float = true \/ idx = n - 1).
Proof.
  cbn zeta. split; [|split].
  - intros Hn. pose proof (choice_range n probs state Hn). lia.
  - intros Hn. unfold choice. cbn [fst].
    replace (Z.to_nat n) with O by lia. reflexivity.
  - destruct (Z.le_gt_cases n 0) as [Hn|Hn].
    + unfold choice. cbn [fst]. replace (Z.to_nat n) with O by lia.
      cbn [choice_loop]. split; [intros j Hj; lia|now right].
    + apply (choice_loop_first (Z.to_nat n) 0 n probs); lia.
Qed.

Lemma choice_first_exceeding_witness :
  0 <= fst (choice 4 [0.6; 0.25; 0.1; 0.05]%float 42) <= 4 - 1.
Proof.
  destruct (choice_first_exceeding 4 [0.6; 0.25; 0.1; 0.05]%float 42) as [H _].
  apply H. lia.
Defined.

(** * Further properties of the trial loop *)

Lemma farmLoop_state j scenario su partial state :
  snd (farmLoop j scenario su partial state) = Nat.iter (2 * j) advance state.
Proof.
  revert partial state. induction j as [|j IH]; intros partial state; [reflexivity|].
  cbn [farmLoop]. pose proof (drawMultiplier_state scenario su state) as Hs.
  destruct (drawMultiplier scenario su state) as [m st1]. cbn [snd] in Hs. subst st1.
  rewrite IH. replace (2 * S j)%nat with (S (S (2 * j))) by lia.
  now rewrite !Nat.iter_succ_r.
Qed.

(** A trial of [nFarms] farms draws [1 + 2 * nFarms] numbers: one for
    the farm count, then a type and a discount for each farm. *)
Theorem trial_draws (scenario : Scenario) (state : float) :
  let nFarms :=
    fst (integers (of_Z (minNewFarms scenario)) (of_Z (maxNewFarms scenario)) state) in
  snd (trial scenario (setup scenario) state) =
  Nat.iter (1 + 2 * iterations nFarms) advance state.
Proof.
  cbn zeta. unfold trial.
  pose proof (integers_state (of_Z (minNewFarms scenario))
                (of_Z (maxNewFarms scenario)) state) as Hst.
  destruct (integers _ _ _) as [nFarms st1]. cbn [fst snd] in *. subst st1.
  pose proof (farmLoop_state (iterations nFarms) scenario (setup scenario)
                0%float (advance state)) as Hf.
  destruct (farmLoop _ _ _ _ _) as [p st2]. cbn [snd] in *. subst st2.
  change (1 + 2 * iterations nFarms)%nat with (S (2 * iterations nFarms)).
  now rewrite Nat.iter_succ_r.
Qed.

Lemma stateAt_farms_only s1 s2 i :
  minNewFarms s1 = minNewFarms s2 -> maxNewFarms s1 = maxNewFarms s2 ->
  stateAt i s1 (setup s1) 42%float = stateAt i s2 (setup s2) 42%float.
Proof.
  intros Hmin Hmax. generalize 42%float. induction i as [|i IH]; intros state; [reflexivity|].
  cbn [stateAt].
  pose proof (trial_draws s1 state) as H1. pose proof (trial_draws s2 state) as H2.
  cbn zeta in H1, H2. rewrite H1, H2, Hmin, Hmax. apply IH.
Qed.

(** The farm count of each trial and the generator state it starts in
    depend on [minNewFarms] and [maxNewFarms] only: changing the cost,
    last year's farm count, the number of trials or the farm types
    changes no farm count. *)
Theorem farm_counts_depend_on_range_only (s1 s2 : Scenario) (i : nat) :
  minNewFarms s1 = minNewFarms s2 ->
  maxNewFarms s1 = maxNewFarms s2 ->
  nFarmsAt i s1 = nFarmsAt i s2 /\
  length (multipliersAt i s1) = length (multipliersAt i s2).
Proof.
  intros Hmin Hmax.
  assert (Hn : nFarmsAt i s1 = nFarmsAt i s2).
  { unfold nFarmsAt. now rewrite (stateAt_farms_only s1 s2 i Hmin Hmax), Hmin, Hmax. }
  split; [exact Hn|].
  unfold nFarmsAt in Hn. unfold multipliersAt.
  destruct (integers _ _ (stateAt i s1 _ _)) as [n1 st1].
  destruct (integers _ _ (stateAt i s2 _ _)) as [n2 st2].
  cbn [fst] in Hn. subst n2. now rewrite !multipliers_length.
Qed.

Lemma farm_counts_depend_on_range_only_witness :
  nFarmsAt 3 baseCase = nFarmsAt 3 fullPriceScenario.
Proof.
  apply (farm_counts_depend_on_range_only baseCase fullPriceScenario 3); reflexivity.
Defined.

(** When every farm type has the same multiplier range from [m] to [m]
    (the same discount for minimum and maximum, in every type), every
    farm of every trial gets exactly [m], and the savings of a trial
    depend on its farm count only. *)
Theorem fixed_range_savings (m : float) (mathRandom : float) (scenario : Scenario) (i : nat) :
  isFinite m = true -> (m =? 0)%float = false ->
  validateScenario scenario = true ->
  maxNewFarms scenario <= 64 ->
  multiplierFixed m scenario ->
  Z.of_nat i < trials scenario ->
  exists n,
    minNewFarms scenario <= n <= maxNewFarms scenario /\
    nFarmsAt i scenario = of_Z n /\
    multipliersAt i scenario = repeat m (Z.to_nat n) /\
    nth_error (savings (runFarmTypeSimulation mathRandom scenario)) i =
      Some (savingsWith m (lastYearCost scenario) (lastYearFarms scenario) n).
Proof.
  intros Hf Hz Hvalid Hfew Hfixed Hi.
  apply (savings_fixed m scenario); try assumption.
  - rewrite eqb_rank, rank_zero in Hz. intros E. rewrite E in Hz. discriminate.
  - now apply valid_some_type.
Qed.

Lemma fixed_range_savings_witness :
  exists n,
    30 <= n <= 30 /\
    nth_error (savings (runFarmTypeSimulation 0 exactScenario)) 5 =
      Some (savingsWith 0.9 1000000 30 n).
Proof.
  destruct (fixed_range_savings 0.9 0 exactScenario 5) as (n & Hn & _ & _ & Hs);
    [reflexivity|reflexivity|vm_compute; reflexivity|vm_compute; discriminate
    |exact exact_fixed|reflexivity|].
  exists n. split; [exact Hn|exact Hs].
Defined.

(** * Further properties of the statistics and the histogram *)

(** ** NaN in arithmetic *)

Lemma is_nan_eq x : is_nan x = true -> x = nan.
Proof.
  rewrite is_nan_rank. destruct (rank x) eqn:E; [discriminate|].
  intros _. now apply rank_nan_inv.
Qed.

Lemma add_nan_l x : (nan + x)%float = nan.
Proof.
  apply Prim2SF_inj. rewrite add_spec. change (Prim2SF nan) with S754_nan. reflexivity.
Qed.

Lemma add_nan_r x : (x + nan)%float = nan.
Proof.
  apply Prim2SF_inj. rewrite add_spec. change (Prim2SF nan) with S754_nan.
  destruct (Prim2SF x); reflexivity.
Qed.

Lemma sub_nan_r x : (x - nan)%float = nan.
Proof.
  apply Prim2SF_inj. rewrite sub_spec. change (Prim2SF nan) with S754_nan.
  destruct (Prim2SF x); reflexivity.
Qed.

Lemma div_nan_l x : (nan / x)%float = nan.
Proof.
  apply Prim2SF_inj. rewrite div_spec. change (Prim2SF nan) with S754_nan. reflexivity.
Qed.

Lemma sum_from_nan xs : fold_left (fun a b => (a + b)%float) xs nan = nan.
Proof.
  induction xs as [|x xs IH]; [reflexivity|]. cbn [fold_left]. now rewrite add_nan_l.
Qed.

Lemma sum_with_nan xs acc :
  In nan xs -> fold_left (fun a b => (a + b)%float) xs acc = nan.
Proof.
  revert acc. induction xs as [|x xs IH]; intros acc [].
  - subst x. cbn [fold_left]. rewrite add_nan_r. apply sum_from_nan.
  - cbn [fold_left]. now apply IH.
Qed.

Lemma fold_min_with_nan xs acc : In nan xs -> fold_left Math_min2 xs acc = nan.
Proof.
  revert acc. induction xs as [|x xs IH]; intros acc [].
  - subst x. cbn [fold_left]. rewrite Math_min2_nan_r by reflexivity. apply fold_min_nan.
  - cbn [fold_left]. now apply IH.
Qed.

Lemma fold_max_with_nan xs acc : In nan xs -> fold_left Math_max2 xs acc = nan.
Proof.
  revert acc. induction xs as [|x xs IH]; intros acc [].
  - subst x. cbn [fold_left]. rewrite Math_max2_nan_r by reflexivity. apply fold_max_nan.
  - cbn [fold_left]. now apply IH.
Qed.

Lemma binIndex_nan_min binWidth s : binIndex nan binWidth s = nan.
Proof. unfold binIndex. rewrite sub_nan_r, div_nan_l. reflexivity. Qed.

(** One NaN among the savings makes the mean, the minimum and the
    maximum NaN, and the histogram counts no value at all. *)
Theorem nan_spoils_statistics (savings : list float) :
  (exists s, In s savings /\ is_nan s = true) ->
  mean (statistics savings) = nan /\
  min (statistics savings) = nan /\
  max (statistics savings) = nan /\
  map count (createHistogramData savings) = repeat O 40.
Proof.
  intros (s & Hs & Hn). apply is_nan_eq in Hn. subst s.
  unfold statistics. cbn [mean min max].
  split; [unfold sum; rewrite sum_with_nan by exact Hs; apply div_nan_l|].
  split; [now apply fold_min_with_nan|]. split; [now apply fold_max_with_nan|].
  rewrite histogram_counts. unfold fillBins, Math_min.
  rewrite (fold_min_with_nan savings infinity Hs).
  apply fold_increment_nan. intros s _. apply binIndex_nan_min.
Qed.

Lemma nan_spoils_statistics_witness :
  mean (statistics [1; nan; 3]%float) = nan /\
  map count (createHistogramData [1; nan; 3]%float) = repeat O 40.
Proof.
  destruct (nan_spoils_statistics [1; nan; 3]%float) as (Hm & _ & _ & Hh).
  - exists nan. split; [right; left; reflexivity|reflexivity].
  - split; assumption.
Defined.

(** ** The histogram never counts more than it is given *)

Lemma increment_length bins k : length (increment bins k) = length bins.
Proof.
  unfold increment. destruct (mantissa_exponent k) as [[m e]|]; [|reflexivity].
  destruct (_ && _); [apply length_alter|reflexivity].
Qed.

Lemma increment_total bins k : (total (increment bins k) <= S (total bins))%nat.
Proof.
  unfold increment. destruct (mantissa_exponent k) as [[m e]|]; [|lia].
  destruct ((0 <=? m) && (Z.shiftl (Z.shiftl m e) (- e) =? m)
            && (Z.shiftl m e <? Z.of_nat (length bins))) eqn:E; [|lia].
  apply andb_true_iff in E as [E1 E2]. apply andb_true_iff in E1 as [E0 _].
  apply Z.leb_le in E0. apply Z.ltb_lt in E2.
  assert (0 <= Z.shiftl m e) by (apply Z.shiftl_nonneg; lia).
  rewrite total_alter by lia. lia.
Qed.

Lemma fill_shape (f : float -> float) savings bins :
  let filled := fold_left (fun bins s => increment bins (f s)) savings bins in
  length filled = length bins /\
  (total filled <= total bins + length savings)%nat.
Proof.
  revert bins. induction savings as [|s savings IH]; intros bins; cbn zeta.
  - cbn [fold_left length]. lia.
  - cbn [fold_left length]. destruct (IH (increment bins (f s))) as [Hl Ht].
    rewrite increment_length in Hl. pose proof (increment_total bins (f s)). lia.
Qed.

(** Whatever the savings are (none, identical ones, NaN, infinities),
    the histogram has exactly 40 bins and their counts add up to at most
    the number of savings values: no value is counted twice. *)
Theorem histogram_shape (savings : list float) :
  length (createHistogramData savings) = 40%nat /\
  (total (map count (createHistogramData savings)) <= length savings)%nat.
Proof.
  rewrite histogram_counts. unfold createHistogramData. cbv zeta.
  rewrite length_imap. unfold fillBins.
  destruct (fill_shape
    (binIndex (Math_min savings)
       ((Math_max savings - Math_min savings) / of_Z (Z.of_nat numBins))%float)
    savings (repeat O numBins)) as [Hl Ht].
  rewrite repeat_length in Hl. rewrite total_repeat_zero in Ht.
  split; [exact Hl|exact Ht].
Qed.

(** ** The minimum and the maximum *)

Lemma Math_min2_choice a b :
  Math_min2 a b = nan \/ Math_min2 a b = a \/ Math_min2 a b = b.
Proof.
  unfold Math_min2. destruct (_ || _); [now left|].
  destruct (b <? a)%float; [now right; right|].
  destruct (a <? b)%float; [now right; left|].
  destruct (is_neg_zero b); [now right; right|now right; left].
Qed.

Lemma Math_max2_choice a b :
  Math_max2 a b = nan \/ Math_max2 a b = a \/ Math_max2 a b = b.
Proof.
  unfold Math_max2. destruct (_ || _); [now left|].
  destruct (a <? b)%float; [now right; right|].
  destruct (b <? a)%float; [now right; left|].
  destruct (is_neg_zero a); [now right; right|now right; left].
Qed.

Lemma fold_choice (f : float -> float -> float) xs acc :
  (forall a b, f a b = nan \/ f a b = a \/ f a b = b) ->
  (forall b, f nan b = nan) ->
  fold_left f xs acc = nan \/ fold_left f xs acc = acc \/ In (fold_left f xs acc) xs.
Proof.
  intros Hf Hn. revert acc. induction xs as [|x xs IH]; intros acc; [now right; left|].
  cbn [fold_left].
  destruct (IH (f acc x)) as [H|[H|H]].
  - now left.
  - rewrite H. destruct (Hf acc x) as [E|[E|E]]; rewrite E.
    + now left.
    + now right; left.
    + right; right. now left.
  - right; right. now right.
Qed.

Lemma rank_bounds x a : rank x = Some a -> - big <= a <= big.
Proof.
  unfold rank. pose proof (Prim2SF_valid x) as Hv.
  pose proof (SFrank_finite_value _ Hv) as Hf.
  assert (0 < big) by reflexivity.
  destruct (Prim2SF x) as [s|s| |s m e]; cbn [SFrank]; intros E; try discriminate.
  - injection E as <-. lia.
  - injection E as <-. destruct s; cbn [cond_Zopp]; lia.
  - destruct Hf as (a' & Ha' & Hbd). cbn [SFrank] in Ha'. congruence || (rewrite E in Ha'; injection Ha' as ->; lia).
Qed.

Lemma numbers_have_ranks savings :
  Forall (fun s => is_nan s = false) savings ->
  forall s, In s savings -> exists r, rank s = Some r.
Proof.
  intros H s Hs. rewrite List.Forall_forall in H. specialize (H s Hs).
  rewrite is_nan_rank in H. destruct (rank s) as [r|]; [now exists r|discriminate].
Qed.

Lemma fold_min_number xs acc ra :
  rank acc = Some ra -> (forall s, In s xs -> exists r, rank s = Some r) ->
  exists m, rank (fold_left Math_min2 xs acc) = Some m.
Proof.
  revert acc ra. induction xs as [|x xs IH]; intros acc ra Ha H; [now exists ra|].
  cbn [fold_left]. destruct (H x (or_introl eq_refl)) as [rx Hx].
  apply (IH _ (Z.min ra rx)); [now apply Math_min2_rank|].
  intros s Hs. apply H. now right.
Qed.

Lemma fold_max_number xs acc ra :
  rank acc = Some ra -> (forall s, In s xs -> exists r, rank s = Some r) ->
  exists m, rank (fold_left Math_max2 xs acc) = Some m.
Proof.
  revert acc ra. induction xs as [|x xs IH]; intros acc ra Ha H; [now exists ra|].
  cbn [fold_left]. destruct (H x (or_introl eq_refl)) as [rx Hx].
  apply (IH _ (Z.max ra rx)); [now apply Math_max2_rank|].
  intros s Hs. apply H. now right.
Qed.

(** The minimum and the maximum of a non-empty array without NaN are
    elements of the array, and every element lies between them. *)
Theorem extremes_bound_savings (savings : list float) :
  savings <> [] ->
  Forall (fun s => is_nan s = false) savings ->
  In (Math_min savings) savings /\
  In (Math_max savings) savings /\
  forall s, In s savings ->
    (Math_min savings <=? s)%float = true /\ (s <=? Math_max savings)%float = true.
Proof.
  intros Hne Hnum. pose proof (numbers_have_ranks savings Hnum) as Hr.
  assert (Hbig : 0 < big) by reflexivity.
  destruct (fold_min_number savings infinity big rank_infinity Hr) as [lo Hlo].
  destruct (fold_max_number savings neg_infinity (- big) rank_neg_infinity Hr) as [hi Hhi].
  destruct (fold_min_rank _ _ _ Hlo) as [_ Hmin].
  destruct (fold_max_rank _ _ _ Hhi) as [_ Hmax].
  fold (Math_min savings) in Hlo. fold (Math_max savings) in Hhi.
  destruct savings as [|s0 savings]; [congruence|].
  split; [|split].
  - destruct (fold_choice Math_min2 (s0 :: savings) infinity Math_min2_choice)
      as [E|[E|E]].
    + intros b. now apply Math_min2_nan_l.
    + fold (Math_min (s0 :: savings)) in E. rewrite E in Hlo. discriminate.
    + fold (Math_min (s0 :: savings)) in E.
      rewrite E in Hlo. rewrite rank_infinity in Hlo. injection Hlo as <-.
      destruct (Hmin s0 (or_introl eq_refl)) as (r & Hr0 & Hle).
      pose proof (rank_bounds _ _ Hr0). assert (r = big) as -> by lia.
      rewrite E. left. apply (rank_inj _ _ big); [exact Hr0|apply rank_infinity|lia].
    + exact E.
  - destruct (fold_choice Math_max2 (s0 :: savings) neg_infinity Math_max2_choice)
      as [E|[E|E]].
    + intros b. now apply Math_max2_nan_l.
    + fold (Math_max (s0 :: savings)) in E. rewrite E in Hhi. discriminate.
    + fold (Math_max (s0 :: savings)) in E.
      rewrite E in Hhi. rewrite rank_neg_infinity in Hhi. injection Hhi as <-.
      destruct (Hmax s0 (or_introl eq_refl)) as (r & Hr0 & Hle).
      pose proof (rank_bounds _ _ Hr0). assert (r = - big) as -> by lia.
      rewrite E. left. apply (rank_inj _ _ (- big)); [exact Hr0|apply rank_neg_infinity|lia].
    + exact E.
  - intros s Hs. destruct (Hmin s Hs) as (r1 & Hr1 & Hle1).
    destruct (Hmax s Hs) as (r2 & Hr2 & Hle2).
    rewrite !leb_rank, Hlo, Hhi, Hr1. split; apply Z.leb_le; [lia|].
    rewrite Hr1 in Hr2. injection Hr2 as <-. lia.
Qed.

Lemma extremes_bound_savings_witness :
  In (Math_min [3; 1; 2]%float) [3; 1; 2]%float /\
  (2 <=? Math_max [3; 1; 2]%float)%float = true.
Proof.
  destruct (extremes_bound_savings [3; 1; 2]%float) as (Hmin & _ & Hall).
  - discriminate.
  - repeat constructor.
  - split; [exact Hmin|]. apply Hall. right; right; left; reflexivity.
Defined.

(** ** Sorting a sorted array *)

Lemma insertSorted_last x xs :
  Forall (fun y => (x - y <? 0)%float = false) xs -> insertSorted x xs = xs ++ [x].
Proof.
  induction xs as [|y xs IH]; intros H; [reflexivity|].
  apply Forall_cons_iff in H as [Hy H]. cbn [insertSorted]. rewrite Hy.
  cbn [app]. f_equal. now apply IH.
Qed.

Lemma ascending_before xs x ys :
  ascending (xs ++ x :: ys) -> Forall (fun y => (y <=? x)%float = true) xs.
Proof.
  induction xs as [|y xs IH]; intros H; [constructor|].
  cbn [app] in H. apply StronglySorted_inv in H as [Hs Hy].
  constructor; [|now apply IH].
  rewrite List.Forall_forall in Hy. apply Hy. apply in_app_iff. right. now left.
Qed.

Lemma not_below x y :
  isFinite x = true -> isFinite y = true ->
  (y <=? x)%float = true -> (x - y <? 0)%float = false.
Proof.
  intros Hx Hy H. rewrite comparator_lt by assumption.
  rewrite leb_rank in H. rewrite ltb_rank.
  destruct (rank y) as [b|]; [|discriminate]. destruct (rank x) as [a|]; [|discriminate].
  apply Z.leb_le in H. apply Z.ltb_ge. exact H.
Qed.

Lemma sort_from_ascending xs sorted :
  Forall (fun y => isFinite y = true) (sorted ++ xs) ->
  ascending (sorted ++ xs) ->
  fold_left (fun sorted x => insertSorted x sorted) xs sorted = sorted ++ xs.
Proof.
  revert sorted. induction xs as [|x xs IH]; intros sorted Hfin Hasc.
  - now rewrite app_nil_r.
  - cbn [fold_left]. rewrite insertSorted_last.
    + rewrite IH; rewrite <- app_assoc; cbn [app]; [reflexivity|exact Hfin|exact Hasc].
    + pose proof (ascending_before _ _ _ Hasc) as Hb.
      rewrite List.Forall_forall in Hb, Hfin. apply List.Forall_forall. intros y Hy.
      apply not_below; [| |now apply Hb].
      * apply Hfin. apply in_app_iff. right. now left.
      * apply Hfin. apply in_app_iff. now left.
Qed.

(** Sorting leaves an ascending array of finite numbers as it is, so
    sorting twice is sorting once. *)
Theorem sort_keeps_sorted (xs : list float) :
  Forall (fun x => isFinite x = true) xs ->
  (ascending xs -> sort xs = xs) /\
  sort (sort xs) = sort xs.
Proof.
  intros Hfin.
  assert (H : forall ys, Forall (fun x => isFinite x = true) ys ->
                         ascending ys -> sort ys = ys).
  { intros ys Hf Ha. apply (sort_from_ascending ys []); assumption. }
  split; [now apply H|].
  apply H; [|now apply sort_ascending].
  rewrite (sort_perm xs). exact Hfin.
Qed.

Lemma sort_keeps_sorted_witness :
  sort (sort [30; 10; 20]%float) = sort [30; 10; 20]%float.
Proof.
  destruct (sort_keeps_sorted [30; 10; 20]%float) as [_ H]; [repeat constructor|exact H].
Defined.

(** ** A run without trials *)

(** Without the validator's gate a scenario with [trials <= 0] runs no
    trial: the savings are empty, the mean and [probPositive] are
    [0 / 0], the order statistics are [undefined], the minimum and the
    maximum are [Infinity] and [-Infinity], the standard deviation is
    [-0] (the square root of [0 / -1]), and the histogram has 40 empty
    bins. *)
Theorem run_without_trials (mathRandom : float) (scenario : Scenario) :
  trials scenario <= 0 ->
  let result := runFarmTypeSimulation mathRandom scenario in
  savings result = [] /\
  mean (stats result) = nan /\
  probPositive (stats result) = nan /\
  median (stats result) = None /\
  p10 (stats result) = None /\
  p90 (stats result) = None /\
  min (stats result) = infinity /\
  max (stats result) = neg_infinity /\
  std (stats result) = neg_zero /\
  map count (createHistogramData (savings result)) = repeat O 40.
Proof.
  intros Ht. cbn zeta. unfold runFarmTypeSimulation, simulateSavings.
  replace (Z.to_nat (trials scenario)) with O by lia.
  cbn [trialLoop fst savings stats]. repeat split; reflexivity.
Qed.

Lemma run_without_trials_witness :
  savings (runFarmTypeSimulation 0 noTrials) = [] /\
  std (stats (runFarmTypeSimulation 0 noTrials)) = neg_zero.
Proof.
  destruct (run_without_trials 0 noTrials)
    as (Hs & _ & _ & _ & _ & _ & _ & _ & H & _); [cbn; lia|].
  split; [exact Hs|exact H].
Defined.

(** * Further properties of the validator *)

(** The validator accepts a scenario exactly when none of its checks
    fails. *)
Theorem accepts_iff_no_check_fails (scenario : Scenario) :
  validateScenario scenario = true <-> forall c, failed scenario c = false.
Proof.
  split.
  - intros H c. apply validateScenario_empty in H.
    destruct (failed scenario c) eqn:E; [|reflexivity].
    apply every_failed_check_reported in E. rewrite H, lookup_empty in E.
    now destruct E.
  - intros H. unfold validateScenario. apply bool_decide_eq_true.
    apply map_size_empty_iff, map_empty. intros k.
    destruct (newErrors scenario !! k) as [v|] eqn:E; [|reflexivity].
    destruct (every_report_is_a_failed_check scenario k) as (c & Hc & _);
      [now rewrite E|].
    rewrite H in Hc. discriminate.
Qed.

(** ** The entries of the scalar fields *)

Lemma report_lookup_other c k v (e : gmap string Message) k' :
  k <> k' -> report c k v e !! k' = e !! k'.
Proof. intros H. unfold report. destruct c; [now apply lookup_insert_ne|reflexivity]. Qed.

Lemma report_lookup c k v (e : gmap string Message) :
  report c k v e !! k = if c then Some v else e !! k.
Proof. unfold report. destruct c; [apply lookup_insert_eq|reflexivity]. Qed.

Lemma checkFarmType_lookup_other ft idx (e : gmap string Message) k :
  (forall i f, farmTypeKey i f <> k) -> checkFarmType ft idx e !! k = e !! k.
Proof.
  intros H. unfold checkFarmType. now rewrite !report_lookup_other by apply H.
Qed.

Lemma forEachFarmType_lookup_other fts idx (e : gmap string Message) k :
  (forall i f, farmTypeKey i f <> k) -> forEachFarmType fts idx e !! k = e !! k.
Proof.
  intros H. revert idx e. induction fts as [|ft fts IH]; intros idx e; [reflexivity|].
  cbn [forEachFarmType]. rewrite IH. now apply checkFarmType_lookup_other.
Qed.

Lemma farmTypeKey_prefix i f : exists rest, farmTypeKey i f = "farmType_" +:+ rest.
Proof. now exists (pretty i +:+ "_" +:+ f). Qed.

Ltac not_a_farm_type_key :=
  let i := fresh "i" in let f := fresh "f" in let rest := fresh "rest" in
  let E := fresh "E" in
  intros i f; destruct (farmTypeKey_prefix i f) as [rest E]; rewrite E;
  cbn; discriminate.

(** The entry of each scalar field is decided by the checks on that
    field alone.  [minNewFarms] is used by two checks: when the minimum
    exceeds the maximum that message is the one stored, also when the
    minimum is not positive.  The entry of [farmTypes] is there exactly
    when the form shows its share warning, and carries the sum of the
    shares. *)
Theorem scalar_field_messages (scenario : Scenario) :
  let e := newErrors scenario in
  e !! "lastYearCost" =
    (if (lastYearCost scenario <=? 0)%float then Some MustBeGreaterThan0 else None) /\
  e !! "lastYearFarms" =
    (if lastYearFarms scenario <=? 0 then Some MustBeGreaterThan0 else None) /\
  e !! "minNewFarms" =
    (if maxNewFarms scenario <? minNewFarms scenario then Some MinFarmsExceedMax
     else if minNewFarms scenario <=? 0 then Some MustBeGreaterThan0 else None) /\
  e !! "maxNewFarms" =
    (if maxNewFarms scenario <=? 0 then Some MustBeGreaterThan0 else None) /\
  e !! "trials" =
    (if (trials scenario <=? 0) || (200000 <? trials scenario)
     then Some MustBeBetween1And200000 else None) /\
  e !! "farmTypes" =
    (if shareWarning (farmTypes scenario)
     then Some (SharesMustSum (totalShare (farmTypes scenario))) else None).
Proof.
  cbn zeta. unfold newErrors, shareWarning.
  repeat split; rewrite forEachFarmType_lookup_other by not_a_farm_type_key;
    repeat first
      [ rewrite report_lookup
      | rewrite report_lookup_other by discriminate ];
    rewrite ?lookup_empty; reflexivity.
Qed.

(** ** A cost that is not a number *)

Lemma sub_nan_l x : (nan - x)%float = nan.
Proof.
  apply Prim2SF_inj. rewrite sub_spec. change (Prim2SF nan) with S754_nan. reflexivity.
Qed.

Lemma trial_nan_cost scenario su state :
  lastYearCost scenario = nan -> fst (trial scenario su state) = nan.
Proof.
  intros Hc. unfold trial. destruct (integers _ _ _) as [nFarms st1].
  destruct (farmLoop _ _ _ _ _) as [p st2]. cbn [fst]. rewrite Hc. apply sub_nan_l.
Qed.

(** The validator never reports a cost that is NaN ([NaN <= 0] is
    false), and then every trial's savings are NaN. *)
Theorem nan_cost_is_not_reported (mathRandom : float) (scenario : Scenario) :
  lastYearCost scenario = nan ->
  newErrors scenario !! "lastYearCost" = None /\
  failed scenario LastYearCostPositive = false /\
  forall i : nat, Z.of_nat i < trials scenario ->
    nth_error (savings (runFarmTypeSimulation mathRandom scenario)) i = Some nan.
Proof.
  intros Hc. split; [|split].
  - unfold newErrors. rewrite forEachFarmType_lookup_other by not_a_farm_type_key.
    rewrite !report_lookup_other by discriminate.
    rewrite report_lookup, Hc. reflexivity.
  - cbn [failed]. now rewrite Hc.
  - intros i Hi. unfold runFarmTypeSimulation, simulateSavings. cbn [savings].
    pose proof (trialLoop_nth (Z.to_nat (trials scenario)) scenario
                  (setup scenario) [] (createRNG (Some 42%float) mathRandom) i
                  ltac:(lia)) as Hnth.
    cbn [length Nat.add] in Hnth. rewrite Hnth. f_equal. now apply trial_nan_cost.
Qed.

Lemma nan_cost_is_not_reported_witness :
  validateScenario nanCost = true /\
  nth_error (savings (runFarmTypeSimulation 0 nanCost)) 99 = Some nan.
Proof.
  split; [vm_compute; reflexivity|].
  destruct (nan_cost_is_not_reported 0 nanCost) as (_ & _ & H); [reflexivity|].
  apply H. reflexivity.
Defined.

(** * The handlers of the form *)

(** ** Lists of ids *)

Lemma maxId_fold ids i m :
  fold_left Z.max ids i = m -> i <= m /\ forall j, j ∈ ids -> j <= m.
Proof.
  revert i. induction ids as [|k ids IH]; intros i H; cbn [fold_left] in H.
  - subst m. split; [lia|]. intros j Hj. now apply elem_of_nil in Hj.
  - apply IH in H as [H1 H2]. split; [lia|].
    intros j Hj. apply elem_of_cons in Hj as [->|Hj]; [lia|now apply H2].
Qed.

Lemma maxId_bound ids m : maxId ids = Some m -> forall j, j ∈ ids -> j <= m.
Proof.
  destruct ids as [|i ids]; [discriminate|]. cbn [maxId]. intros H. injection H as H.
  apply maxId_fold in H as [H1 H2].
  intros j Hj. apply elem_of_cons in Hj as [->|Hj]; [exact H1|now apply H2].
Qed.

Lemma maxId_some ids : ids <> [] -> exists m, maxId ids = Some m.
Proof. destruct ids as [|i ids]; [congruence|]. intros _. now eexists. Qed.

Lemma fresh_id ids m : maxId ids = Some m -> NoDup ids -> NoDup (ids ++ [m + 1]).
Proof.
  intros Hm Hnd. apply NoDup_app. split; [exact Hnd|]. split.
  - intros j Hj Hin. apply list_elem_of_singleton in Hin. subst j.
    pose proof (maxId_bound _ _ Hm _ Hj). lia.
  - apply NoDup_singleton.
Qed.

(** ** The active scenario *)

Lemma find_active l i :
  i ∈ map sid l ->
  exists a, find (fun s => sid s =? i) l = Some a /\ a ∈ l /\ sid a = i.
Proof.
  induction l as [|s l IH]; cbn [map find]; intros H.
  - now apply elem_of_nil in H.
  - destruct (Z.eqb_spec (sid s) i) as [E|NE].
    + exists s. split; [reflexivity|]. split; [left|exact E].
    + apply elem_of_cons in H as [H|H]; [congruence|].
      destruct (IH H) as (a & Hf & Ha & Hi). exists a.
      split; [exact Hf|]. split; [now right|exact Hi].
Qed.

Lemma active_exists app :
  wellFormed app ->
  exists a, activeScenario app = Some a /\ a ∈ scenarios app /\
            sid a = activeScenarioId app /\ wellFormedScenario a.
Proof.
  intros (_ & Hin & Hall). destruct (find_active _ _ Hin) as (a & Hf & Ha & Hi).
  exists a. split; [exact Hf|]. split; [exact Ha|]. split; [exact Hi|].
  rewrite Forall_forall in Hall. now apply Hall.
Qed.

(** ** [updateScenario] *)

Lemma update_ids (f : SavedScenario -> SavedScenario) i l :
  (forall s, sid (f s) = sid s) ->
  map sid (map (fun s => if sid s =? i then f s else s) l) = map sid l.
Proof.
  intros Hf. induction l as [|s l IH]; [reflexivity|].
  cbn [map]. rewrite IH. f_equal. destruct (sid s =? i); [apply Hf|reflexivity].
Qed.

Lemma update_find (f : SavedScenario -> SavedScenario) i l a :
  (forall s, sid (f s) = sid s) ->
  find (fun s => sid s =? i) l = Some a ->
  find (fun s => sid s =? i) (map (fun s => if sid s =? i then f s else s) l) = Some (f a).
Proof.
  intros Hf. induction l as [|s l IH]; cbn [map find]; [discriminate|].
  destruct (sid s =? i) eqn:E.
  - rewrite Hf, E. intros H. injection H as ->. reflexivity.
  - rewrite E. exact IH.
Qed.

Lemma update_forall (P : SavedScenario -> Prop) (f : SavedScenario -> SavedScenario) i l :
  Forall P l -> (forall s, s ∈ l -> sid s = i -> P s -> P (f s)) ->
  Forall P (map (fun s => if sid s =? i then f s else s) l).
Proof.
  intros Hall Hf. induction l as [|s l IH]; [constructor|].
  apply Forall_cons in Hall as [Hs Hall]. cbn [map]. constructor.
  - destruct (Z.eqb_spec (sid s) i) as [E|NE]; [|exact Hs].
    apply Hf; [left|exact E|exact Hs].
  - apply IH; [exact Hall|]. intros s' Hs'. apply Hf. now right.
Qed.

Lemma updateScenario_wellFormed updates app :
  wellFormed app ->
  (forall fts, set_farmTypes updates = Some fts -> fts <> [] /\ NoDup (map id fts)) ->
  wellFormed (updateScenario updates app).
Proof.
  intros (Hnd & Hin & Hall) Hfts. unfold wellFormed, updateScenario.
  cbn [scenarios activeScenarioId setScenarios].
  rewrite (update_ids (fun s => spread s updates)) by reflexivity.
  split; [exact Hnd|]. split; [exact Hin|].
  apply update_forall; [exact Hall|].
  intros s _ _ Hs. unfold wellFormedScenario, spread. cbn [inputs farmTypes].
  destruct (set_farmTypes updates) as [fts|]; [now apply Hfts|exact Hs].
Qed.

Lemma updateScenario_active updates app a :
  activeScenario app = Some a ->
  activeScenario (updateScenario updates app) = Some (spread a updates).
Proof.
  unfold activeScenario, updateScenario. cbn [scenarios activeScenarioId setScenarios].
  now apply update_find.
Qed.

(** ** The farm types *)

Lemma setField_ids typeId fv fts :
  map id (map (fun ft => if id ft =? typeId then setField ft fv else ft) fts) = map id fts.
Proof.
  induction fts as [|ft fts IH]; [reflexivity|]. cbn [map]. rewrite IH. f_equal.
  destruct (id ft =? typeId); [now destruct fv|reflexivity].
Qed.

Lemma filter_ids_NoDup typeId (fts : list FarmType) :
  NoDup (map id fts) ->
  NoDup (map id (filter (fun ft => negb (id ft =? typeId)) fts)).
Proof.
  induction fts as [|ft fts IH]; intros H; [constructor|].
  cbn [map] in H. apply NoDup_cons in H as [Hnot Hnd].
  rewrite filter_cons. destruct (decide _); [|now apply IH].
  cbn [map]. apply NoDup_cons. split; [|now apply IH].
  intros Hin. apply Hnot. apply list_elem_of_fmap in Hin as (ft' & Hid & Hin).
  apply list_elem_of_filter in Hin as [_ Hin].
  apply list_elem_of_fmap. now exists ft'.
Qed.

Lemma filter_keeps_one typeId (fts : list FarmType) :
  NoDup (map id fts) -> (2 <= length fts)%nat ->
  filter (fun ft => negb (id ft =? typeId)) fts <> [].
Proof.
  intros Hnd Hlen. destruct fts as [|a [|b fts]]; cbn [length] in Hlen; try lia.
  cbn [map] in Hnd. apply NoDup_cons in Hnd as [Hab _].
  assert (Hne : id a <> id b) by (intros E; apply Hab; rewrite E; left).
  rewrite filter_cons. destruct (decide _) as [Ha|Ha]; [discriminate|].
  rewrite filter_cons. destruct (decide _) as [Hb|Hb]; [discriminate|].
  exfalso. apply Is_true_false in Ha, Hb. apply negb_false_iff in Ha, Hb.
  apply Z.eqb_eq in Ha, Hb. congruence.
Qed.

(** ** The scenarios *)

Lemma filter_sids_NoDup scenarioId (l : list SavedScenario) :
  NoDup (map sid l) ->
  NoDup (map sid (filter (fun s => negb (sid s =? scenarioId)) l)).
Proof.
  induction l as [|s l IH]; intros H; [constructor|].
  cbn [map] in H. apply NoDup_cons in H as [Hnot Hnd].
  rewrite filter_cons. destruct (decide _); [|now apply IH].
  cbn [map]. apply NoDup_cons. split; [|now apply IH].
  intros Hin. apply Hnot. apply list_elem_of_fmap in Hin as (s' & Hid & Hin).
  apply list_elem_of_filter in Hin as [_ Hin].
  apply list_elem_of_fmap. now exists s'.
Qed.

Lemma filter_sid_elem scenarioId (l : list SavedScenario) i :
  i ∈ map sid l -> i <> scenarioId ->
  i ∈ map sid (filter (fun s => negb (sid s =? scenarioId)) l).
Proof.
  intros Hin Hne. apply list_elem_of_fmap in Hin as (s & -> & Hs).
  apply list_elem_of_fmap. exists s. split; [reflexivity|].
  apply list_elem_of_filter. split; [|exact Hs].
  apply Is_true_true, negb_true_iff, Z.eqb_neq. exact Hne.
Qed.

Lemma find_other scenarioId (l : list SavedScenario) :
  NoDup (map sid l) -> (2 <= length l)%nat ->
  exists s, find (fun s => negb (sid s =? scenarioId)) l = Some s /\
            s ∈ l /\ sid s <> scenarioId.
Proof.
  intros Hnd Hlen. destruct l as [|a [|b l]]; cbn [length] in Hlen; try lia.
  cbn [map] in Hnd. apply NoDup_cons in Hnd as [Hab _].
  assert (Hne : sid a <> sid b) by (intros E; apply Hab; rewrite E; left).
  cbn [find]. destruct (Z.eqb_spec (sid a) scenarioId) as [Ea|Na]; cbn [negb].
  - destruct (Z.eqb_spec (sid b) scenarioId) as [Eb|Nb]; cbn [negb]; [congruence|].
    exists b. split; [reflexivity|]. split; [right; left|exact Nb].
  - exists a. split; [reflexivity|]. split; [left|exact Na].
Qed.

(** ** Every handler keeps the state well formed *)

Lemma handle_wellFormed mathRandom ev app :
  wellFormed app ->
  exists app', handle mathRandom ev app = Some app' /\ wellFormed app'.
Proof.
  intros Hwf. pose proof Hwf as (Hnd & Hin & Hall).
  destruct (active_exists app Hwf) as (a & Hact & Ha & Hid & Hne & Hfnd).
  destruct ev; cbn [handle];
    try (eexists; split; [reflexivity|];
         apply updateScenario_wellFormed; [exact Hwf|discriminate]).
  - (* SelectTab *)
    destruct (nth_error (scenarios app) tab) as [s|] eqn:E; eexists;
      (split; [reflexivity|]); [|exact Hwf].
    split; [exact Hnd|]. split; [|exact Hall].
    cbn [activeScenarioId scenarios setActiveScenarioId].
    apply list_elem_of_fmap. exists s. split; [reflexivity|].
    apply list_elem_of_In. now apply nth_error_In in E.
  - (* EditFarmType *)
    unfold updateFarmType. rewrite Hact. eexists. split; [reflexivity|].
    apply updateScenario_wellFormed; [exact Hwf|].
    intros fts E. injection E as <-. split.
    + destruct (farmTypes (inputs a)); [congruence|discriminate].
    + now rewrite setField_ids.
  - (* AddFarmType *)
    unfold addFarmType. rewrite Hact.
    destruct (maxId_some (map id (farmTypes (inputs a)))) as [m Hm].
    { destruct (farmTypes (inputs a)); [congruence|discriminate]. }
    rewrite Hm. eexists. split; [reflexivity|].
    apply updateScenario_wellFormed; [exact Hwf|].
    intros fts E. injection E as <-. split.
    + destruct (farmTypes (inputs a)); discriminate.
    + rewrite map_app. cbn [map id newType]. now apply fresh_id.
  - (* DeleteFarmType *)
    unfold deleteFarmType. rewrite Hact.
    destruct (Nat.leb_spec (length (farmTypes (inputs a))) 1);
      eexists; (split; [reflexivity|]); [exact Hwf|].
    apply updateScenario_wellFormed; [exact Hwf|].
    intros fts E. injection E as <-. split.
    + apply filter_keeps_one; [exact Hfnd|lia].
    + now apply filter_ids_NoDup.
  - (* DuplicateScenario *)
    unfold duplicateScenario. rewrite Hact.
    destruct (maxId_some (map sid (scenarios app))) as [m Hm].
    { intros E. rewrite E in Hin. now apply elem_of_nil in Hin. }
    rewrite Hm. eexists. split; [reflexivity|].
    unfold wellFormed. cbn [scenarios activeScenarioId setActiveScenarioId setScenarios].
    rewrite map_app. cbn [map sid]. split; [now apply fresh_id|]. split.
    + apply elem_of_app. right. left.
    + apply Forall_app. split; [exact Hall|]. constructor; [|constructor].
      unfold wellFormedScenario. cbn [inputs farmTypes]. rewrite map_id.
      split; [exact Hne|exact Hfnd].
  - (* DeleteScenario *)
    unfold deleteScenario.
    destruct (Nat.leb_spec (length (scenarios app)) 1);
      [eexists; split; [reflexivity|exact Hwf]|].
    assert (Hall' : Forall wellFormedScenario
                      (filter (fun s => negb (sid s =? scenarioId)) (scenarios app))).
    { apply Forall_forall. intros s Hs. apply list_elem_of_filter in Hs as [_ Hs].
      rewrite Forall_forall in Hall. now apply Hall. }
    destruct (Z.eqb_spec (activeScenarioId app) scenarioId) as [E|NE].
    + destruct (find_other scenarioId (scenarios app) Hnd) as (s & Hf & Hs & Hsne); [lia|].
      rewrite Hf. eexists. split; [reflexivity|].
      unfold wellFormed. cbn [scenarios activeScenarioId setActiveScenarioId setScenarios].
      split; [now apply filter_sids_NoDup|]. split; [|exact Hall'].
      apply filter_sid_elem; [|exact Hsne].
      apply list_elem_of_fmap. now exists s.
    + eexists. split; [reflexivity|].
      unfold wellFormed. cbn [scenarios activeScenarioId setScenarios].
      split; [now apply filter_sids_NoDup|]. split; [|exact Hall'].
      now apply filter_sid_elem.
  - (* ToggleCompare *)
    eexists. split; [reflexivity|exact Hwf].
  - (* RunSimulation *)
    unfold handleRunSimulation. rewrite Hact.
    destruct (validateScenario (inputs a)); cbn [negb];
      eexists; (split; [reflexivity|]); [|exact Hwf].
    unfold wellFormed.
    cbn [scenarios activeScenarioId setScenarios setIsRunning setErrors].
    rewrite (update_ids (fun s => {| sid := sid s; sname := sname s; inputs := inputs s;
                                     results := _ |})) by reflexivity.
    split; [exact Hnd|]. split; [exact Hin|].
    apply update_forall; [exact Hall|]. intros s _ _ Hs. exact Hs.
Qed.

Lemma initialApp_wellFormed : wellFormed initialApp.
Proof.
  split; [|split].
  - cbn. apply NoDup_singleton.
  - cbn. left.
  - repeat constructor; cbn; try discriminate.
    all: try (intros H; repeat (apply elem_of_cons in H as [H|H]; [discriminate|]);
              now apply elem_of_nil in H).
Qed.



(** ** Adding a farm type *)

Lemma SFadd_not_neg_zero x y :
  valid_binary x = true -> valid_binary y = true ->
  x <> S754_zero true -> SFadd prec emax x y <> S754_zero true.
Proof.
  intros Vx Vy Hx.
  destruct x as [sx|sx| |sx mx ex], y as [sy|sy| |sy my ey]; cbn [SFadd];
    try discriminate; try (destruct sx, sy; cbn; congruence).
  apply valid_finite in Vx as (Hex & _). apply valid_finite in Vy as (Hey & _).
  set (d := _ + _).
  pose proof (binary_normalize_sign d (Z.min ex ey) ltac:(lia)) as Hn.
  destruct d as [|p|p]; [rewrite Hn; discriminate| |];
    destruct Hn as [Hn|(m' & e' & Hn)]; rewrite Hn; discriminate.
Qed.

Lemma sum_not_neg_zero (g : FarmType -> float) fts acc :
  Prim2SF acc <> S754_zero true ->
  Prim2SF (fold_left (fun sum ft => (sum + g ft)%float) fts acc) <> S754_zero true.
Proof.
  revert acc. induction fts as [|ft fts IH]; intros acc H; [exact H|].
  cbn [fold_left]. apply IH. rewrite add_spec.
  apply SFadd_not_neg_zero; [apply Prim2SF_valid|apply Prim2SF_valid|exact H].
Qed.

Lemma add_zero_r x : Prim2SF x <> S754_zero true -> (x + 0)%float = x.
Proof.
  intros H. apply Prim2SF_inj. rewrite add_spec.
  change (Prim2SF 0) with (S754_zero false).
  destruct (Prim2SF x) as [[]| | |]; try reflexivity. congruence.
Qed.

Lemma totalShare_newType fts newId :
  totalShare (fts ++ [newType newId]) = totalShare fts.
Proof.
  unfold totalShare. rewrite fold_left_app. cbn [fold_left sharePercent newType].
  apply add_zero_r. apply sum_not_neg_zero. discriminate.
Qed.

Lemma forEachFarmType_app l1 l2 idx (e : gmap string Message) :
  forEachFarmType (l1 ++ l2) idx e =
  forEachFarmType l2 (idx + length l1) (forEachFarmType l1 idx e).
Proof.
  revert idx e. induction l1 as [|ft l1 IH]; intros idx e.
  - cbn [app length forEachFarmType]. now rewrite Nat.add_0_r.
  - cbn [app length forEachFarmType]. rewrite IH. f_equal. lia.
Qed.

Lemma newErrors_newType scenario newId :
  newErrors {| lastYearCost := lastYearCost scenario;
               lastYearFarms := lastYearFarms scenario;
               minNewFarms := minNewFarms scenario;
               maxNewFarms := maxNewFarms scenario;
               trials := trials scenario;
               farmTypes := farmTypes scenario ++ [newType newId] |} =
  newErrors scenario.
Proof.
  unfold newErrors.
  cbn [lastYearCost lastYearFarms minNewFarms maxNewFarms trials farmTypes].
  rewrite totalShare_newType, forEachFarmType_app. reflexivity.
Qed.

(** [addFarmType] appends a type whose id is above every id of the
    scenario, and changes nothing the validator reports: the new type
    has share 0 and discounts 0, so the sum of the shares and every
    check come out as before. *)
Theorem adding_a_type_changes_no_error (app : App) :
  wellFormed app ->
  exists a a' app' newId,
    activeScenario app = Some a /\
    addFarmType app = Some app' /\
    activeScenario app' = Some a' /\
    farmTypes (inputs a') = farmTypes (inputs a) ++ [newType newId] /\
    (forall ft, ft ∈ farmTypes (inputs a) -> id ft < newId) /\
    totalShare (farmTypes (inputs a')) = totalShare (farmTypes (inputs a)) /\
    newErrors (inputs a') = newErrors (inputs a) /\
    validateScenario (inputs a') = validateScenario (inputs a).
Proof.
  intros Hwf. destruct (active_exists app Hwf) as (a & Hact & Ha & Hid & Hne & Hfnd).
  destruct (maxId_some (map id (farmTypes (inputs a)))) as [m Hm].
  { destruct (farmTypes (inputs a)); [congruence|discriminate]. }
  exists a, (spread a (farmTypesUpdate (farmTypes (inputs a) ++ [newType (m + 1)]))).
  eexists. exists (m + 1).
  split; [exact Hact|]. split; [unfold addFarmType; rewrite Hact, Hm; reflexivity|].
  split; [now apply updateScenario_active|]. split; [reflexivity|]. split.
  - intros ft Hft. pose proof (maxId_bound _ _ Hm (id ft)) as Hb.
    assert (id ft <= m); [|lia]. apply Hb. apply list_elem_of_fmap. now exists ft.
  - split.
    { cbn [spread inputs farmTypes farmTypesUpdate set_farmTypes default].
      apply totalShare_newType. }
    assert (E : newErrors (inputs (spread a (farmTypesUpdate
                  (farmTypes (inputs a) ++ [newType (m + 1)])))) = newErrors (inputs a))
      by apply newErrors_newType.
    split; [exact E|]. unfold validateScenario. now rewrite E.
Qed.

Lemma adding_a_type_changes_no_error_witness :
  exists app' a',
    addFarmType initialApp = Some app' /\
    activeScenario app' = Some a' /\
    farmTypes (inputs a') = defaultFarmTypes ++ [newType 5] /\
    validateScenario (inputs a') = true.
Proof.
  destruct (adding_a_type_changes_no_error initialApp initialApp_wellFormed)
    as (a & a' & app' & newId & Hact & Hadd & Hact' & Hfts & Hid & Hts & He & Hv).
  exists app', a'. split; [exact Hadd|]. split; [exact Hact'|].
  cbv in Hact. injection Hact as <-. cbv in Hadd. injection Hadd as <-.
  cbv in Hact'. injection Hact' as <-. split; [reflexivity|].
  vm_compute. reflexivity.
Defined.

(** ** Deleting a farm type *)

Lemma filter_length_ids typeId (fts : list FarmType) :
  NoDup (map id fts) ->
  (length fts <= S (length (filter (fun ft => negb (id ft =? typeId)%Z) fts)))%nat.
Proof.
  induction fts as [|ft fts IH]; intros H; [cbn; lia|].
  cbn [map] in H. apply NoDup_cons in H as [Hnot Hnd].
  rewrite filter_cons. destruct (decide _) as [Hk|Hk].
  - cbn [length]. specialize (IH Hnd). lia.
  - apply Is_true_false, negb_false_iff, Z.eqb_eq in Hk.
    assert (E : filter (fun ft => negb (id ft =? typeId)) fts = fts).
    { clear IH Hnd. induction fts as [|ft' fts IH']; [reflexivity|].
      rewrite filter_cons. destruct (decide _) as [Hk'|Hk'].
      - f_equal. apply IH'. intros Hin. apply Hnot. cbn [map]. now right.
      - exfalso. apply Is_true_false, negb_false_iff, Z.eqb_eq in Hk'.
        apply Hnot. cbn [map]. rewrite Hk, <- Hk'. left. }
    rewrite E. cbn [length]. lia.
Qed.

Lemma spread_farmTypes a fts :
  farmTypes (inputs (spread a (farmTypesUpdate fts))) = fts.
Proof. reflexivity. Qed.

(** [deleteFarmType] never leaves the scenario without a farm type:
    the last one is kept, with an alert; otherwise the types with that
    id are removed, which is at most one of them. *)
Theorem deleting_keeps_a_farm_type (typeId : Z) (app : App) :
  wellFormed app ->
  exists a a' app',
    activeScenario app = Some a /\
    deleteFarmType typeId app = Some app' /\
    activeScenario app' = Some a' /\
    farmTypes (inputs a') <> [] /\
    ((length (farmTypes (inputs a)) <= 1)%nat ->
     app' = alert "Must have at least one farm type" app) /\
    ((1 < length (farmTypes (inputs a)))%nat ->
     alerts app' = alerts app /\
     (forall ft, ft ∈ farmTypes (inputs a') <->
                 ft ∈ farmTypes (inputs a) /\ id ft <> typeId) /\
     (length (farmTypes (inputs a)) <= S (length (farmTypes (inputs a'))))%nat).
Proof.
  intros Hwf. destruct (active_exists app Hwf) as (a & Hact & Ha & Hid & Hne & Hfnd).
  exists a. unfold deleteFarmType. rewrite Hact.
  destruct (Nat.leb_spec (length (farmTypes (inputs a))) 1) as [Hlen|Hlen].
  - exists a. eexists. split; [reflexivity|]. split; [reflexivity|].
    split; [exact Hact|]. split; [exact Hne|]. split; [reflexivity|lia].
  - eexists. eexists. split; [reflexivity|]. split; [reflexivity|].
    split; [exact (updateScenario_active _ _ _ Hact)|].
    rewrite !spread_farmTypes.
    split; [apply filter_keeps_one; [exact Hfnd|lia]|]. split; [lia|].
    intros _. split; [reflexivity|]. split; [|now apply filter_length_ids].
    intros ft. rewrite list_elem_of_filter. split.
    + intros [Hk Hin]. split; [exact Hin|].
      apply Is_true_true, negb_true_iff, Z.eqb_neq in Hk. exact Hk.
    + intros [Hin Hk]. split; [|exact Hin].
      apply Is_true_true, negb_true_iff, Z.eqb_neq. exact Hk.
Qed.

Lemma deleting_keeps_a_farm_type_witness :
  exists a' app',
    deleteFarmType 2 initialApp = Some app' /\
    activeScenario app' = Some a' /\
    map id (farmTypes (inputs a')) = [1; 3; 4].
Proof.
  destruct (deleting_keeps_a_farm_type 2 initialApp initialApp_wellFormed)
    as (a & a' & app' & Hact & Hdel & Hact' & _).
  exists a', app'. split; [exact Hdel|]. split; [exact Hact'|].
  cbv in Hdel. injection Hdel as <-. cbv in Hact'. injection Hact' as <-. reflexivity.
Defined.

(** ** Duplicating and deleting scenarios *)

Lemma find_fresh (l : list SavedScenario) copy :
  sid copy ∉ map sid l ->
  find (fun s => sid s =? sid copy) (l ++ [copy]) = Some copy.
Proof.
  induction l as [|s l IH]; intros H; cbn [app find].
  - now rewrite Z.eqb_refl.
  - cbn [map] in H. apply not_elem_of_cons in H as [Hne H].
    destruct (Z.eqb_spec (sid s) (sid copy)) as [E|_]; [congruence|]. now apply IH.
Qed.

Lemma inputs_copy (scenario : Scenario) :
  {| lastYearCost := lastYearCost scenario; lastYearFarms := lastYearFarms scenario;
     minNewFarms := minNewFarms scenario; maxNewFarms := maxNewFarms scenario;
     trials := trials scenario;
     farmTypes := map (fun ft => ft) (farmTypes scenario) |} = scenario.
Proof. destruct scenario. cbn. now rewrite map_id. Qed.

(** [duplicateScenario] appends a copy of the active scenario and
    makes it the active one: the copy has a new id, the name with
    " (copy)" added, the same inputs (so the same simulation) and no
    results. *)
Theorem duplicate_is_a_fresh_copy (app : App) :
  wellFormed app ->
  exists a copy app',
    activeScenario app = Some a /\
    duplicateScenario app = Some app' /\
    scenarios app' = scenarios app ++ [copy] /\
    activeScenario app' = Some copy /\
    (sid copy ∉ map sid (scenarios app)) /\
    sname copy = sname a +:+ " (copy)" /\
    inputs copy = inputs a /\
    results copy = None /\
    forall mathRandom,
      runFarmTypeSimulation mathRandom (inputs copy) =
      runFarmTypeSimulation mathRandom (inputs a).
Proof.
  intros Hwf. pose proof Hwf as (Hnd & Hin & Hall).
  destruct (active_exists app Hwf) as (a & Hact & Ha & Hid & Hne & Hfnd).
  destruct (maxId_some (map sid (scenarios app))) as [m Hm].
  { intros E. rewrite E in Hin. now apply elem_of_nil in Hin. }
  assert (Hfresh : m + 1 ∉ map sid (scenarios app)).
  { intros Hi. pose proof (maxId_bound _ _ Hm _ Hi). lia. }
  exists a. eexists. eexists.
  split; [exact Hact|]. unfold duplicateScenario. rewrite Hm, Hact.
  split; [reflexivity|]. split; [reflexivity|].
  split; [|split; [exact Hfresh|]].
  - unfold activeScenario. cbn [scenarios activeScenarioId setActiveScenarioId setScenarios].
    apply (find_fresh (scenarios app)
             {| sid := m + 1; sname := _; inputs := _; results := None |}).
    exact Hfresh.
  - cbn [sname inputs results]. rewrite inputs_copy. repeat split; reflexivity.
Qed.

Lemma duplicate_is_a_fresh_copy_witness :
  exists copy app',
    duplicateScenario initialApp = Some app' /\
    activeScenario app' = Some copy /\
    sid copy = 2 /\ sname copy = "Base Case (copy)" /\ inputs copy = baseCase.
Proof.
  destruct (duplicate_is_a_fresh_copy initialApp initialApp_wellFormed)
    as (a & copy & app' & Hact & Hdup & _ & Hact' & _).
  exists copy, app'. split; [exact Hdup|]. split; [exact Hact'|].
  cbv in Hdup. injection Hdup as <-. cbv in Hact'. injection Hact' as <-.
  repeat split; reflexivity.
Defined.

(** [deleteScenario] never removes the last scenario (it alerts
    instead) and never leaves the active id without a scenario: when
    the active scenario is the one deleted, another one becomes
    active. *)
Theorem deleting_a_scenario_keeps_one_active (scenarioId : Z) (app : App) :
  wellFormed app ->
  exists a' app',
    deleteScenario scenarioId app = Some app' /\
    activeScenario app' = Some a' /\
    ((length (scenarios app) <= 1)%nat ->
     app' = alert "Must have at least one scenario" app) /\
    ((1 < length (scenarios app))%nat ->
     sid a' <> scenarioId /\
     (forall s, s ∈ scenarios app' <-> s ∈ scenarios app /\ sid s <> scenarioId) /\
     (activeScenarioId app <> scenarioId ->
      activeScenarioId app' = activeScenarioId app)).
Proof.
  intros Hwf.
  destruct (handle_wellFormed 0 (DeleteScenario scenarioId) app Hwf) as (app' & Hh & Hwf').
  cbn [handle] in Hh.
  destruct (active_exists app' Hwf') as (a' & Hact' & Ha' & Hid' & _).
  exists a', app'. split; [exact Hh|]. split; [exact Hact'|].
  pose proof Hwf as (Hnd & Hin & _).
  unfold deleteScenario in Hh.
  destruct (Nat.leb_spec (length (scenarios app)) 1) as [Hlen|Hlen].
  - injection Hh as <-. split; [reflexivity|lia].
  - split; [lia|]. intros _.
    assert (Hfilter : scenarios app' =
                      filter (fun s => negb (sid s =? scenarioId)) (scenarios app)).
    { destruct (activeScenarioId app =? scenarioId);
        [destruct (find _ _); [|discriminate]|]; injection Hh as <-; reflexivity. }
    assert (Hmem : forall s, s ∈ scenarios app' <->
                             s ∈ scenarios app /\ sid s <> scenarioId).
    { intros s. rewrite Hfilter, list_elem_of_filter. split.
      - intros [Hk Hs]. split; [exact Hs|].
        apply Is_true_true, negb_true_iff, Z.eqb_neq in Hk. exact Hk.
      - intros [Hs Hk]. split; [|exact Hs].
        apply Is_true_true, negb_true_iff, Z.eqb_neq. exact Hk. }
    split; [now apply Hmem in Ha' as [_ Hne]|]. split; [exact Hmem|].
    intros Hne. apply Z.eqb_neq in Hne. rewrite Hne in Hh. injection Hh as <-. reflexivity.
Qed.

Lemma deleting_a_scenario_keeps_one_active_witness :
  deleteScenario 1 initialApp = Some (alert "Must have at least one scenario" initialApp).
Proof.
  destruct (deleting_a_scenario_keeps_one_active 1 initialApp initialApp_wellFormed)
    as (a' & app' & Hdel & _ & Hone & _).
  rewrite Hdel. f_equal. apply Hone. cbn. lia.
Defined.

(** ** Editing *)



(** ** Running the simulation *)





(** * The period of the engine's generator *)

Lemma iter_add {A} (f : A -> A) n k x : Nat.iter (n + k) f x = Nat.iter k f (Nat.iter n f x).
Proof. rewrite Nat.add_comm. apply Nat.iter_add. Qed.

Lemma iter_succ {A} (f : A -> A) n x : Nat.iter (S n) f x = f (Nat.iter n f x).
Proof. reflexivity. Qed.

Lemma advanceZ_wraps :
  Nat.iter (Z.to_nat 15825) advanceZ 42 = Nat.iter (Z.to_nat 5359) advanceZ 42.
Proof.
  pose proof orbit_wraps as H. unfold orbit in H.
  rewrite !orbitFrom_nth in H by lia.
  replace (Z.to_nat 15825) with (S (Z.to_nat 15824)) by lia.
  rewrite iter_succ. exact H.
Qed.

(** The generator seeded with 42 repeats itself: from the 5359th draw
    on, the state after [k + 10466] draws is the state after [k] draws.
    (The product [state * 1103515245] exceeds 2^53 and is rounded before
    it is truncated to 31 bits.) *)
Theorem generator_period (k : nat) :
  Nat.iter (Z.to_nat 5359 + Z.to_nat 10466 + k) advance 42%float =
  Nat.iter (Z.to_nat 5359 + k) advance 42%float.
Proof.
  rewrite !iter_advance. apply (f_equal of_Z).
  replace (Z.to_nat 5359 + Z.to_nat 10466)%nat with (Z.to_nat 15825) by lia.
  rewrite (iter_add advanceZ (Z.to_nat 15825) k), (iter_add advanceZ (Z.to_nat 5359) k).
  apply (f_equal (Nat.iter k advanceZ)). exact advanceZ_wraps.
Qed.

(** * More trials *)

Lemma farmLoop_setTrials j value scenario su partial state :
  farmLoop j (setTrials value scenario) su partial state =
  farmLoop j scenario su partial state.
Proof.
  revert partial state. induction j as [|j IH]; intros partial state; [reflexivity|].
  cbn [farmLoop].
  change (drawMultiplier (setTrials value scenario) su state)
    with (drawMultiplier scenario su state).
  destruct (drawMultiplier scenario su state) as [m st1]. apply IH.
Qed.

Lemma trial_setTrials value scenario su state :
  trial (setTrials value scenario) su state = trial scenario su state.
Proof.
  unfold trial. cbn [setTrials minNewFarms maxNewFarms lastYearFarms lastYearCost].
  destruct (integers _ _ _) as [nFarms st1]. now rewrite farmLoop_setTrials.
Qed.

Lemma stateAt_setTrials i value scenario su state :
  stateAt i (setTrials value scenario) su state = stateAt i scenario su state.
Proof.
  revert state. induction i as [|i IH]; intros state; [reflexivity|].
  cbn [stateAt]. now rewrite trial_setTrials, IH.
Qed.

Lemma savings_nth mathRandom scenario i :
  Z.of_nat i < trials scenario ->
  nth_error (simulateSavings mathRandom scenario) i =
  Some (fst (trial scenario (setup scenario)
               (stateAt i scenario (setup scenario) 42%float))).
Proof.
  intros Hi. unfold simulateSavings. rewrite createRNG_42.
  exact (trialLoop_nth (Z.to_nat (trials scenario)) scenario (setup scenario)
           [] 42%float i ltac:(lia)).
Qed.

Lemma savings_length mathRandom scenario :
  length (simulateSavings mathRandom scenario) = Z.to_nat (trials scenario).
Proof. unfold simulateSavings. now rewrite trialLoop_length. Qed.

(** Raising the number of trials only adds savings at the end: the
    savings of a run with fewer trials are the first ones of a run with
    more. *)
Theorem more_trials_extend_savings (mathRandom : float) (scenario : Scenario) (n m : Z) :
  n <= m ->
  savings (runFarmTypeSimulation mathRandom (setTrials n scenario)) =
  firstn (Z.to_nat n) (savings (runFarmTypeSimulation mathRandom (setTrials m scenario))).
Proof.
  intros Hnm. unfold runFarmTypeSimulation. cbn [savings].
  apply nth_error_ext. intros i.
  destruct (Z.lt_ge_cases (Z.of_nat i) n) as [Hi|Hi].
  - rewrite nth_error_firstn.
    destruct (Nat.ltb_spec i (Z.to_nat n)) as [_|Hge]; [|lia].
    rewrite !savings_nth by (cbn [trials setTrials]; lia).
    change (setup (setTrials n scenario)) with (setup scenario).
    change (setup (setTrials m scenario)) with (setup scenario).
    now rewrite !trial_setTrials, !stateAt_setTrials.
  - transitivity (@None float); [|symmetry]; apply nth_error_None.
    + rewrite savings_length. cbn [trials setTrials]. lia.
    + rewrite length_firstn. lia.
Qed.

Lemma more_trials_extend_savings_witness :
  savings (runFarmTypeSimulation 0 (setTrials 2 baseCase)) =
  firstn 2 (savings (runFarmTypeSimulation 0 (setTrials 5 baseCase))).
Proof. apply (more_trials_extend_savings 0 baseCase 2 5). lia. Defined.

(** * The order of the percentiles *)

Lemma statistics_by_position savings :
  1 <= Z.of_nat (length savings) <= 200000 ->
  let n := Z.of_nat (length savings) in
  median (statistics savings) = nth_error (sort savings) (Z.to_nat (n / 2)) /\
  p10 (statistics savings) = nth_error (sort savings) (Z.to_nat (n / 10)) /\
  p90 (statistics savings) = nth_error (sort savings) (Z.to_nat (9 * n / 10)).
Proof.
  intros Hn. cbn zeta. unfold statistics, len. cbn [median p10 p90]. rewrite sort_length.
  pose proof (indices_exact _ Hn) as H. unfold indicesExact in H.
  apply andb_true_iff in H as [H H90]. apply andb_true_iff in H as [H50 H10].
  assert (Hb : 2 ^ 53 = 9007199254740992) by reflexivity.
  assert (Z.of_nat (length savings) / 2 < Z.of_nat (length savings))
    by (apply Z.div_lt_upper_bound; lia).
  assert (0 <= Z.of_nat (length savings) / 2) by (apply Z.div_pos; lia).
  assert (Z.of_nat (length savings) / 10 < Z.of_nat (length savings))
    by (apply Z.div_lt_upper_bound; lia).
  assert (0 <= Z.of_nat (length savings) / 10) by (apply Z.div_pos; lia).
  assert (9 * Z.of_nat (length savings) / 10 < Z.of_nat (length savings))
    by (apply Z.div_lt_upper_bound; lia).
  assert (0 <= 9 * Z.of_nat (length savings) / 10) by (apply Z.div_pos; lia).
  rewrite (Math_floor_floorIs _ (Z.of_nat (length savings) / 2)) by (assumption || lia).
  rewrite (Math_floor_floorIs _ (Z.of_nat (length savings) / 10)) by (assumption || lia).
  rewrite (Math_floor_floorIs _ (9 * Z.of_nat (length savings) / 10)) by (assumption || lia).
  rewrite !index_num_of_Z by lia.
  rewrite !index_nth_error by (rewrite sort_length; lia).
  repeat split; reflexivity.
Qed.

Lemma leb_refl_finite x : isFinite x = true -> (x <=? x)%float = true.
Proof.
  intros H. apply isFinite_rank in H as (a & Ha & _). rewrite leb_rank, Ha.
  apply Z.leb_refl.
Qed.

Lemma ascending_nth xs i j a b :
  ascending xs -> Forall (fun x => isFinite x = true) xs -> (i <= j)%nat ->
  nth_error xs i = Some a -> nth_error xs j = Some b -> (a <=? b)%float = true.
Proof.
  intros Hs Hfin. revert i j. induction Hs as [|x xs Hs IH Hx]; intros i j Hij Hi Hj.
  - destruct i; discriminate.
  - apply Forall_cons in Hfin as [Hfx Hfin].
    destruct i as [|i], j as [|j]; cbn [nth_error] in Hi, Hj; try lia.
    + injection Hi as <-. injection Hj as <-. now apply leb_refl_finite.
    + injection Hi as <-. rewrite List.Forall_forall in Hx. apply Hx.
      now apply nth_error_In in Hj.
    + apply (IH Hfin i j); [lia|exact Hi|exact Hj].
Qed.

(** For up to 200000 finite savings the three percentiles are savings
    values, in order: p10 <= median <= p90. *)
Theorem percentiles_are_ordered (savings : list float) :
  1 <= Z.of_nat (length savings) <= 200000 ->
  Forall (fun s => isFinite s = true) savings ->
  exists lo mid hi,
    p10 (statistics savings) = Some lo /\
    median (statistics savings) = Some mid /\
    p90 (statistics savings) = Some hi /\
    In lo savings /\ In mid savings /\ In hi savings /\
    (lo <=? mid)%float = true /\ (mid <=? hi)%float = true.
Proof.
  intros Hn Hfin. destruct (statistics_by_position savings Hn) as (Hmed & H10 & H90).
  set (n := Z.of_nat (length savings)) in *.
  assert (H2 : 0 <= n / 2 < n) by (split; [apply Z.div_pos|apply Z.div_lt_upper_bound]; lia).
  assert (H1 : 0 <= n / 10 < n) by (split; [apply Z.div_pos|apply Z.div_lt_upper_bound]; lia).
  assert (H9 : 0 <= 9 * n / 10 < n)
    by (split; [apply Z.div_pos|apply Z.div_lt_upper_bound]; lia).
  assert (H12 : n / 10 <= n / 2).
  { apply Z.div_le_lower_bound; [lia|]. pose proof (Z.mul_div_le n 10 ltac:(lia)). lia. }
  assert (H29 : n / 2 <= 9 * n / 10).
  { apply Z.div_le_lower_bound; [lia|]. pose proof (Z.mul_div_le n 2 ltac:(lia)). lia. }
  assert (Hsome : forall k, (k < length (sort savings))%nat ->
                            exists v, nth_error (sort savings) k = Some v).
  { intros k Hk. destruct (nth_error (sort savings) k) eqn:E; [now eexists|].
    apply nth_error_None in E. lia. }
  destruct (Hsome (Z.to_nat (n / 10))) as [lo Hlo]; [rewrite sort_length; lia|].
  destruct (Hsome (Z.to_nat (n / 2))) as [mid Hmid]; [rewrite sort_length; lia|].
  destruct (Hsome (Z.to_nat (9 * n / 10))) as [hi Hhi]; [rewrite sort_length; lia|].
  assert (Hsf : Forall (fun x => isFinite x = true) (sort savings))
    by (rewrite (sort_perm savings); exact Hfin).
  pose proof (sort_ascending savings Hfin) as Hasc.
  assert (Hin : forall k v, nth_error (sort savings) k = Some v -> In v savings).
  { intros k v Hk. apply nth_error_In in Hk.
    eapply Permutation_in; [apply sort_perm|exact Hk]. }
  exists lo, mid, hi. rewrite H10, Hmed, H90.
  repeat split; try assumption; try (eapply Hin; eassumption).
  - apply (ascending_nth (sort savings) (Z.to_nat (n / 10)) (Z.to_nat (n / 2)));
      try assumption. lia.
  - apply (ascending_nth (sort savings) (Z.to_nat (n / 2)) (Z.to_nat (9 * n / 10)));
      try assumption. lia.
Qed.

Lemma percentiles_are_ordered_witness :
  exists lo mid hi,
    p10 (statistics [30; 10; 40; 20]%float) = Some lo /\
    median (statistics [30; 10; 40; 20]%float) = Some mid /\
    p90 (statistics [30; 10; 40; 20]%float) = Some hi /\
    (lo <=? mid)%float = true /\ (mid <=? hi)%float = true.
Proof.
  destruct (percentiles_are_ordered [30; 10; 40; 20]%float)
    as (lo & mid & hi & H1 & H2 & H3 & _ & _ & _ & H4 & H5);
    [cbn; lia|repeat constructor|].
  exists lo, mid, hi. repeat split; assumption.
Defined.
